(** * ai-lead-gen-pro: admission control, caching and analysis orchestration

    A shallow embedding of the request-admission layer
    ([lib/rate-limit.ts], [lib/rate-limit/memory-rate-limit.ts]), the cache
    service ([lib/cache.ts], [lib/cache/memory-cache.ts]), the verification
    and synthesis passes of the analysis pipeline
    ([services/research/horsemen]) and the orchestration entry points
    ([services/research/engine.ts], [app/api/research/route.ts]).

    Promises are modelled by a state-and-exception monad: an [async]
    function is a state transformer whose result is either [Resolved] or
    [Rejected]; [await] is monadic bind and [try]/[catch] is [try_catch].
    JavaScript numbers that hold counters are integers ([Z]); confidences
    and scores are exact rationals ([Q]). *)

From Stdlib Require Import ZArith QArith Qround Qminmax String Ascii List Lia.
From Stdlib Require Import Permutation Sorted Lqa.
From stdpp Require Import gmap strings list sorting.

Local Open Scope string_scope.
Local Open Scope Z_scope.

(* ===================================================================== *)
(** ** Errors ([lib/errors.ts]) *)
(* ===================================================================== *)

(** The error classes the modelled code throws.  [Error] is a plain
    JavaScript [Error] raised by a collaborator or a backend. *)
Inductive error : Type :=
  | Error (message : string)
  | ValidationError (message : string)
  | RateLimitError (message : string) (retryAfter : Z)
  | ExternalServiceError (service : string).

Definition statusCode (e : error) : Z :=
  match e with
  | Error _ => 500
  | ValidationError _ => 400
  | RateLimitError _ _ => 429
  | ExternalServiceError _ => 502
  end.

(* ===================================================================== *)
(** ** Promises as a state-and-exception monad *)
(* ===================================================================== *)

Inductive outcome (A : Type) : Type :=
  | Resolved (a : A)
  | Rejected (e : error).
Arguments Resolved {A} a.
Arguments Rejected {A} e.

Definition Async (S A : Type) : Type := S -> outcome A * S.

Definition ret {S A} (a : A) : Async S A := fun s => (Resolved a, s).

Definition throw {S A} (e : error) : Async S A := fun s => (Rejected e, s).

(** A promise that is already settled. *)
Definition lift {S A} (o : outcome A) : Async S A := fun s => (o, s).

Definition bind {S A B} (m : Async S A) (k : A -> Async S B) : Async S B :=
  fun s =>
    match m s with
    | (Resolved a, s') => k a s'
    | (Rejected e, s') => (Rejected e, s')
    end.

Definition try_catch {S A} (body : Async S A) (handler : error -> Async S A)
  : Async S A :=
  fun s =>
    match body s with
    | (Resolved a, s') => (Resolved a, s')
    | (Rejected e, s') => handler e s'
    end.

Notation "'await' x <- m ; k" := (bind m (fun x => k))
  (at level 10, x name, m at level 100, k at level 200).
Notation "'await_' m ; k" := (bind m (fun _ => k))
  (at level 10, m at level 100, k at level 200).

Definition is_resolved {A} (o : outcome A) : bool :=
  match o with Resolved _ => true | Rejected _ => false end.

Definition is_rejected {A} (o : outcome A) : bool := negb (is_resolved o).

(* ===================================================================== *)
(** ** JavaScript helpers: [parseInt], [Number.prototype.toString] *)
(* ===================================================================== *)

Module JS.

(** A number that may be [NaN].  The numbers here are integers, kept
    exact; a double is exact below [2^53]. *)
Definition num := option Z.

(** White space of the ASCII range: tab, line feed, vertical tab, form
    feed, carriage return and space.  The texts read here, environment
    values and renderings of counters, are ASCII. *)
Definition is_whitespace (c : ascii) : bool :=
  let n := N_of_ascii c in
  ((9 <=? n) && (n <=? 13) || (n =? 32))%N.

Fixpoint skip_whitespace (s : string) : string :=
  match s with
  | String c rest => if is_whitespace c then skip_whitespace rest else s
  | EmptyString => s
  end.

(** The value of [c] as a digit of the given radix, if it is one. *)
Definition digit_value (radix : Z) (c : ascii) : option Z :=
  let n := Z.of_N (N_of_ascii c) in
  let v :=
    if (48 <=? n) && (n <=? 57) then Some (n - 48)
    else if (97 <=? n) && (n <=? 122) then Some (n - 87)
    else if (65 <=? n) && (n <=? 90) then Some (n - 55)
    else None in
  match v with
  | Some d => if d <? radix then Some d else None
  | None => None
  end.

(** The longest prefix of digits, read left to right; [None] when the
    prefix is empty. *)
Fixpoint parse_digits (radix : Z) (acc : option Z) (s : string) : option Z :=
  match s with
  | String c rest =>
      match digit_value radix c with
      | Some d => parse_digits radix (Some (default 0 acc * radix + d)) rest
      | None => acc
      end
  | EmptyString => acc
  end.

Definition strip_hex_prefix (s : string) : option string :=
  match s with
  | String "0" (String "x" rest) => Some rest
  | String "0" (String "X" rest) => Some rest
  | _ => None
  end.

(** [parseInt(s)] with no radix argument. *)
Definition parseInt (s : string) : num :=
  let s1 := skip_whitespace s in
  let '(sign, s2) :=
    match s1 with
    | String "-" rest => (-1, rest)
    | String "+" rest => (1, rest)
    | _ => (1, s1)
    end in
  let magnitude :=
    match strip_hex_prefix s2 with
    | Some rest => parse_digits 16 None rest
    | None => parse_digits 10 None s2
    end in
  match magnitude with
  | Some m => Some (sign * m)
  | None => None
  end.

(** [a >= b] and [a > b] where the right operand may be [NaN]. *)
Definition ge (a : num) (b : num) : bool :=
  match a, b with
  | Some x, Some y => y <=? x
  | _, _ => false
  end.

Definition gt (a : num) (b : num) : bool :=
  match a, b with
  | Some x, Some y => y <? x
  | _, _ => false
  end.

(** Truthiness of a string. *)
Definition truthy (s : string) : bool :=
  match s with EmptyString => false | _ => true end.

(** [value || fallback] on an optional string (an environment variable). *)
Definition or_default (v : option string) (fallback : string) : string :=
  match v with
  | Some s => if truthy s then s else fallback
  | None => fallback
  end.

Definition digit_char (d : Z) : ascii := ascii_of_N (Z.to_N (48 + d)).

(** Decimal digits of a non-negative integer, most significant first. *)
Fixpoint digits_pos (fuel : nat) (n : Z) (acc : string) : string :=
  match fuel with
  | O => acc
  | S fuel' =>
      let acc' := String (digit_char (n mod 10)) acc in
      if n <? 10 then acc' else digits_pos fuel' (n / 10) acc'
  end.

(** [n.toString()] for an integer [n]. *)
Definition toString (n : Z) : string :=
  if n <? 0 then String "-" (digits_pos (Z.to_nat (Z.log2 (- n)) + 1) (- n) "")
  else digits_pos (Z.to_nat (Z.log2 n) + 1) n "".

End JS.

(* ===================================================================== *)
(** ** Counter store and admission control ([lib/rate-limit.ts]) *)
(* ===================================================================== *)

Module RateLimit.

(** The operations [rateLimiter] offers, shared by the [ioredis] client
    and [MemoryRateLimiter].  Every operation returns a promise, so every
    operation may reject. *)
Record CounterStore (S : Type) : Type := {
  incr : string -> Async S Z;
  decr : string -> Async S Z;
  get : string -> Async S (option string);
  del : string -> Async S unit;
  expire : string -> Z -> Async S unit
}.
Arguments incr {S} _ _ _.
Arguments decr {S} _ _ _.
Arguments get {S} _ _ _.
Arguments del {S} _ _ _.
Arguments expire {S} _ _ _ _.

(** *** [MemoryRateLimiter] *)

(** [expiryTimers] maps a key to the delay, in milliseconds, of the timer
    armed for it; when the timer fires the key leaves both maps. *)
Record MemoryRateLimiter : Type := {
  counters : gmap string Z;
  expiryTimers : gmap string Z
}.

Definition empty_limiter : MemoryRateLimiter :=
  {| counters := ∅; expiryTimers := ∅ |}.

(** [this.counters.get(key) || 0] *)
Definition current (m : MemoryRateLimiter) (key : string) : Z :=
  default 0 (counters m !! key).

Definition mem_incr (key : string) : Async MemoryRateLimiter Z :=
  fun m =>
    let newValue := current m key + 1 in
    (Resolved newValue,
     {| counters := <[key := newValue]> (counters m);
        expiryTimers := expiryTimers m |}).

Definition mem_decr (key : string) : Async MemoryRateLimiter Z :=
  fun m =>
    let newValue := Z.max 0 (current m key - 1) in
    (Resolved newValue,
     {| counters := if newValue =? 0 then delete key (counters m)
                    else <[key := newValue]> (counters m);
        expiryTimers := expiryTimers m |}).

Definition mem_get (key : string) : Async MemoryRateLimiter (option string) :=
  fun m => (Resolved (JS.toString <$> counters m !! key), m).

Definition mem_del (key : string) : Async MemoryRateLimiter unit :=
  fun m =>
    (Resolved tt,
     {| counters := delete key (counters m);
        expiryTimers := delete key (expiryTimers m) |}).

Definition mem_expire (key : string) (seconds : Z)
  : Async MemoryRateLimiter unit :=
  fun m =>
    (Resolved tt,
     {| counters := counters m;
        expiryTimers := <[key := seconds * 1000]> (expiryTimers m) |}).

(** The callback of the timer armed by [expire]. *)
Definition timer_fires (key : string) (m : MemoryRateLimiter)
  : MemoryRateLimiter :=
  {| counters := delete key (counters m);
     expiryTimers := delete key (expiryTimers m) |}.

Definition memoryStore : CounterStore MemoryRateLimiter := {|
  incr := mem_incr;
  decr := mem_decr;
  get := mem_get;
  del := mem_del;
  expire := mem_expire
|}.

(** *** A store whose backend is unreachable: every command rejects. *)

Definition connection_lost : error := Error "Connection lost".

Definition downStore : CounterStore unit := {|
  incr := fun _ => throw connection_lost;
  decr := fun _ => throw connection_lost;
  get := fun _ => throw connection_lost;
  del := fun _ => throw connection_lost;
  expire := fun _ _ => throw connection_lost
|}.

(** *** Recording the commands sent to a store *)

(** One command together with what the store answered. *)
Inductive event : Type :=
  | EIncr (key : string) (answer : outcome Z)
  | EDecr (key : string) (answer : outcome Z)
  | EGet (key : string) (answer : outcome (option string))
  | EDel (key : string) (answer : outcome unit)
  | EExpire (key : string) (seconds : Z) (answer : outcome unit).

Definition event_rejected (ev : event) : bool :=
  match ev with
  | EIncr _ a | EDecr _ a => is_rejected a
  | EGet _ a => is_rejected a
  | EDel _ a | EExpire _ _ a => is_rejected a
  end.

Definition event_key (ev : event) : string :=
  match ev with
  | EIncr key _ | EDecr key _ | EGet key _ | EDel key _ | EExpire key _ _ => key
  end.

Definition record {S A} (mk : outcome A -> event) (op : Async S A)
  : Async (S * list event) A :=
  fun '(s, log) =>
    let '(answer, s') := op s in
    (answer, (s', (log ++ [mk answer])%list)).

(** The same store, with every command appended to a log. *)
Definition logged {S} (st : CounterStore S) : CounterStore (S * list event) := {|
  incr := fun key => record (EIncr key) (incr st key);
  decr := fun key => record (EDecr key) (decr st key);
  get := fun key => record (EGet key) (get st key);
  del := fun key => record (EDel key) (del st key);
  expire := fun key seconds =>
    record (EExpire key seconds) (expire st key seconds)
|}.


(** *** The limiter *)

Section Limiter.

(** [process.env.DAILY_RESEARCH_CAP_PER_TENANT] and
    [process.env.MAX_CONCURRENT_RESEARCH_JOBS]. *)
Variable env_DAILY_RESEARCH_CAP_PER_TENANT : option string.
Variable env_MAX_CONCURRENT_RESEARCH_JOBS : option string.

Definition DAILY_LIMIT : JS.num :=
  JS.parseInt (JS.or_default env_DAILY_RESEARCH_CAP_PER_TENANT "50").

Definition CONCURRENT_LIMIT : JS.num :=
  JS.parseInt (JS.or_default env_MAX_CONCURRENT_RESEARCH_JOBS "3").

Context {S : Type} (rateLimiter : CounterStore S).

(** [today] is [new Date().toISOString().split('T')[0]], the current
    UTC date. *)
Definition dailyKey (clientId today : string) : string :=
  "rate:daily:" +:+ clientId +:+ ":" +:+ today.

Definition concurrentKey (clientId : string) : string :=
  "rate:concurrent:" +:+ clientId.

(** [concurrentCount && parseInt(concurrentCount) >= CONCURRENT_LIMIT] *)
Definition at_concurrent_limit (concurrentCount : option string) : bool :=
  match concurrentCount with
  | Some c => JS.truthy c && JS.ge (JS.parseInt c) CONCURRENT_LIMIT
  | None => false
  end.

(** The body of the [try] block of [checkRateLimit]. *)
Definition checkRateLimit_body (today clientId : string) : Async S bool :=
  let dailyKey := dailyKey clientId today in
  let concurrentKey := concurrentKey clientId in
  await dailyCount <- incr rateLimiter dailyKey;
  await_ (if dailyCount =? 1
          then expire rateLimiter dailyKey 86400
          else ret tt);
  if JS.gt (Some dailyCount) DAILY_LIMIT then
    await_ decr rateLimiter dailyKey;
    ret false
  else
    await concurrentCount <- get rateLimiter concurrentKey;
    if at_concurrent_limit concurrentCount then
      await_ decr rateLimiter dailyKey;
      ret false
    else
      ret true.

Definition checkRateLimit (today clientId : string) : Async S bool :=
  try_catch (checkRateLimit_body today clientId)
            (fun _ => ret true).

Definition incrementConcurrent (clientId : string) : Async S unit :=
  let concurrentKey := concurrentKey clientId in
  await_ incr rateLimiter concurrentKey;
  expire rateLimiter concurrentKey 3600.

Definition decrementConcurrent (clientId : string) : Async S unit :=
  let concurrentKey := concurrentKey clientId in
  await count <- decr rateLimiter concurrentKey;
  if count <=? 0 then del rateLimiter concurrentKey else ret tt.

End Limiter.

(** A command that takes or releases a concurrency slot: an increment or
    a decrement of some tenant's concurrency counter. *)
Definition slot_command (ev : event) : Prop :=
  exists clientId answer,
    ev = EIncr (concurrentKey clientId) answer \/
    ev = EDecr (concurrentKey clientId) answer.

End RateLimit.

(* ===================================================================== *)
(** ** SHA-256 ([createHash('sha256')] of Node's [crypto]) *)
(* ===================================================================== *)

Module SHA256.

Definition w32 (x : Z) : Z := x mod 2 ^ 32.

Definition add32 (a b : Z) : Z := w32 (a + b).

Definition rotr (n x : Z) : Z :=
  Z.lor (Z.shiftr x n) (w32 (Z.shiftl x (32 - n))).

Definition not32 (x : Z) : Z := Z.lxor x 4294967295.

Definition Ch (x y z : Z) : Z :=
  Z.lxor (Z.land x y) (Z.land (not32 x) z).

Definition Maj (x y z : Z) : Z :=
  Z.lxor (Z.lxor (Z.land x y) (Z.land x z)) (Z.land y z).

Definition Sigma0 (x : Z) : Z :=
  Z.lxor (Z.lxor (rotr 2 x) (rotr 13 x)) (rotr 22 x).

Definition Sigma1 (x : Z) : Z :=
  Z.lxor (Z.lxor (rotr 6 x) (rotr 11 x)) (rotr 25 x).

Definition sigma0 (x : Z) : Z :=
  Z.lxor (Z.lxor (rotr 7 x) (rotr 18 x)) (Z.shiftr x 3).

Definition sigma1 (x : Z) : Z :=
  Z.lxor (Z.lxor (rotr 17 x) (rotr 19 x)) (Z.shiftr x 10).

Definition K : list Z :=
  [ 1116352408; 1899447441; 3049323471; 3921009573; 961987163; 1508970993;
    2453635748; 2870763221; 3624381080; 310598401; 607225278; 1426881987;
    1925078388; 2162078206; 2614888103; 3248222580; 3835390401; 4022224774;
    264347078; 604807628; 770255983; 1249150122; 1555081692; 1996064986;
    2554220882; 2821834349; 2952996808; 3210313671; 3336571891; 3584528711;
    113926993; 338241895; 666307205; 773529912; 1294757372; 1396182291;
    1695183700; 1986661051; 2177026350; 2456956037; 2730485921; 2820302411;
    3259730800; 3345764771; 3516065817; 3600352804; 4094571909; 275423344;
    430227734; 506948616; 659060556; 883997877; 958139571; 1322822218;
    1537002063; 1747873779; 1955562222; 2024104815; 2227730452; 2361852424;
    2428436474; 2756734187; 3204031479; 3329325298 ].

(** The eight working words. *)
Record state : Type := State {
  ha : Z; hb : Z; hc : Z; hd : Z; he : Z; hf : Z; hg : Z; hh : Z
}.

Definition H0 : state :=
  State 1779033703 3144134277 1013904242 2773480762
        1359893119 2600822924 528734635 1541459225.

Definition bytes_of_string (s : string) : list Z :=
  map (fun c => Z.of_N (N_of_ascii c)) (list_ascii_of_string s).

(** The message length in bits as eight bytes, most significant first. *)
Definition length_bytes (bits : Z) : list Z :=
  map (fun i => Z.shiftr bits (8 * i) mod 256) [7; 6; 5; 4; 3; 2; 1; 0].

Definition pad (msg : list Z) : list Z :=
  let len := Z.of_nat (length msg) in
  let zeros := Z.to_nat ((55 - len) mod 64) in
  (msg ++ 128 :: repeat 0 zeros ++ length_bytes (8 * len))%list.

Fixpoint words_of_bytes (bs : list Z) : list Z :=
  match bs with
  | b0 :: b1 :: b2 :: b3 :: rest =>
      (Z.shiftl b0 24 + Z.shiftl b1 16 + Z.shiftl b2 8 + b3)
      :: words_of_bytes rest
  | _ => []
  end.

(** Extends the sixteen words of a block with [n] further schedule
    words. *)
Fixpoint schedule (n : nat) (w : list Z) : list Z :=
  match n with
  | O => w
  | S n' =>
      let t := length w in
      let at_ (back : nat) := nth (t - back) w 0 in
      schedule n'
        (w ++ [add32 (add32 (sigma1 (at_ 2%nat)) (at_ 7%nat))
                     (add32 (sigma0 (at_ 15%nat)) (at_ 16%nat))])%list
  end.

Definition round (st : state) (kw : Z * Z) : state :=
  let '(k, w) := kw in
  let t1 := add32 (add32 (add32 (hh st) (Sigma1 (he st)))
                         (add32 (Ch (he st) (hf st) (hg st)) k)) w in
  let t2 := add32 (Sigma0 (ha st)) (Maj (ha st) (hb st) (hc st)) in
  State (add32 t1 t2) (ha st) (hb st) (hc st)
        (add32 (hd st) t1) (he st) (hf st) (hg st).

Definition compress (st : state) (block : list Z) : state :=
  let w := schedule 48 block in
  let r := fold_left round (combine K w) st in
  State (add32 (ha st) (ha r)) (add32 (hb st) (hb r))
        (add32 (hc st) (hc r)) (add32 (hd st) (hd r))
        (add32 (he st) (he r)) (add32 (hf st) (hf r))
        (add32 (hg st) (hg r)) (add32 (hh st) (hh r)).

(** Folds [compress] over the sixteen-word blocks of [ws]. *)
Fixpoint blocks (fuel : nat) (st : state) (ws : list Z) : state :=
  match fuel, ws with
  | S fuel', _ :: _ => blocks fuel' (compress st (take 16 ws)) (drop 16 ws)
  | _, _ => st
  end.

Definition hash (msg : list Z) : state :=
  let ws := words_of_bytes (pad msg) in
  blocks (length ws) H0 ws.

Definition hex_digit (n : Z) : ascii :=
  let d := n mod 16 in
  ascii_of_N (Z.to_N (if d <? 10 then 48 + d else 87 + d)).

Definition hex8 (w : Z) (tail : string) : string :=
  String (hex_digit (Z.shiftr w 28))
 (String (hex_digit (Z.shiftr w 24))
 (String (hex_digit (Z.shiftr w 20))
 (String (hex_digit (Z.shiftr w 16))
 (String (hex_digit (Z.shiftr w 12))
 (String (hex_digit (Z.shiftr w 8))
 (String (hex_digit (Z.shiftr w 4))
 (String (hex_digit w) tail))))))).

(** [.digest('hex')] *)
Definition hex (st : state) : string :=
  hex8 (ha st) (hex8 (hb st) (hex8 (hc st) (hex8 (hd st)
    (hex8 (he st) (hex8 (hf st) (hex8 (hg st) (hex8 (hh st) ""))))))).

(** [createHash('sha256').update(s).digest('hex')]; [s] holds the bytes
    of the UTF-8 encoding of the text. *)
Definition digest_hex (s : string) : string := hex (hash (bytes_of_string s)).

(** A lower-case hexadecimal digit. *)
Definition is_hex (c : ascii) : bool :=
  let n := N_of_ascii c in
  ((48 <=? n) && (n <=? 57) || (97 <=? n) && (n <=? 102))%N.

End SHA256.

(* ===================================================================== *)
(** ** [JSON.stringify] *)
(* ===================================================================== *)

Module JSON.

(** Values that [JSON.stringify] serialises.  An object lists its
    properties in enumeration order; a property or array slot holding
    [undefined] is [None]. *)
#[warnings="-register-all"]
Inductive value : Type :=
  | Null
  | Bool (b : bool)
  | Num (n : Z)
  | Str (s : string)
  | Arr (items : list (option value))
  | Obj (props : list (string * option value)).

(** The double quote character. *)
Definition dquote : ascii := ascii_of_N 34.

Definition hex4 (n : Z) : string :=
  String (SHA256.hex_digit (Z.shiftr n 12))
 (String (SHA256.hex_digit (Z.shiftr n 8))
 (String (SHA256.hex_digit (Z.shiftr n 4))
 (String (SHA256.hex_digit n) ""))).

Definition escape_char (c : ascii) : string :=
  let n := Z.of_N (N_of_ascii c) in
  if n =? 34 then String "\" (String dquote "")
  else if n =? 92 then "\\"
  else if n =? 8 then "\b"
  else if n =? 12 then "\f"
  else if n =? 10 then "\n"
  else if n =? 13 then "\r"
  else if n =? 9 then "\t"
  else if n <? 32 then "\u" +:+ hex4 n
  else String c "".

Fixpoint escape (s : string) : string :=
  match s with
  | String c rest => escape_char c +:+ escape rest
  | EmptyString => ""
  end.

Definition quote (s : string) : string :=
  String dquote (escape s +:+ String dquote "").

Fixpoint join (sep : string) (parts : list string) : string :=
  match parts with
  | [] => ""
  | [p] => p
  | p :: rest => p +:+ sep +:+ join sep rest
  end.

Fixpoint stringify (v : value) : string :=
  match v with
  | Null => "null"
  | Bool true => "true"
  | Bool false => "false"
  | Num n => JS.toString n
  | Str s => quote s
  | Arr items =>
      "[" +:+ join ","
        (map (fun o => match o with
                       | Some x => stringify x
                       | None => "null"
                       end) items) +:+ "]"
  | Obj props =>
      "{" +:+ join ","
        ((fix members (ps : list (string * option value)) : list string :=
            match ps with
            | [] => []
            | (k, Some x) :: rest =>
                (quote k +:+ ":" +:+ stringify x) :: members rest
            | (_, None) :: rest => members rest
            end) props) +:+ "}"
  end.

(** Two values with the same properties, possibly listed in another
    order. *)
Inductive same_properties : value -> value -> Prop :=
  | same_value v : same_properties v v
  | same_object ps qs :
      Permutation ps qs -> same_properties (Obj ps) (Obj qs).

End JSON.

(* ===================================================================== *)
(** ** Cache store and cache service ([lib/cache.ts]) *)
(* ===================================================================== *)

Module Cache.

(** What [cacheClient.get] may answer: [null] or [undefined], a string
    (the payload a Redis server holds) and, from the in-process cache,
    the stored value as it is: [ObjVal] is a value that is truthy and not
    a string, [FalsyVal] one that is falsy and neither a string nor
    [null] ([0], [NaN], [false]). *)
Inductive jsval (V : Type) : Type :=
  | Nullish
  | StrVal (s : string)
  | ObjVal (v : V)
  | FalsyVal (v : V).
Arguments Nullish {V}.
Arguments StrVal {V} s.
Arguments ObjVal {V} v.
Arguments FalsyVal {V} v.

Definition truthy {V} (x : jsval V) : bool :=
  match x with
  | Nullish => false
  | StrVal s => JS.truthy s
  | ObjVal _ => true
  | FalsyVal _ => false
  end.

(** What kind of JavaScript value a value of type [V] is: [js_view v] is
    [StrVal s] when [v] is the string [s], [Nullish] when it is [null] or
    [undefined], [FalsyVal v] when it is another falsy value and [ObjVal v]
    otherwise. *)
Class JSValue (V : Type) : Type := js_view : V -> jsval V.

(** Integers as JavaScript numbers, and strings. *)
#[export] Instance number_view : JSValue Z :=
  fun n => if n =? 0 then FalsyVal n else ObjVal n.

#[export] Instance string_view : JSValue string := StrVal.

(** [a + b] and [a * b] on numbers that may be [NaN]. *)
Definition plus (a b : JS.num) : JS.num :=
  match a, b with
  | Some x, Some y => Some (x + y)
  | _, _ => None
  end.

Definition times (a b : JS.num) : JS.num :=
  match a, b with
  | Some x, Some y => Some (x * y)
  | _, _ => None
  end.

(** The operations of [cacheClient] that [get], [set] and [invalidate]
    use.  [instanceofRedis] is [cacheClient instanceof Redis]. *)
Record CacheClient (S V : Type) : Type := {
  instanceofRedis : bool;
  c_get : string -> Async S (jsval V);
  c_setex : string -> JS.num -> string -> Async S unit;
  c_set : string -> V -> JS.num -> Async S unit;
  c_del : string -> Async S unit
}.
Arguments instanceofRedis {S V} _.
Arguments c_get {S V} _ _ _.
Arguments c_setex {S V} _ _ _ _ _.
Arguments c_set {S V} _ _ _ _ _.
Arguments c_del {S V} _ _ _.

(** *** [MemoryCache] *)

(** [now] is the reading of [Date.now()], in milliseconds; an entry of
    [cache] is a value and its [expiry], which is [NaN] when the time to
    live was not a number; [timers] maps a key to the time at which its
    cleanup timer is due. *)
Record MemoryCache (V : Type) : Type := {
  now : Z;
  cache : gmap string (V * JS.num);
  timers : gmap string Z
}.
Arguments now {V} _.
Arguments cache {V} _.
Arguments timers {V} _.

Definition empty_cache {V} (t : Z) : MemoryCache V :=
  {| now := t; cache := ∅; timers := ∅ |}.

(** [get]: [Date.now() > item.expiry] is false when the expiry is [NaN];
    an entry that has not expired is answered as the value it holds. *)
Definition mc_get {V} `{!JSValue V} (key : string)
  : Async (MemoryCache V) (jsval V) :=
  fun m =>
    match cache m !! key with
    | None => (Resolved Nullish, m)
    | Some (value, expiry) =>
        if JS.gt (Some (now m)) expiry then
          (Resolved Nullish,
           {| now := now m; cache := delete key (cache m);
              timers := timers m |})
        else (Resolved (js_view value), m)
    end.

(** The delay that [setTimeout(callback, ms)] waits: a delay that is
    [NaN], below 1 or above [2^31 - 1] is set to 1. *)
Definition timer_delay (ms : JS.num) : Z :=
  match ms with
  | Some d => if (d <? 1) || (2147483647 <? d) then 1 else d
  | None => 1
  end.

(** A time to live, in seconds, whose cleanup timer [setTimeout] arms as
    it is. *)
Definition timer_range (seconds : Z) : Prop :=
  1 <= seconds * 1000 <= 2147483647.

Definition mc_set {V} (key : string) (value : V) (ttlSeconds : JS.num)
  : Async (MemoryCache V) unit :=
  fun m =>
    let expiry := plus (Some (now m)) (times ttlSeconds (Some 1000)) in
    (Resolved tt,
     {| now := now m;
        cache := <[key := (value, expiry)]> (cache m);
        timers := <[key := now m + timer_delay (times ttlSeconds (Some 1000))]>
                    (timers m) |}).

Definition mc_del {V} (key : string) : Async (MemoryCache V) unit :=
  fun m =>
    (Resolved tt,
     {| now := now m; cache := delete key (cache m);
        timers := delete key (timers m) |}).

(** Time passes: the clock moves on by [ms] milliseconds and every
    cleanup timer that has come due runs its callback. *)
Definition elapse {V} (ms : Z) (m : MemoryCache V) : MemoryCache V :=
  let t := now m + ms in
  let due := filter (fun kv => kv.2 <= t) (timers m) in
  {| now := t;
     cache := filter (fun kv => due !! kv.1 = None) (cache m);
     timers := filter (fun kv => ~ (kv.2 <= t)) (timers m) |}.

Definition memoryClient {V} `{!JSValue V} : CacheClient (MemoryCache V) V := {|
  instanceofRedis := false;
  c_get := mc_get;
  c_setex := fun _ _ _ => throw (Error "cacheClient.setex is not a function");
  c_set := mc_set;
  c_del := mc_del
|}.

(** A Redis client whose server is unreachable. *)
Definition downClient {V} : CacheClient unit V := {|
  instanceofRedis := true;
  c_get := fun _ => throw (Error "Connection is closed.");
  c_setex := fun _ _ _ => throw (Error "Connection is closed.");
  c_set := fun _ _ _ => throw (Error "Connection is closed.");
  c_del := fun _ => throw (Error "Connection is closed.")
|}.

(** *** Recording the commands sent to a cache client *)

Inductive event (V : Type) : Type :=
  | EGet (key : string) (answer : outcome (jsval V))
  | ESetex (key : string) (seconds : JS.num) (payload : string)
           (answer : outcome unit)
  | ESet (key : string) (value : V) (seconds : JS.num)
         (answer : outcome unit)
  | EDel (key : string) (answer : outcome unit).
Arguments EGet {V} key answer.
Arguments ESetex {V} key seconds payload answer.
Arguments ESet {V} key value seconds answer.
Arguments EDel {V} key answer.

Definition event_rejected {V} (ev : event V) : bool :=
  match ev with
  | EGet _ a => is_rejected a
  | ESetex _ _ _ a | ESet _ _ _ a | EDel _ a => is_rejected a
  end.

Definition record {S V A} (mk : outcome A -> event V) (op : Async S A)
  : Async (S * list (event V)) A :=
  fun '(s, log) =>
    let '(answer, s') := op s in
    (answer, (s', (log ++ [mk answer])%list)).

Definition logged {S V} (cl : CacheClient S V)
  : CacheClient (S * list (event V)) V := {|
  instanceofRedis := instanceofRedis cl;
  c_get := fun key => record (EGet key) (c_get cl key);
  c_setex := fun key seconds payload =>
    record (ESetex key seconds payload) (c_setex cl key seconds payload);
  c_set := fun key value seconds =>
    record (ESet key value seconds) (c_set cl key value seconds);
  c_del := fun key => record (EDel key) (c_del cl key)
|}.

(** *** [CacheService] *)

(** The names of the members that every plain object inherits from
    [Object.prototype]. *)
Definition inherited_members : list string :=
  [ "constructor"; "__proto__"; "hasOwnProperty"; "isPrototypeOf";
    "propertyIsEnumerable"; "toLocaleString"; "toString"; "valueOf";
    "__defineGetter__"; "__defineSetter__"; "__lookupGetter__";
    "__lookupSetter__" ].

(** What a property read on the object [TTL] gives: one of the four
    settings, in seconds, an inherited member, or [undefined]. *)
Inductive setting : Type :=
  | Seconds (n : Z)
  | Inherited
  | Undefined.

(** Cache TTL settings: [TTL[namespace]]. *)
Definition TTL (namespace : string) : setting :=
  if String.eqb namespace "OSINT" then Seconds 3600
  else if String.eqb namespace "JOB_SEARCH" then Seconds 1800
  else if String.eqb namespace "RESEARCH" then Seconds 86400
  else if String.eqb namespace "DEFAULT" then Seconds 3600
  else if existsb (String.eqb namespace) inherited_members then Inherited
  else Undefined.

(** [ttl || TTL[namespace] || TTL.DEFAULT], as the number it is used as:
    an inherited member is truthy, so it is what the expression gives,
    and it is not a number. *)
Definition ttlSeconds (namespace : string) (ttl : option Z) : JS.num :=
  let fallback :=
    match TTL namespace with
    | Seconds n => Some n
    | Inherited => None
    | Undefined => Some 3600
    end in
  match ttl with
  | Some t => if t =? 0 then fallback else Some t
  | None => fallback
  end.

(** [generateKey]: the first sixteen hexadecimal digits of the SHA-256
    digest of [JSON.stringify(data)], behind the prefix and namespace. *)
Definition generateKey (prefix namespace : string) (data : JSON.value)
  : string :=
  let hash := substring 0 16 (SHA256.digest_hex (JSON.stringify data)) in
  prefix +:+ ":" +:+ namespace +:+ ":" +:+ hash.

Section Service.

(** [process.env.ENABLE_CACHE] *)
Variable env_ENABLE_CACHE : option string.

Context {S V : Type} (cacheClient : CacheClient S V).

(** [JSON.parse] of a stored payload and [JSON.stringify] of a value
    to store; both may throw. *)
Variable JSON_parse : string -> outcome (option V).
Variable JSON_stringify : V -> outcome string.

(** [this.prefix] *)
Variable prefix : string.

Definition cache_disabled : bool :=
  match env_ENABLE_CACHE with
  | Some v => String.eqb v "false"
  | None => false
  end.

(** [get<T>]: the cached object, or [None] for [null]. *)
Definition get (namespace : string) (keyData : JSON.value)
  : Async S (option V) :=
  if cache_disabled then ret None
  else
    let key := generateKey prefix namespace keyData in
    try_catch
      (await cached <- c_get cacheClient key;
       match cached with
       | StrVal s =>
           if JS.truthy s then lift (JSON_parse s) else ret None
       | ObjVal v => ret (Some v)
       | FalsyVal _ => ret None
       | Nullish => ret None
       end)
      (fun _ => ret None).

(** The body of the [try] block of [set]. *)
Definition write_through (key : string) (ttlSeconds : JS.num) (value : V)
  : Async S unit :=
  if instanceofRedis cacheClient then
    await payload <- lift (JSON_stringify value);
    c_setex cacheClient key ttlSeconds payload
  else c_set cacheClient key value ttlSeconds.

Definition set (namespace : string) (keyData : JSON.value)
    (value : V) (ttl : option Z) : Async S unit :=
  if cache_disabled then ret tt
  else
    let key := generateKey prefix namespace keyData in
    let ttlSeconds := ttlSeconds namespace ttl in
    try_catch (write_through key ttlSeconds value)
              (fun _ => ret tt).

Definition invalidate (namespace : string) (keyData : JSON.value)
  : Async S unit :=
  let key := generateKey prefix namespace keyData in
  try_catch (c_del cacheClient key) (fun _ => ret tt).

End Service.

End Cache.

(* ===================================================================== *)
(** ** Insertion-ordered maps and stable sorting *)
(* ===================================================================== *)

Module OrderedMap.

(** A JavaScript [Map] with string keys: entries stay in the order in
    which their keys were first set. *)
Definition t (A : Type) : Type := list (string * A).

Fixpoint get {A} (key : string) (m : t A) : option A :=
  match m with
  | [] => None
  | (k, v) :: rest => if String.eqb k key then Some v else get key rest
  end.

Fixpoint set {A} (key : string) (v : A) (m : t A) : t A :=
  match m with
  | [] => [(key, v)]
  | (k, x) :: rest =>
      if String.eqb k key then (k, v) :: rest else (k, x) :: set key v rest
  end.

Definition values {A} (m : t A) : list A := map snd m.

Definition entries {A} (m : t A) : list (string * A) := m.

End OrderedMap.

Module JSArray.

(** [Array.prototype.sort(compare)]: the sort is stable, so an element
    goes in front of the first element it does not compare greater
    than. *)
Fixpoint insert {A} (compare : A -> A -> Q) (x : A) (l : list A) : list A :=
  match l with
  | [] => [x]
  | y :: rest =>
      if Qle_bool (compare x y) 0 then x :: l
      else y :: insert compare x rest
  end.

Definition sort {A} (compare : A -> A -> Q) (l : list A) : list A :=
  foldr (insert compare) [] l.

(** [Array.prototype.sort()] on strings: ascending order of the
    character codes. *)
Definition sort_strings (l : list string) : list string :=
  sort (fun a b => if String.leb a b then (-1)%Q else 1%Q) l.

(** [Array.prototype.includes] on strings. *)
Definition includes (l : list string) (x : string) : bool :=
  existsb (String.eqb x) l.

(** [Array.prototype.join] *)
Definition join (sep : string) (l : list string) : string := JSON.join sep l.

End JSArray.

Module JSString.

(** [String.prototype.includes] *)
Fixpoint includes (hay needle : string) : bool :=
  String.prefix needle hay
  || match hay with
     | String _ rest => includes rest needle
     | EmptyString => false
     end.

Definition lower_char (c : ascii) : ascii :=
  let n := N_of_ascii c in
  if ((65 <=? n) && (n <=? 90))%N then ascii_of_N (n + 32) else c.

(** [String.prototype.toLowerCase], on ASCII letters. *)
Fixpoint toLowerCase (s : string) : string :=
  match s with
  | String c rest => String (lower_char c) (toLowerCase rest)
  | EmptyString => EmptyString
  end.

End JSString.

(* ===================================================================== *)
(** ** Findings and the verification and synthesis passes
       ([services/research/horsemen]) *)
(* ===================================================================== *)

Module Horsemen.

Record Source : Type := {
  source_title : string;
  source_url : option string;
  source_date : option string
}.

(** [metadata] is [finding.metadata.automationScore], which only the
    capability-backed synthesis sets.  [confidence] is an exact rational
    number where the code has a double. *)
Record Finding : Type := {
  title : string;
  detail : string;
  confidence : Q;
  tags : list string;
  sources : list Source;
  metadata : option Z
}.

Record NewsItem : Type := {
  news_title : string;
  news_url : option string;
  news_date : option string
}.

Record JobItem : Type := {
  job_title : string;
  job_url : option string;
  job_text : option string
}.

Record TechSignal : Type := {
  name : option string;
  product : option string;
  slug : option string
}.

Record ProcurementRecord : Type := {
  agency : string;
  amount : option Q;
  procurement_date : option string;
  description : option string
}.

(** The facets of the evidence bundle that verification and synthesis
    read. *)
Record OsintContext : Type := {
  companyName : string;
  domain : string;
  homepageUrl : string;
  news : list NewsItem;
  jobs : list JobItem;
  tech : list TechSignal;
  procurement : list ProcurementRecord
}.

Definition with_confidence (f : Finding) (c : Q) : Finding :=
  {| title := title f; detail := detail f; confidence := c;
     tags := tags f; sources := sources f; metadata := metadata f |}.

Definition with_tags (f : Finding) (ts : list string) : Finding :=
  {| title := title f; detail := detail f; confidence := confidence f;
     tags := ts; sources := sources f; metadata := metadata f |}.

Definition with_metadata (f : Finding) (score : Z) : Finding :=
  {| title := title f; detail := detail f; confidence := confidence f;
     tags := tags f; sources := sources f; metadata := Some score |}.

(** [a < b] on numbers. *)
Definition lt (a b : Q) : bool := negb (Qle_bool b a).

(** *** Verification: the filter shared by both implementations *)

(** [finding.confidence < 0.5 && finding.sources.length < 2] *)
Definition uncorroborated (finding : Finding) : bool :=
  lt (confidence finding) (1 # 2) && (length (sources finding) <? 2)%nat.

(** The assignment [finding.confidence = Math.min(finding.confidence *
    1.2, 1.0)], made when the finding has three sources or more. *)
Definition boost (finding : Finding) : Finding :=
  if (3 <=? length (sources finding))%nat
  then with_confidence finding (Qmin (confidence finding * (6 # 5)) 1)
  else finding.

(** [preliminary.filter(...)].  The findings of [preliminary] are
    distinct objects, so each one is visited, and boosted, once. *)
Fixpoint verify (preliminary : list Finding) : list Finding :=
  match preliminary with
  | [] => []
  | finding :: rest =>
      if uncorroborated finding then verify rest
      else boost finding :: verify rest
  end.

(** *** Verification: cross-reference and deduplicate *)

Definition merge (keyOf : Finding -> string)
    (unique : OrderedMap.t Finding) (finding : Finding)
  : OrderedMap.t Finding :=
  let key := keyOf finding in
  match OrderedMap.get key unique with
  | Some existing =>
      if lt (confidence existing) (confidence finding)
      then OrderedMap.set key finding unique
      else unique
  | None => OrderedMap.set key finding unique
  end.

(** The key of the deterministic pass:
    [`${finding.title}-${finding.tags.join('-')}`]. *)
Definition key_joined (finding : Finding) : string :=
  title finding +:+ "-" +:+ JSArray.join "-" (tags finding).

(** [finding.tags.sort()] of the capability-backed pass sorts the tags of
    the finding in place before they are joined. *)
Definition sort_tags (finding : Finding) : Finding :=
  with_tags finding (JSArray.sort_strings (tags finding)).

Definition dedupe (verified : list Finding) : list Finding :=
  OrderedMap.values (fold_left (merge key_joined) verified []).

Definition dedupe_sorted (verified : list Finding) : list Finding :=
  OrderedMap.values
    (fold_left (fun unique finding => merge key_joined unique (sort_tags finding))
               verified []).

Section Passes.

(** [process.env.LLM_PROVIDER] *)
Variable env_LLM_PROVIDER : option string.

(** [getLLMProvider().analyzeContext(context, prompt)]; the prompts are
    texts built from the context and the findings. *)
Variable analyzeContext : OsintContext -> string -> outcome string.
Variable verifyPrompt : list Finding -> string.
Variable synthesisPrompt : OsintContext -> list Finding -> string.

(** [synthesis.match(/score[:\s]+(\d+)/i)]: the digits captured, if the
    pattern matches. *)
Variable scoreMatch : string -> option string.

(** [new Date().toISOString().split('T')[0]] *)
Variable today : string.

Definition llm_configured : bool :=
  match env_LLM_PROVIDER with
  | Some v => JS.truthy v
  | None => false
  end.

Definition kevinPassEnhanced (context : OsintContext)
    (preliminary : list Finding) : outcome (list Finding) :=
  match analyzeContext context (verifyPrompt preliminary) with
  | Rejected e => Rejected e
  | Resolved _ => Resolved (dedupe_sorted (verify preliminary))
  end.

Definition kevinPass_fallback (preliminary : list Finding) : list Finding :=
  dedupe (verify preliminary).

(** The capability-backed pass is tried when a provider is configured;
    when it throws, control falls through to the rule-based pass. *)
Definition kevinPass (context : OsintContext) (preliminary : list Finding)
  : outcome (list Finding) :=
  if llm_configured then
    match kevinPassEnhanced context preliminary with
    | Resolved verified => Resolved verified
    | Rejected _ => Resolved (kevinPass_fallback preliminary)
    end
  else Resolved (kevinPass_fallback preliminary).

(** *** Synthesis: the automation score *)

Record AutomationScore : Type := {
  score : Q;
  score_confidence : Q;
  level : string
}.

Definition count {A} (p : A -> bool) (l : list A) : Z :=
  Z.of_nat (length (List.filter p l)).

Definition has_tag (tag : string) (f : Finding) : bool :=
  JSArray.includes (tags f) tag.

Definition mentions_repetition (f : Finding) : bool :=
  let d := JSString.toLowerCase (detail f) in
  JSString.includes d "repetitive"
  || JSString.includes d "manual"
  || JSString.includes d "high volume".

Definition tech_label (t : TechSignal) : string :=
  JS.or_default (name t) (JS.or_default (product t) "").

Definition modern_tech (t : TechSignal) : bool :=
  existsb (fun keyword =>
             JSString.includes (JSString.toLowerCase (tech_label t)) keyword)
          ["cloud"; "saas"; "api"; "automation"].

(** [(p.amount || 0) > 100000] *)
Definition high_value (p : ProcurementRecord) : bool :=
  lt 100000 (default 0%Q (amount p)).

Definition nonempty {A} (l : list A) : bool :=
  match l with [] => false | _ => true end.

(** The running totals [score] and [factors] after the five factors. *)
Definition factor_totals (context : OsintContext) (findings : list Finding)
  : Q * Z :=
  let automationOpportunities :=
    count (has_tag "automation-opportunity") findings in
  let '(score, factors) :=
    if (0 <? automationOpportunities)%Z
    then (Qmin (inject_Z automationOpportunities * (1 # 2)) 2, 1%Z)
    else (0%Q, 0%Z) in
  let hasGrowthSignals := existsb (has_tag "growth") findings in
  let hasMultipleJobs := (5 <=? length (jobs context))%nat in
  let '(score, factors) :=
    if hasGrowthSignals || hasMultipleJobs
    then ((score + (3 # 2))%Q, (factors + 1)%Z)
    else (score, factors) in
  let hasRepetitiveTasks := existsb mentions_repetition findings in
  let '(score, factors) :=
    if hasRepetitiveTasks
    then ((score + 2)%Q, (factors + 1)%Z)
    else (score, factors) in
  let hasTechStack := nonempty (tech context) in
  let hasModernTech := existsb modern_tech (tech context) in
  let '(score, factors) :=
    if hasTechStack
    then ((score + (if hasModernTech then 2 else 1))%Q, (factors + 1)%Z)
    else (score, factors) in
  let hasProcurement := nonempty (procurement context) in
  let hasHighValueContracts := existsb high_value (procurement context) in
  if hasProcurement
  then ((score + (if hasHighValueContracts then 2 else 1))%Q, (factors + 1)%Z)
  else (score, factors).

(** [Math.round(x)] *)
Definition round (x : Q) : Z := Qfloor (x + (1 # 2)).

Definition analyzeAutomationPotential (context : OsintContext)
    (findings : list Finding) : AutomationScore :=
  let '(score, factors) := factor_totals context findings in
  let finalScore :=
    if (0 <? factors)%Z then (score / inject_Z factors * 5)%Q else 0%Q in
  let dataPoints :=
    count (fun b : bool => b)
      [ nonempty (jobs context);
        nonempty (tech context);
        nonempty (news context);
        nonempty (procurement context);
        (5 <? length findings)%nat ] in
  let confidence := Qmin ((1 # 2) + inject_Z dataPoints * (1 # 10)) (19 # 20) in
  let level :=
    if Qle_bool 7 finalScore then "high-potential"
    else if Qle_bool 4 finalScore then "moderate-potential"
    else "low-potential" in
  {| score := (inject_Z (round (finalScore * 10)) / 10)%Q;
     score_confidence := confidence;
     level := level |}.

(** The decimal rendering of a score, which has at most one decimal. *)
Definition score_toString (q : Q) : string :=
  let tenths := Qfloor (q * 10) in
  if (tenths mod 10 =? 0)%Z then JS.toString (tenths / 10)
  else JS.toString (tenths / 10) +:+ "." +:+ JS.toString (tenths mod 10).

Definition generateSynthesis (context : OsintContext)
    (findings : list Finding) (automationScore : AutomationScore) : string :=
  let opportunities :=
    count (fun f => has_tag "automation-opportunity" f
                    || has_tag "high-impact" f) findings in
  let hasJobs := nonempty (jobs context) in
  let hasTech := nonempty (tech context) in
  let hasGrowth := existsb (has_tag "growth") findings in
  companyName context +:+ " shows " +:+ level automationScore
    +:+ " potential for AI automation (score: "
    +:+ score_toString (score automationScore) +:+ "/10). "
    +:+ (if (0 <? opportunities)%Z
         then "Identified " +:+ JS.toString opportunities
              +:+ " specific automation opportunities. "
         else "")
    +:+ (if hasJobs
         then "Active hiring indicates growth and potential for process optimization. "
         else "")
    +:+ (if hasTech
         then "Existing tech stack suggests openness to technology adoption. "
         else "")
    +:+ (if hasGrowth
         then "Growth signals indicate scaling challenges that AI could address. "
         else "").

(** *** Synthesis: prioritisation *)

(** [confidence * (tags.includes('high-impact') ? 1.5 : 1)] *)
Definition priority (f : Finding) : Q :=
  (confidence f * (if has_tag "high-impact" f then 3 # 2 else 1))%Q.

(** The score of the capability-backed pass, which also weighs
    ['quick-win']. *)
Definition priority_enhanced (f : Finding) : Q :=
  (confidence f * (if has_tag "high-impact" f then 3 # 2 else 1)
                * (if has_tag "quick-win" f then 13 # 10 else 1))%Q.

Definition synthesis_finding (context : OsintContext)
    (verified : list Finding) : Finding :=
  let automationScore := analyzeAutomationPotential context verified in
  {| title := "Overall Automation Opportunity Assessment";
     detail := generateSynthesis context verified automationScore;
     confidence := score_confidence automationScore;
     tags := ["synthesis"; "recommendation"; level automationScore];
     sources := [ {| source_title := "Comprehensive Analysis";
                     source_url := None;
                     source_date := Some today |} ];
     metadata := None |}.

Definition pinkoPass_fallback (context : OsintContext)
    (verified : list Finding) : list Finding :=
  JSArray.sort (fun a b => (priority b - priority a)%Q)
               (verified ++ [synthesis_finding context verified])%list.

Definition compare_enhanced (a b : Finding) : Q :=
  if has_tag "synthesis" a then (-1)%Q
  else if has_tag "synthesis" b then 1%Q
  else (priority_enhanced b - priority_enhanced a)%Q.

Definition pinkoPassEnhanced (context : OsintContext)
    (verified : list Finding) : outcome (list Finding) :=
  match analyzeContext context (synthesisPrompt context verified) with
  | Rejected e => Rejected e
  | Resolved synthesis =>
      let automationScore :=
        match scoreMatch synthesis with
        | Some digits => default 7%Z (JS.parseInt digits)
        | None => 7%Z
        end in
      let synthesisFinding :=
        {| title := "Comprehensive Automation Strategy";
           detail := synthesis;
           confidence := 9 # 10;
           tags := ["synthesis"; "recommendation"; "executive-summary"];
           sources := [ {| source_title := "AI Analysis Synthesis";
                           source_url := None;
                           source_date := Some today |} ];
           metadata := None |} in
      let prioritized :=
        JSArray.sort compare_enhanced (verified ++ [synthesisFinding])%list in
      Resolved (map (fun f => with_metadata f automationScore) prioritized)
  end.

Definition pinkoPass (context : OsintContext) (verified : list Finding)
  : outcome (list Finding) :=
  if llm_configured then
    match pinkoPassEnhanced context verified with
    | Resolved findings => Resolved findings
    | Rejected _ => Resolved (pinkoPass_fallback context verified)
    end
  else Resolved (pinkoPass_fallback context verified).

End Passes.

End Horsemen.

(* ===================================================================== *)
(** ** Orchestration ([services/research/engine.ts]) *)
(* ===================================================================== *)

Module Engine.
Import Horsemen.

Record ResearchRequest : Type := {
  keywords : option string;
  location : option string;
  req_companyName : option string;
  companyUrl : option string;
  notes : option string;
  clientId : option string;
  userId : option string
}.

Record JobPosting : Type := {
  posting_title : string;
  company : string;
  posting_url : option string;
  posting_location : option string;
  posting_date : option string;
  posting_source : option string
}.

Record CompanyFindings : Type := {
  cf_company : string;
  cf_jobs : list JobPosting;
  research : list Finding
}.

(** [Finding[] | CompanyFindings[]] *)
Inductive findings_list : Type :=
  | Findings (fs : list Finding)
  | Companies (cs : list CompanyFindings).

Record Meta : Type := {
  meta_keywords : option string;
  meta_location : option string;
  meta_notes : option string
}.

Record ResearchResult : Type := {
  jobId : string;
  model : string;
  summary : string;
  findings : findings_list;
  meta : Meta
}.

(** A research result is an object: truthy, and not a string. *)
#[export] Instance result_view : Cache.JSValue ResearchResult := Cache.ObjVal.

(** Truthiness of an optional string. *)
Definition given (v : option string) : bool :=
  match v with
  | Some s => JS.truthy s
  | None => false
  end.

Definition show_nat (n : nat) : string := JS.toString (Z.of_nat n).

Definition generateSummary (findings : list Finding) : string :=
  let highConfidence :=
    length (List.filter (fun f => Qle_bool (4 # 5) (confidence f)) findings) in
  let opportunities :=
    length (List.filter (fun f => has_tag "automation-opportunity" f
                                  || has_tag "high-impact" f) findings) in
  "Analysis complete: " +:+ show_nat (length findings) +:+ " findings ("
    +:+ show_nat highConfidence +:+ " high confidence). "
    +:+ show_nat opportunities +:+ " automation opportunities identified.".

(** [companiesMap]: postings grouped by company, companies in the order
    of their first posting. *)
Definition group_by_company (jobPostings : list JobPosting)
  : OrderedMap.t (list JobPosting) :=
  fold_left
    (fun companiesMap job =>
       let existing := default [] (OrderedMap.get (company job) companiesMap) in
       OrderedMap.set (company job) (existing ++ [job])%list companiesMap)
    jobPostings [].

(** [.sort(([, a], [, b]) => b.length - a.length).slice(0, 10)] *)
Definition top_companies (companiesMap : OrderedMap.t (list JobPosting))
  : list (string * list JobPosting) :=
  take 10
    (JSArray.sort
       (fun a b => inject_Z (Z.of_nat (length b.2) - Z.of_nat (length a.2)))
       (OrderedMap.entries companiesMap)).

Section Orchestrator.

(** The collaborators: the job-board search, the evidence collector and
    the first three passes of the pipeline. *)
Variable searchJobBoards : string -> option string -> outcome (list JobPosting).
Variable collectOsintContext : string -> string -> string -> outcome OsintContext.
Variable brodyPass karenPass durinPass : OsintContext -> outcome (list Finding).

(** [new URL(url).hostname], which throws on a malformed URL. *)
Variable URL_hostname : string -> outcome string.

Variable env_LLM_PROVIDER : option string.
Variable analyzeContext : OsintContext -> string -> outcome string.
Variable verifyPrompt : list Finding -> string.
Variable synthesisPrompt : OsintContext -> list Finding -> string.
Variable scoreMatch : string -> option string.
Variable today : string.

Variable env_ENABLE_CACHE : option string.
Context {S : Type} (cacheClient : Cache.CacheClient S ResearchResult).
Variable JSON_parse : string -> outcome (option ResearchResult).
Variable JSON_stringify : ResearchResult -> outcome string.

Local Abbreviation kevin :=
  (kevinPass env_LLM_PROVIDER analyzeContext verifyPrompt).
Local Abbreviation pinko :=
  (pinkoPass env_LLM_PROVIDER analyzeContext synthesisPrompt scoreMatch today).

(** The exported [cache], a [CacheService] with the default prefix. *)
Local Abbreviation cache_get :=
  (Cache.get env_ENABLE_CACHE cacheClient JSON_parse "cache").
Local Abbreviation cache_set :=
  (Cache.set env_ENABLE_CACHE cacheClient JSON_stringify "cache").

Definition runHorsemenAnalysis (context : OsintContext)
  : Async S (list Finding) :=
  await brody <- lift (brodyPass context);
  await karen <- lift (karenPass context);
  await durin <- lift (durinPass context);
  let preliminary := (brody ++ karen ++ durin)%list in
  await verified <- lift (kevin context preliminary);
  await findings <- lift (pinko context verified);
  ret findings.

Definition runDeepResearch (request : ResearchRequest)
  : Async S ResearchResult :=
  if negb (given (req_companyName request)) && negb (given (companyUrl request))
  then throw (ValidationError "Either companyName or companyUrl is required")
  else
    try_catch
      (await context <-
         lift (collectOsintContext
                 (JS.or_default (req_companyName request) "")
                 (JS.or_default (companyUrl request) "")
                 (JS.or_default (companyUrl request) ""));
       await findings <- runHorsemenAnalysis context;
       ret {| jobId := JS.or_default (clientId request) "anonymous";
              model := "horsemen";
              summary := generateSummary findings;
              findings := Findings findings;
              meta := {| meta_keywords := None; meta_location := None;
                         meta_notes := notes request |} |})
      (fun _ => throw (ExternalServiceError "Research Engine")).

(** [analysis.findings as Finding[]] *)
Definition as_findings (fl : findings_list) : list Finding :=
  match fl with
  | Findings fs => fs
  | Companies _ => []
  end.

(** The body of [for (const [company, jobs] of topCompanies)]; [findings]
    is the array the loop pushes onto. *)
Fixpoint analyze_companies (request_notes : option string)
    (topCompanies : list (string * list JobPosting))
    (findings : list CompanyFindings) : Async S (list CompanyFindings) :=
  match topCompanies with
  | [] => ret findings
  | (company, jobs) :: rest =>
      await companyUrl <-
        match jobs with
        | job :: _ =>
            if given (posting_url job)
            then (await host <-
                    lift (URL_hostname (default "" (posting_url job)));
                  ret (Some host))
            else ret None
        | [] => ret None
        end;
      await analysis <-
        runDeepResearch
          {| keywords := None; location := None;
             req_companyName := Some company;
             companyUrl := companyUrl;
             notes := Some (JS.or_default request_notes "" +:+ " Found "
                            +:+ show_nat (length jobs)
                            +:+ " relevant job postings");
             clientId := None; userId := None |};
      analyze_companies request_notes rest
        (findings ++ [ {| cf_company := company; cf_jobs := jobs;
                          research := as_findings (Engine.findings analysis) |} ])%list
  end.

Definition cacheKey (request : ResearchRequest) : JSON.value :=
  JSON.Obj [ ("keywords", JSON.Str <$> keywords request);
             ("location", JSON.Str <$> location request) ].

Definition searchOpportunities (request : ResearchRequest)
  : Async S ResearchResult :=
  if negb (given (keywords request))
  then throw (ValidationError "Keywords are required for opportunity search")
  else
    let cacheKey := cacheKey request in
    await cached <- cache_get "JOB_SEARCH" cacheKey;
    match cached with
    | Some hit => ret hit
    | None =>
        await jobPostings <-
          lift (searchJobBoards (default "" (keywords request))
                                (location request));
        let companiesMap := group_by_company jobPostings in
        let topCompanies := top_companies companiesMap in
        await findings <- analyze_companies (notes request) topCompanies [];
        let result :=
          {| jobId := JS.or_default (clientId request) "anonymous";
             model := "opportunity-search";
             summary :=
               "Found " +:+ show_nat (length jobPostings)
               +:+ " job postings across "
               +:+ show_nat (length companiesMap)
               +:+ " companies. Top " +:+ show_nat (length findings)
               +:+ " companies analyzed.";
             findings := Companies findings;
             meta := {| meta_keywords := keywords request;
                        meta_location := location request;
                        meta_notes := notes request |} |} in
        await_ cache_set "JOB_SEARCH" cacheKey result None;
        ret result
    end.

End Orchestrator.

End Engine.

(* ===================================================================== *)
(** ** The research endpoint ([app/api/research/route.ts]) *)
(* ===================================================================== *)

Module Route.
Import Horsemen Engine.

Inductive ResponseBody : Type :=
  | Success (data : ResearchResult)
  | Failure (message : string) (code : string).

Record Response : Type := {
  status : Z;
  body : ResponseBody
}.

(** [errorHandler] of [lib/errors.ts]. *)
Definition errorHandler (e : error) : Response :=
  match e with
  | ValidationError message =>
      {| status := 400; body := Failure message "VALIDATION_ERROR" |}
  | RateLimitError message _ =>
      {| status := 429; body := Failure message "RATE_LIMIT_EXCEEDED" |}
  | ExternalServiceError service =>
      {| status := 502;
         body := Failure ("External service error: " +:+ service)
                         "EXTERNAL_SERVICE_ERROR" |}
  | Error _ =>
      {| status := 500;
         body := Failure "Internal server error" "INTERNAL_ERROR" |}
  end.

(** Runs a computation on one component of a pair of states. *)
Definition on_fst {S1 S2 A} (m : Async S1 A) : Async (S1 * S2) A :=
  fun '(s1, s2) => let '(o, s1') := m s1 in (o, (s1', s2)).

Definition on_snd {S1 S2 A} (m : Async S2 A) : Async (S1 * S2) A :=
  fun '(s1, s2) => let '(o, s2') := m s2 in (o, (s1, s2')).

Section Handler.

Variable searchJobBoards : string -> option string -> outcome (list JobPosting).
Variable collectOsintContext : string -> string -> string -> outcome OsintContext.
Variable brodyPass karenPass durinPass : OsintContext -> outcome (list Finding).
Variable URL_hostname : string -> outcome string.
Variable env_LLM_PROVIDER : option string.
Variable analyzeContext : OsintContext -> string -> outcome string.
Variable verifyPrompt : list Finding -> string.
Variable synthesisPrompt : OsintContext -> list Finding -> string.
Variable scoreMatch : string -> option string.
Variable today : string.
Variable env_ENABLE_CACHE : option string.
Variable env_DAILY_RESEARCH_CAP_PER_TENANT : option string.
Variable env_MAX_CONCURRENT_RESEARCH_JOBS : option string.

Context {SR SC : Type}.
Variable rateLimiter : RateLimit.CounterStore SR.
Variable cacheClient : Cache.CacheClient SC ResearchResult.
Variable JSON_parse : string -> outcome (option ResearchResult).
Variable JSON_stringify : ResearchResult -> outcome string.

(** The format checks of the schema: [z.string().url()] and
    [z.string().uuid()]. *)
Variable is_url is_uuid : string -> bool.

Definition format_ok (check : string -> bool) (v : option string) : bool :=
  match v with
  | Some s => check s
  | None => true
  end.

(** [ResearchRequestSchema.safeParse(body).success] *)
Definition schema_accepts (data : ResearchRequest) : bool :=
  format_ok is_url (companyUrl data)
  && format_ok is_uuid (clientId data)
  && format_ok is_uuid (userId data)
  && ((given (keywords data) && negb (given (req_companyName data)))
      || (negb (given (keywords data))
          && (given (req_companyName data) || given (companyUrl data)))).

Local Abbreviation search :=
  (searchOpportunities searchJobBoards collectOsintContext
     brodyPass karenPass durinPass URL_hostname env_LLM_PROVIDER
     analyzeContext verifyPrompt synthesisPrompt scoreMatch today
     env_ENABLE_CACHE cacheClient JSON_parse JSON_stringify).
Local Abbreviation deep :=
  (runDeepResearch (S := SC) collectOsintContext brodyPass karenPass durinPass
     env_LLM_PROVIDER analyzeContext verifyPrompt synthesisPrompt
     scoreMatch today).
Local Abbreviation checkRateLimit :=
  (RateLimit.checkRateLimit env_DAILY_RESEARCH_CAP_PER_TENANT
     env_MAX_CONCURRENT_RESEARCH_JOBS rateLimiter today).

(** [json] is the result of [request.json()]. *)
Definition POST (json : outcome ResearchRequest)
  : Async (SR * SC) Response :=
  try_catch
    (await data <- lift json;
     if negb (schema_accepts data)
     then throw (ValidationError "Invalid request parameters")
     else
       let clientId := JS.or_default (clientId data) "anonymous" in
       await rateLimitOk <- on_fst (checkRateLimit clientId);
       if negb rateLimitOk
       then throw (RateLimitError
                     "Daily research limit exceeded. Please try again tomorrow."
                     86400)
       else
         await result <-
           (if given (keywords data)
               && negb (given (req_companyName data))
               && negb (given (companyUrl data))
            then on_snd (search data)
            else on_snd (deep data));
         ret {| status := 200; body := Success result |})
    (fun e => ret (errorHandler e)).

End Handler.

End Route.

(* ===================================================================== *)
(** ** Limiter status and housekeeping ([lib/rate-limit.ts],
       [lib/rate-limit/memory-rate-limit.ts]) *)
(* ===================================================================== *)

Module RateLimitStatus.
Import RateLimit.

(** [a - b] and [Math.max(0, x)] on numbers that may be [NaN]. *)
Definition sub (a b : JS.num) : JS.num :=
  match a, b with
  | Some x, Some y => Some (x - y)
  | _, _ => None
  end.

Definition max0 (x : JS.num) : JS.num :=
  match x with
  | Some v => Some (Z.max 0 v)
  | None => None
  end.

Record Status : Type := {
  dailyUsed : JS.num;
  dailyLimit : JS.num;
  dailyRemaining : JS.num;
  concurrentUsed : JS.num;
  concurrentLimit : JS.num;
  resetAt : string
}.

(** [MemoryRateLimiter.flushAll] *)
Definition flushAll : Async MemoryRateLimiter unit :=
  fun _ => (Resolved tt, empty_limiter).

(** The in-process limiter holds no counter below one. *)
Definition positive_counters (m : MemoryRateLimiter) : Prop :=
  forall key v, counters m !! key = Some v -> 1 <= v.

Section Status.

Variable env_DAILY_RESEARCH_CAP_PER_TENANT : option string.
Variable env_MAX_CONCURRENT_RESEARCH_JOBS : option string.
Context {St : Type} (rateLimiter : CounterStore St).

(** [Promise.all([p, q])]: both computations have been started, in this
    order, before either is awaited; the first rejection wins. *)
Definition both {A B} (p : Async St A) (q : Async St B) : Async St (A * B) :=
  fun s =>
    let '(a, s1) := p s in
    let '(b, s2) := q s1 in
    match a, b with
    | Resolved x, Resolved y => (Resolved (x, y), s2)
    | Rejected e, _ => (Rejected e, s2)
    | _, Rejected e => (Rejected e, s2)
    end.

(** [rateLimiter.get(key).then(val => parseInt(val || '0'))] *)
Definition read_count (key : string) : Async St JS.num :=
  await val <- get rateLimiter key;
  ret (JS.parseInt (JS.or_default val "0")).

(** [resetAt] is the ISO rendering of the next local midnight. *)
Definition getRateLimitStatus (today resetAt clientId : string)
  : Async St Status :=
  let dailyKey := dailyKey clientId today in
  let concurrentKey := concurrentKey clientId in
  await counts <- both (read_count dailyKey) (read_count concurrentKey);
  let '(dailyUsed, concurrentUsed) := counts in
  let DAILY_LIMIT := DAILY_LIMIT env_DAILY_RESEARCH_CAP_PER_TENANT in
  ret {| dailyUsed := dailyUsed;
         dailyLimit := DAILY_LIMIT;
         dailyRemaining := max0 (sub DAILY_LIMIT dailyUsed);
         concurrentUsed := concurrentUsed;
         concurrentLimit := CONCURRENT_LIMIT env_MAX_CONCURRENT_RESEARCH_JOBS;
         resetAt := resetAt |}.


End Status.

End RateLimitStatus.

(* ===================================================================== *)
(** ** The caching decorator and cache housekeeping ([lib/cache.ts],
       [lib/cache/memory-cache.ts]) *)
(* ===================================================================== *)

Module CacheDecorator.
Import Cache.

(** [MemoryCache.flushAll] *)
Definition mc_flushAll {V} : Async (MemoryCache V) unit :=
  fun m => (Resolved tt, {| now := now m; cache := ∅; timers := ∅ |}).

(** Every entry of the in-process cache has an expiry that is a number,
    and a cleanup timer due at that time. *)
Definition well_timed {V} (m : MemoryCache V) : Prop :=
  forall key value expiry,
    cache m !! key = Some (value, expiry) ->
    exists due, expiry = Some due /\ timers m !! key = Some due.

(** The method name and the arguments of a call, as the decorator puts
    them together: [{ method: propertyKey, args }]. *)
Definition keyData (propertyKey : string) (args : list JSON.value)
  : JSON.value :=
  JSON.Obj [("method", Some (JSON.Str propertyKey));
            ("args", Some (JSON.Arr (map Some args)))].

Section Decorator.

Variable env_ENABLE_CACHE : option string.
Context {S V : Type} (cacheClient : CacheClient S V).
Variable JSON_parse : string -> outcome (option V).
Variable JSON_stringify : V -> outcome string.

(** The method that [Cacheable(namespace, ttl)] puts in the place of
    [originalMethod]; the shared [cache] service has the prefix
    ["cache"]. *)
Definition Cacheable (namespace : string) (ttl : option Z)
    (propertyKey : string)
    (originalMethod : list JSON.value -> Async S V)
    (args : list JSON.value) : Async S V :=
  let keyData := keyData propertyKey args in
  await cached <- get env_ENABLE_CACHE cacheClient JSON_parse "cache"
                    namespace keyData;
  match cached with
  | Some hit => ret hit
  | None =>
      await result <- originalMethod args;
      await_ set env_ENABLE_CACHE cacheClient JSON_stringify "cache"
               namespace keyData result ttl;
      ret result
  end.

End Decorator.

End CacheDecorator.

(* ===================================================================== *)
(** ** Merging the job-board results ([services/research/job-boards.ts]) *)
(* ===================================================================== *)

Module JobBoards.
Import Engine.

(** [`${job.title.toLowerCase()}-${job.company.toLowerCase()}`] *)
Definition job_key (job : JobPosting) : string :=
  JSString.toLowerCase (posting_title job) +:+ "-"
    +:+ JSString.toLowerCase (company job).

(** One round of the [forEach] of [deduplicateJobs], on the set [seen]
    and the array [unique]. *)
Definition note_job (state : gset string * list JobPosting) (job : JobPosting)
  : gset string * list JobPosting :=
  let '(seen, unique) := state in
  let key := job_key job in
  if decide (key ∈ seen) then (seen, unique)
  else ({[ key ]} ∪ seen, (unique ++ [job])%list).

Definition deduplicateJobs (jobs : list JobPosting) : list JobPosting :=
  (fold_left note_job jobs (∅, [])).2.

Definition highValueTerms : list string :=
  ["data entry"; "manual"; "repetitive"; "coordinator"; "specialist"].

Definition calculateRelevanceScore (job : JobPosting) (keywords : list string)
  : Z :=
  let title := JSString.toLowerCase (posting_title job) in
  let location :=
    JSString.toLowerCase (JS.or_default (posting_location job) "") in
  let score :=
    fold_left
      (fun score keyword =>
         let score := if JSString.includes title keyword then score + 2
                      else score in
         if JSString.includes location keyword then score + 1 else score)
      keywords 0 in
  fold_left
    (fun score term =>
       if JSString.includes title term then score + 1 else score)
    highValueTerms score.

End JobBoards.

(* ===================================================================== *)
(** ** The rule-based analyzers of the first pass
       ([horsemen/analyzers/job-postings.ts],
        [horsemen/analyzers/tech-stack.ts]) *)
(* ===================================================================== *)

Module Analyzers.
Import Horsemen.

Definition AUTOMATION_KEYWORDS : list string :=
  [ "data entry"; "manual process"; "repetitive"; "excel"; "spreadsheet";
    "coordinate"; "schedule"; "track"; "monitor"; "report"; "analyze";
    "customer service"; "support tickets"; "inventory"; "compliance";
    "documentation"; "filing"; "processing"; "reconciliation" ].

Definition HIGH_VOLUME_INDICATORS : list string :=
  [ "high volume"; "fast-paced"; "multiple"; "numerous"; "heavy";
    "extensive"; "large amount"; "significant" ].

(** The categories of [categorizeRole], in the order in which
    [Object.entries] lists them. *)
Definition role_categories : list (string * list string) :=
  [ ("Operations",
     ["operations"; "coordinator"; "specialist"; "analyst"; "manager"]);
    ("Customer Service",
     ["customer"; "support"; "service"; "success"; "representative"]);
    ("Data/Analytics",
     ["data"; "analyst"; "analytics"; "reporting"; "insights"]);
    ("Administrative",
     ["admin"; "assistant"; "clerk"; "office"; "receptionist"]);
    ("Sales",
     ["sales"; "account"; "business development"; "bd "; "bdr"; "sdr"]);
    ("Technical",
     ["engineer"; "developer"; "technical"; "it "; "software"]);
    ("Finance",
     ["finance"; "accounting"; "bookkeeper"; "controller"; "payroll"]);
    ("HR",
     ["hr "; "human resources"; "recruiter"; "talent"; "people"]) ].

(** The first category one of whose keywords the text contains. *)
Definition first_category (categories : list (string * list string))
    (text : string) : option string :=
  fst <$> List.find
            (fun entry => existsb (JSString.includes text) entry.2)
            categories.

Definition categorizeRole (title : string) : string :=
  default "Other" (first_category role_categories title).

(** What the [forEach] over the postings builds up. *)
Record JobScan : Type := {
  scan_findings : list Finding;
  automationOpportunities : list string;
  roles : OrderedMap.t Z
}.

Definition scan_job (scan : JobScan) (job : JobItem) : JobScan :=
  let titleLower := JSString.toLowerCase (job_title job) in
  let textLower := JSString.toLowerCase (JS.or_default (job_text job) "") in
  let combined := titleLower +:+ " " +:+ textLower in
  let roleType := categorizeRole titleLower in
  let roles :=
    OrderedMap.set roleType
      (default 0 (OrderedMap.get roleType (roles scan)) + 1) (roles scan) in
  let matchedKeywords :=
    List.filter (JSString.includes combined) AUTOMATION_KEYWORDS in
  let matched := nonempty matchedKeywords in
  let automationOpportunities :=
    if matched
    then (automationOpportunities scan
            ++ [job_title job +:+ ": " +:+ JSArray.join ", " matchedKeywords])%list
    else automationOpportunities scan in
  let hasHighVolume :=
    existsb (JSString.includes combined) HIGH_VOLUME_INDICATORS in
  let findings :=
    if hasHighVolume && matched
    then (scan_findings scan
            ++ [ {| title := "High-Volume " +:+ roleType +:+ " Role Identified";
                    detail := job_title job +:+ " indicates high-volume "
                              +:+ JSArray.join ", " matchedKeywords
                              +:+ " tasks. Prime candidate for automation.";
                    confidence := 17 # 20;
                    tags := ["automation-opportunity"; "high-impact";
                             "job-posting"];
                    sources := [ {| source_title := job_title job;
                                    source_url := job_url job;
                                    source_date := None |} ];
                    metadata := None |} ])%list
    else scan_findings scan in
  {| scan_findings := findings;
     automationOpportunities := automationOpportunities;
     roles := roles |}.

Definition analyzeJobPostings (today : string) (context : OsintContext)
  : list Finding :=
  match jobs context with
  | [] => []
  | _ =>
      let scan :=
        fold_left scan_job (jobs context)
          {| scan_findings := []; automationOpportunities := [];
             roles := [] |} in
      let opportunities := automationOpportunities scan in
      let findings :=
        if nonempty opportunities
        then (scan_findings scan
                ++ [ {| title := "Multiple Automation Opportunities in Job Postings";
                        detail :=
                          "Found " +:+ Engine.show_nat (length opportunities)
                          +:+ " roles with automation potential: "
                          +:+ JSArray.join "; " (take 3 opportunities)
                          +:+ (if (3 <? length opportunities)%nat then "..."
                               else "");
                        confidence := 4 # 5;
                        tags := ["automation-opportunity"; "job-analysis"];
                        sources :=
                          map (fun j => {| source_title := job_title j;
                                           source_url := job_url j;
                                           source_date := None |})
                              (take 5 (jobs context));
                        metadata := None |} ])%list
        else scan_findings scan in
      let topRoles :=
        take 3 (JSArray.sort (fun a b => inject_Z (b.2 - a.2))
                             (OrderedMap.entries (roles scan))) in
      if nonempty topRoles
      then (findings
              ++ [ {| title := "Hiring Pattern Analysis";
                      detail :=
                        "Primary hiring focus: "
                        +:+ JSArray.join ", "
                              (map (fun entry => entry.1 +:+ " ("
                                                 +:+ JS.toString entry.2 +:+ ")")
                                   topRoles)
                        +:+ ". Total open positions: "
                        +:+ Engine.show_nat (length (jobs context));
                      confidence := 9 # 10;
                      tags := ["hiring-patterns"; "growth"];
                      sources := [ {| source_title := "Job Postings Analysis";
                                      source_url := None;
                                      source_date := Some today |} ];
                      metadata := None |} ])%list
      else findings
  end.

Definition LEGACY_INDICATORS : list string :=
  [ "excel"; "access"; "vba"; "sharepoint"; "on-premise"; "legacy";
    "manual"; "paper-based"; "fax"; "phone-based" ].

Definition MODERN_INDICATORS : list string :=
  [ "cloud"; "saas"; "api"; "automation"; "ai"; "machine learning";
    "analytics"; "dashboard"; "real-time"; "integration" ].

Definition tech_categories : list (string * list string) :=
  [ ("Analytics", ["analytics"; "tableau"; "powerbi"; "looker"; "datadog"]);
    ("Cloud", ["aws"; "azure"; "gcp"; "cloud"]);
    ("Communication", ["slack"; "teams"; "zoom"; "email"]);
    ("CRM", ["salesforce"; "hubspot"; "pipedrive"; "zoho"]);
    ("Development", ["github"; "gitlab"; "jira"; "jenkins"]);
    ("Marketing", ["marketo"; "mailchimp"; "hootsuite"; "buffer"]);
    ("Productivity", ["office"; "gsuite"; "notion"; "asana"; "monday"]) ].

(** [(tech.name || tech.product || '').toLowerCase()] *)
Definition tech_name (t : TechSignal) : string :=
  JSString.toLowerCase (tech_label t).

(** One round of the [forEach] that fills [techByCategory]. *)
Definition file_tech (techByCategory : OrderedMap.t (list string))
    (t : TechSignal) : OrderedMap.t (list string) :=
  match first_category tech_categories (tech_name t) with
  | Some category =>
      OrderedMap.set category
        (default [] (OrderedMap.get category techByCategory)
           ++ [tech_label t])%list
        techByCategory
  | None => techByCategory
  end.

(** [techByCategory.has(cat)] *)
Definition has_category (techByCategory : OrderedMap.t (list string))
    (category : string) : bool :=
  match OrderedMap.get category techByCategory with
  | Some _ => true
  | None => false
  end.

Definition stack_source (context : OsintContext) : Source :=
  {| source_title := "Technology Stack";
     source_url := Some ("https://stackshare.io/companies/"
                         +:+ companyName context);
     source_date := None |}.

Definition analyzeTechStack (today : string) (context : OsintContext)
  : list Finding :=
  match tech context with
  | [] =>
      [ {| title := "Limited Technology Visibility";
           detail := "No modern tech stack detected. May indicate reliance on legacy systems or manual processes.";
           confidence := 3 # 5;
           tags := ["tech-gap"; "automation-opportunity"];
           sources := [ {| source_title := "Tech Stack Analysis";
                           source_url := None;
                           source_date := Some today |} ];
           metadata := None |} ]
  | _ =>
      let techByCategory := fold_left file_tech (tech context) [] in
      let hasModernTools :=
        existsb (fun t => existsb (JSString.includes (tech_name t))
                                  MODERN_INDICATORS) (tech context) in
      let hasLegacyTools :=
        existsb (fun t => existsb (JSString.includes (tech_name t))
                                  LEGACY_INDICATORS) (tech context) in
      let legacy :=
        if hasLegacyTools
        then [ {| title := "Legacy Systems Detected";
                  detail := "Presence of legacy tools indicates opportunities for modernization and automation.";
                  confidence := 4 # 5;
                  tags := ["legacy-tech"; "automation-opportunity";
                           "high-impact"];
                  sources := [stack_source context];
                  metadata := None |} ]
        else [] in
      let modern :=
        if hasModernTools && negb hasLegacyTools
        then [ {| title := "Modern Tech Stack";
                  detail := "Company uses modern tools, indicating openness to technology adoption and integration.";
                  confidence := 17 # 20;
                  tags := ["modern-tech"; "tech-forward"];
                  sources := [stack_source context];
                  metadata := None |} ]
        else [] in
      let missingCategories :=
        List.filter (fun cat => negb (has_category techByCategory cat))
                    ["Analytics"; "Automation"; "Integration"] in
      let gaps :=
        if nonempty missingCategories
        then [ {| title := "Technology Gaps Identified";
                  detail := "Missing capabilities in: "
                            +:+ JSArray.join ", " missingCategories
                            +:+ ". These represent automation opportunities.";
                  confidence := 3 # 4;
                  tags := ["tech-gap"; "automation-opportunity"];
                  sources := [ {| source_title := "Gap Analysis";
                                  source_url := None;
                                  source_date := Some today |} ];
                  metadata := None |} ]
        else [] in
      let diverse :=
        if (4 <=? length techByCategory)%nat
        then [ {| title := "Diverse Technology Adoption";
                  detail := "Uses tools across "
                            +:+ Engine.show_nat (length techByCategory)
                            +:+ " categories: "
                            +:+ JSArray.join ", " (map fst techByCategory);
                  confidence := 9 # 10;
                  tags := ["tech-adoption"; "tech-forward"];
                  sources :=
                    map (fun t =>
                           {| source_title :=
                                JS.or_default (name t)
                                  (JS.or_default (product t) "Unknown Tool");
                              source_url := None;
                              source_date := None |})
                        (take 5 (tech context));
                  metadata := None |} ]
        else [] in
      (legacy ++ modern ++ gaps ++ diverse)%list
  end.

End Analyzers.

(* ===================================================================== *)
(** ** A fixture: stub collaborators in the manner of the test suites *)
(* ===================================================================== *)

Module Fixture.
Import Horsemen Engine.

Definition posting (title company : string) : JobPosting :=
  {| posting_title := title; company := company; posting_url := None;
     posting_location := None; posting_date := None; posting_source := None |}.

(** Three postings of one company and two of another. *)
Definition jobPostings : list JobPosting :=
  [ posting "Data Entry Clerk" "Success Corp";
    posting "Invoice Processor" "Fail Corp";
    posting "Data Entry Specialist" "Success Corp";
    posting "Accounts Payable Clerk" "Fail Corp";
    posting "Records Clerk" "Success Corp" ].

Definition searchJobBoards (_ : string) (_ : option string)
  : outcome (list JobPosting) := Resolved jobPostings.

Definition context_of (name domain homepageUrl : string) : OsintContext :=
  {| companyName := name; domain := domain; homepageUrl := homepageUrl;
     news := []; jobs := []; tech := []; procurement := [] |}.

(** Evidence collection that succeeds for every company. *)
Definition collect_ok (name domain homepageUrl : string)
  : outcome OsintContext := Resolved (context_of name domain homepageUrl).

(** Evidence collection that fails for one company of the batch. *)
Definition collect_one_fails (name domain homepageUrl : string)
  : outcome OsintContext :=
  if String.eqb name "Fail Corp" then Rejected (Error "OSINT API failure")
  else Resolved (context_of name domain homepageUrl).

Definition manual_entry : Finding :=
  {| title := "Manual data entry roles";
     detail := "High volume of manual data entry";
     confidence := 4 # 5;
     tags := ["automation-opportunity"];
     sources := [ {| source_title := "Data Entry Clerk";
                     source_url := None; source_date := None |} ];
     metadata := None |}.

Definition brodyPass (_ : OsintContext) : outcome (list Finding) :=
  Resolved [manual_entry].

Definition no_findings (_ : OsintContext) : outcome (list Finding) :=
  Resolved [].

Definition URL_hostname (url : string) : outcome string := Resolved url.

Definition no_llm (_ : OsintContext) (_ : string) : outcome string :=
  Rejected (Error "LLM provider is not configured").

Definition today : string := "2024-01-15".

Definition JSON_parse (_ : string) : outcome (option ResearchResult) :=
  Resolved None.

Definition JSON_stringify (_ : ResearchResult) : outcome string :=
  Resolved "{}".

(** [searchOpportunities] over the in-process cache, with the cache
    enabled and no language model configured. *)
Definition search
    (collect : string -> string -> string -> outcome OsintContext)
  : ResearchRequest -> Async (Cache.MemoryCache ResearchResult) ResearchResult :=
  searchOpportunities searchJobBoards collect brodyPass no_findings no_findings
    URL_hostname None no_llm (fun _ => "") (fun _ _ => "") (fun _ => None)
    today None Cache.memoryClient JSON_parse JSON_stringify.

(** A backend whose reads fail while its writes work: the in-process
    cache behind a connection that drops every [get]. *)
Definition reads_fail : Cache.CacheClient (Cache.MemoryCache Z) Z := {|
  Cache.instanceofRedis := false;
  Cache.c_get := fun _ => throw (Error "read ECONNRESET");
  Cache.c_setex :=
    fun _ _ _ => throw (Error "cacheClient.setex is not a function");
  Cache.c_set := Cache.mc_set;
  Cache.c_del := Cache.mc_del
|}.

Definition keyword_request (client : option string) : ResearchRequest :=
  {| keywords := Some "data entry"; location := Some "New York";
     req_companyName := None; companyUrl := None; notes := None;
     clientId := client; userId := None |}.

(** The research endpoint over the in-process limiter, with its commands
    recorded, and the in-process cache. *)
Definition POST (collect : string -> string -> string -> outcome OsintContext)
  : outcome ResearchRequest ->
    Async ((RateLimit.MemoryRateLimiter * list RateLimit.event)
           * Cache.MemoryCache ResearchResult) Route.Response :=
  Route.POST searchJobBoards collect brodyPass no_findings no_findings
    URL_hostname None no_llm (fun _ => "") (fun _ _ => "") (fun _ => None)
    today None None None (RateLimit.logged RateLimit.memoryStore)
    Cache.memoryClient JSON_parse JSON_stringify
    (fun _ => true) (fun _ => true).

Definition fresh
  : (RateLimit.MemoryRateLimiter * list RateLimit.event)
    * Cache.MemoryCache ResearchResult :=
  ((RateLimit.empty_limiter, []), Cache.empty_cache 0).

Definition query_ab : JSON.value :=
  JSON.Obj [ ("keywords", Some (JSON.Str "data entry"));
             ("location", Some (JSON.Str "New York")) ].

Definition query_ba : JSON.value :=
  JSON.Obj [ ("location", Some (JSON.Str "New York"));
             ("keywords", Some (JSON.Str "data entry")) ].

(** Two tenants asking the same question. *)
Definition tenant_a : ResearchRequest :=
  keyword_request (Some "550e8400-e29b-41d4-a716-446655440000").

Definition tenant_b : ResearchRequest :=
  keyword_request (Some "550e8400-e29b-41d4-a716-446655440001").

(** What the first tenant's search returns and the cache it leaves. *)
Definition first_run :=
  search collect_ok tenant_a (Cache.empty_cache 0).

Definition first_result : ResearchResult :=
  match first_run.1 with
  | Resolved r => r
  | Rejected _ =>
      {| jobId := ""; model := ""; summary := ""; findings := Findings [];
         meta := {| meta_keywords := None; meta_location := None;
                    meta_notes := None |} |}
  end.

Definition source (title : string) : Source :=
  {| source_title := title; source_url := None; source_date := None |}.

(** Two findings with one title and the same two tags, listed in a
    different order. *)
Definition invoices_ab : Finding :=
  {| title := "Manual invoice processing";
     detail := "Invoices are keyed in by hand";
     confidence := 3 # 5;
     tags := ["automation-opportunity"; "high-impact"];
     sources := [source "Accounts Payable Clerk"];
     metadata := None |}.

Definition invoices_ba : Finding :=
  {| title := "Manual invoice processing";
     detail := "Invoice handling is a manual process";
     confidence := 9 # 10;
     tags := ["high-impact"; "automation-opportunity"];
     sources := [source "Invoice Processor"];
     metadata := None |}.

Definition answering_llm (_ : OsintContext) (_ : string) : outcome string :=
  Resolved "Automation score: 8".

Definition acme : OsintContext := context_of "Acme" "acme.test" "acme.test".

Definition titles (o : outcome (list Finding)) : list string :=
  match o with
  | Resolved fs => map title fs
  | Rejected _ => []
  end.

(** The scenario of the integration suite: a daily cap of 2 and a
    concurrency cap of 1. *)
Definition scenario : Async RateLimit.MemoryRateLimiter (list bool) :=
  let check :=
    RateLimit.checkRateLimit (Some "2") (Some "1") RateLimit.memoryStore
      "2024-01-15" in
  let inc := RateLimit.incrementConcurrent RateLimit.memoryStore in
  let dec := RateLimit.decrementConcurrent RateLimit.memoryStore in
  await r1 <- check "t1";
  await_ inc "t1";
  await r2 <- check "t1";
  await_ dec "t1";
  await r3 <- check "t1";
  await_ inc "t1";
  await_ dec "t1";
  await r4 <- check "t1";
  ret [r1; r2; r3; r4].

End Fixture.

(* ===================================================================== *)
(** * Properties *)
(* ===================================================================== *)

Example parseInt_50 : JS.parseInt "50" = Some 50.
Proof. reflexivity. Qed.
Example parseInt_junk : JS.parseInt "abc" = None.
Proof. reflexivity. Qed.
Example parseInt_prefix : JS.parseInt "  -12px" = Some (-12).
Proof. reflexivity. Qed.
Example parseInt_hex : JS.parseInt "0x1f" = Some 31.
Proof. reflexivity. Qed.
Example toString_1024 : JS.toString 1024 = "1024".
Proof. reflexivity. Qed.
Example toString_0 : JS.toString 0 = "0".
Proof. reflexivity. Qed.
Example toString_neg : JS.toString (-907) = "-907".
Proof. reflexivity. Qed.

Module JSFacts.

Lemma digit_cases d :
  0 <= d < 10 ->
  d = 0 \/ d = 1 \/ d = 2 \/ d = 3 \/ d = 4 \/
  d = 5 \/ d = 6 \/ d = 7 \/ d = 8 \/ d = 9.
Proof. lia. Qed.

(** Runs [tac] for each of the ten values of the digit bounded by [H]. *)
Ltac each_digit H tac :=
  apply digit_cases in H;
  repeat (destruct H as [H | H]; [rewrite H; tac|]);
  rewrite H; tac.

Lemma digit_value_digit_char d :
  0 <= d < 10 -> JS.digit_value 10 (JS.digit_char d) = Some d.
Proof. intros Hd. each_digit Hd ltac:(reflexivity). Qed.

(** Reading back the digits that [digits_pos] writes: they extend the
    number read so far by [n]. *)
Lemma parse_digits_pos fuel : forall n acc,
  (0 < fuel)%nat -> 0 <= n < 10 ^ Z.of_nat fuel ->
  exists k, 0 < k /\ forall a,
    JS.parse_digits 10 a (JS.digits_pos fuel n acc)
    = JS.parse_digits 10 (Some (default 0 a * 10 ^ k + n)) acc.
Proof.
  induction fuel as [|fuel IH]; intros n acc Hfuel Hn; [lia|].
  cbn [JS.digits_pos].
  destruct (Z.ltb_spec n 10) as [Hsmall|Hbig].
  - exists 1. split; [lia|]. intros a. cbn [JS.parse_digits].
    rewrite Z.mod_small by lia.
    rewrite digit_value_digit_char by lia. by rewrite Z.pow_1_r.
  - assert (Hfuel' : (0 < fuel)%nat).
    { destruct fuel; [|lia]. cbn in Hn. lia. }
    destruct (IH (n / 10) (String (JS.digit_char (n mod 10)) acc) Hfuel')
      as (k & Hk & Hparse).
    { split; [apply Z.div_pos; lia|].
      apply Z.div_lt_upper_bound; [lia|].
      rewrite Nat2Z.inj_succ, Z.pow_succ_r in Hn by lia. lia. }
    exists (k + 1). split; [lia|]. intros a.
    rewrite Hparse. cbn [JS.parse_digits].
    rewrite digit_value_digit_char by (apply Z.mod_pos_bound; lia).
    f_equal. f_equal. cbn [default]. unfold id.
    rewrite Z.pow_add_r, Z.pow_1_r by lia.
    pose proof (Z.div_mod n 10 ltac:(lia)). lia.
Qed.

(** The first characters of a decimal rendering are digits. *)
Lemma digits_pos_head fuel : forall n acc,
  (0 < fuel)%nat -> 0 <= n ->
  exists d rest,
    0 <= d < 10 /\
    JS.digits_pos fuel n acc = String (JS.digit_char d) rest /\
    (rest = acc \/
     exists d' rest', 0 <= d' < 10 /\ rest = String (JS.digit_char d') rest').
Proof.
  induction fuel as [|fuel IH]; intros n acc Hfuel Hn; [lia|].
  cbn [JS.digits_pos].
  assert (Hm : 0 <= n mod 10 < 10) by (apply Z.mod_pos_bound; lia).
  destruct (n <? 10); [by eauto 10|].
  destruct fuel as [|fuel]; [cbn; by eauto 10|].
  destruct (IH (n / 10) (String (JS.digit_char (n mod 10)) acc))
    as (d & rest & Hd & Heq & Hrest); [lia | apply Z.div_pos; lia |].
  exists d, rest. split; [done|]. split; [done|].
  right. destruct Hrest as [->|Hrest]; [by eauto|done].
Qed.

Lemma fuel_suffices n :
  0 <= n -> n < 10 ^ Z.of_nat (Z.to_nat (Z.log2 n) + 1).
Proof.
  intros Hn.
  rewrite Nat2Z.inj_add, Z2Nat.id by apply Z.log2_nonneg.
  destruct (Z.eq_dec n 0) as [->|Hpos]; [done|].
  pose proof (Z.log2_spec n ltac:(lia)) as [_ Hlt].
  eapply Z.lt_le_trans; [exact Hlt|].
  rewrite <- Z.add_1_r.
  apply Z.pow_le_mono_l. pose proof (Z.log2_nonneg n). lia.
Qed.

(** The decimal rendering of a non-negative integer starts with no white
    space, no sign and no hexadecimal prefix, and reads back as the
    integer. *)
Lemma parse_rendering n :
  0 <= n ->
  let s := JS.digits_pos (Z.to_nat (Z.log2 n) + 1) n "" in
  JS.skip_whitespace s = s /\
  JS.strip_hex_prefix s = None /\
  JS.parse_digits 10 None s = Some n /\
  (forall rest, s <> String "-" rest) /\
  (forall rest, s <> String "+" rest).
Proof.
  intros Hn s.
  destruct (parse_digits_pos (Z.to_nat (Z.log2 n) + 1) n "")
    as (k & Hk & Hparse); [lia | split; [lia | by apply fuel_suffices] |].
  destruct (digits_pos_head (Z.to_nat (Z.log2 n) + 1) n "")
    as (d & rest & Hd & Heq & Hrest); [lia | lia |].
  fold s in Hparse, Heq. clearbody s.
  rewrite Heq in *. clear Heq.
  split; [|split; [|split; [|split]]].
  - each_digit Hd ltac:(reflexivity).
  - destruct Hrest as [->|(d' & rest' & Hd' & ->)].
    + each_digit Hd ltac:(reflexivity).
    + each_digit Hd ltac:(each_digit Hd' ltac:(reflexivity)).
  - rewrite Hparse. cbn [default JS.parse_digits]. f_equal; unfold id; lia.
  - intros r. each_digit Hd ltac:(discriminate).
  - intros r. each_digit Hd ltac:(discriminate).
Qed.

(** [parseInt(n.toString())] is [n], for every integer [n]. *)
Lemma parseInt_toString (n : Z) : JS.parseInt (JS.toString n) = Some n.
Proof.
  unfold JS.toString.
  destruct (Z.ltb_spec n 0) as [Hneg|Hpos].
  - destruct (parse_rendering (- n) ltac:(lia)) as (_ & Hhex & Hp & _ & _).
    unfold JS.parseInt. cbn [JS.skip_whitespace].
    change (JS.is_whitespace "-") with false. cbv iota beta.
    rewrite Hhex, Hp. f_equal. lia.
  - destruct (parse_rendering n Hpos) as (Hws & Hhex & Hp & Hminus & Hplus).
    unfold JS.parseInt. rewrite Hws.
    set (s := JS.digits_pos _ n "") in *.
    destruct s as [|c rest] eqn:Es.
    + cbn in Hp. discriminate.
    + assert (Hsign : (match String c rest with
                       | String "-" r => (-1, r)
                       | String "+" r => (1, r)
                       | _ => (1, String c rest)
                       end) = (1, String c rest)).
      { destruct c as [[] [] [] [] [] [] [] []]; try reflexivity.
        - exfalso. exact (Hplus rest eq_refl).
        - exfalso. exact (Hminus rest eq_refl). }
      rewrite Hsign. rewrite Hhex, Hp. f_equal. lia.
Qed.

End JSFacts.

Module RateLimitFacts.
Import RateLimit.

#[local] Arguments JS.gt : simpl never.
#[local] Arguments JS.ge : simpl never.
#[local] Arguments at_concurrent_limit : simpl never.


(** Case analysis on the answers of the store [st], in program order. *)
Ltac run_store st :=
  repeat (cbn;
    match goal with
    | |- context [incr st ?k ?s] => destruct (incr st k s) as [[?|?] ?] eqn:?
    | |- context [expire st ?k ?n ?s] =>
        destruct (expire st k n s) as [[[]|?] ?] eqn:?
    | |- context [decr st ?k ?s] => destruct (decr st k s) as [[?|?] ?] eqn:?
    | |- context [get st ?k ?s] => destruct (get st k s) as [[?|?] ?] eqn:?
    | |- context [if ?b then _ else _] => destruct b eqn:?
    end); cbn; try done.

Section Checks.

Variable envD envC : option string.
Context {S : Type} (st : CounterStore S).

Local Abbreviation check := (checkRateLimit envD envC).

(** Recording the commands does not change what the limiter answers nor
    the state the store ends in. *)
Lemma checkRateLimit_logged today clientId s log0 :
  (check (logged st) today clientId (s, log0)).1
    = (check st today clientId s).1 /\
  (check (logged st) today clientId (s, log0)).2.1
    = (check st today clientId s).2.
Proof.
  unfold checkRateLimit, checkRateLimit_body, try_catch, bind, ret, record; cbn.
  run_store st.
Qed.


(** C2. Whenever a command sent to the counter store during
    [checkRateLimit] rejects, the check resolves to [true]: the error is
    neither propagated nor turned into a refusal. *)
Theorem checkRateLimit_fails_open today clientId s :
  existsb event_rejected (check (logged st) today clientId (s, [])).2.2 = true ->
  (check (logged st) today clientId (s, [])).1 = Resolved true /\
  (check st today clientId s).1 = Resolved true.
Proof.
  rewrite <- (proj1 (checkRateLimit_logged today clientId s [])).
  unfold checkRateLimit, checkRateLimit_body, try_catch, bind, ret, record;
    cbn.
  run_store st.
Qed.

Lemma dailyKey_not_concurrent clientId today clientId' :
  dailyKey clientId today <> concurrentKey clientId'.
Proof. unfold dailyKey, concurrentKey. cbn. discriminate. Qed.

(** The check only reads the concurrency counter. *)
Lemma checkRateLimit_takes_no_slot today clientId s :
  Forall (fun ev => ~ slot_command ev)
         (check (logged st) today clientId (s, [])).2.2.
Proof.
  assert (Hi : forall a, ~ slot_command (EIncr (dailyKey clientId today) a)).
  { intros a (c & b & [H|H]); [|discriminate H].
    apply (f_equal event_key) in H.
    change (dailyKey clientId today = concurrentKey c) in H.
    by apply dailyKey_not_concurrent in H. }
  assert (Hd : forall a, ~ slot_command (EDecr (dailyKey clientId today) a)).
  { intros a (c & b & [H|H]); [discriminate H|].
    apply (f_equal event_key) in H.
    change (dailyKey clientId today = concurrentKey c) in H.
    by apply dailyKey_not_concurrent in H. }
  assert (He : forall k n a, ~ slot_command (EExpire k n a)).
  { intros k n a (c & b & [H|H]); discriminate H. }
  assert (Hg : forall k a, ~ slot_command (EGet k a)).
  { intros k a (c & b & [H|H]); discriminate H. }
  unfold checkRateLimit, checkRateLimit_body, try_catch, bind, ret, record; cbn.
  run_store st; repeat constructor; auto.
Qed.

(** The check itself never rejects, whatever the store does. *)
Lemma checkRateLimit_resolves today clientId s :
  is_resolved (check st today clientId s).1 = true.
Proof.
  unfold checkRateLimit, checkRateLimit_body, try_catch, bind, ret; cbn.
  run_store st.
Qed.

End Checks.

Lemma toString_truthy n : JS.truthy (JS.toString n) = true.
Proof.
  pose proof (JSFacts.parseInt_toString n) as Hp.
  destruct (JS.toString n); [discriminate Hp | done].
Qed.

(** The in-process limiter holds integers: its concurrency counter is at
    the limit exactly when the stored integer is at least the limit. *)
Lemma at_concurrent_limit_memory envC C (v : option Z) :
  CONCURRENT_LIMIT envC = Some C ->
  at_concurrent_limit envC (JS.toString <$> v)
  = match v with Some x => C <=? x | None => false end.
Proof.
  intros HC. unfold at_concurrent_limit. destruct v as [x|]; [|done].
  cbn. by rewrite toString_truthy, JSFacts.parseInt_toString, HC.
Qed.

(** [checkRateLimit] on the in-process limiter, in terms of the counters:
    the request is admitted exactly when the incremented daily count is
    within the daily limit and the concurrency counter is below its limit;
    the daily counter ends one higher when the request is admitted and
    unchanged when it is refused, no other counter changes, and the expiry
    timer is armed, for 24 hours, exactly on the first count of the day. *)
Lemma checkRateLimit_memory envD envC today clientId (m : MemoryRateLimiter) D C :
  DAILY_LIMIT envD = Some D ->
  CONCURRENT_LIMIT envC = Some C ->
  0 <= current m (dailyKey clientId today) ->
  let dk := dailyKey clientId today in
  let n := current m dk + 1 in
  let admitted :=
    negb (D <? n)
    && negb (match counters m !! concurrentKey clientId with
             | Some v => C <=? v
             | None => false
             end) in
  let run := checkRateLimit envD envC memoryStore today clientId m in
  run.1 = Resolved admitted /\
  current run.2 dk = (if admitted then n else current m dk) /\
  (forall k, k <> dk -> counters run.2 !! k = counters m !! k) /\
  expiryTimers run.2
  = (if n =? 1 then <[dk := 86400 * 1000]> (expiryTimers m) else expiryTimers m).
Proof.
  intros HD HC Hnonneg dk n admitted run. subst run admitted.
  pose proof (dailyKey_not_concurrent clientId today clientId) as Hne.
  fold dk in Hne, Hnonneg.
  unfold checkRateLimit, checkRateLimit_body, try_catch, bind, ret.
  fold dk. cbn [incr memoryStore mem_incr]. fold n.
  assert (Hget : forall timers,
    mem_get (concurrentKey clientId)
      {| counters := <[dk := n]> (counters m); expiryTimers := timers |}
    = (Resolved (JS.toString <$> counters m !! concurrentKey clientId),
       {| counters := <[dk := n]> (counters m); expiryTimers := timers |})).
  { intros timers. unfold mem_get. cbn. by rewrite lookup_insert_ne. }
  assert (Hdecr : forall timers,
    let reverted := if current m dk =? 0 then delete dk (counters m)
                    else <[dk := current m dk]> (counters m) in
    mem_decr dk {| counters := <[dk := n]> (counters m); expiryTimers := timers |}
    = (Resolved (current m dk),
       {| counters := reverted; expiryTimers := timers |})).
  { intros timers. unfold mem_decr, current at 1 2 3. cbn.
    rewrite lookup_insert_eq. cbn. fold (current m dk).
    replace (Z.max 0 (n - 1)) with (current m dk) by (subst n; lia).
    destruct (current m dk =? 0); [by rewrite delete_insert_eq|].
    by rewrite insert_insert_eq. }
  assert (Hreverted :
    current {| counters := if current m dk =? 0 then delete dk (counters m)
                           else <[dk := current m dk]> (counters m);
               expiryTimers := expiryTimers m |} dk = current m dk /\
    forall k, k <> dk ->
      (if current m dk =? 0 then delete dk (counters m)
       else <[dk := current m dk]> (counters m)) !! k = counters m !! k).
  { destruct (Z.eqb_spec (current m dk) 0) as [H0|H0]; unfold current at 1; cbn.
    - rewrite lookup_delete_eq. cbn. split; [lia|].
      intros k Hk. by rewrite lookup_delete_ne.
    - rewrite lookup_insert_eq. split; [done|].
      intros k Hk. by rewrite lookup_insert_ne. }
  destruct Hreverted as [Hcur Hothers].
  unfold JS.gt. rewrite HD.
  destruct (n =? 1) eqn:E1; cbn [expire memoryStore mem_expire decr get];
    destruct (D <? n) eqn:ED; cbn [negb andb];
    rewrite ?Hdecr, ?Hget; cbn [fst snd];
    rewrite ?(at_concurrent_limit_memory envC C) by done;
    try (destruct (match counters m !! concurrentKey clientId with
                   | Some v => C <=? v | None => false end) eqn:EC;
         cbn [negb]; rewrite ?Hdecr; cbn [fst snd]);
    (split; [done|]);
    (split; [first [ exact Hcur
                   | unfold current; cbn; by rewrite lookup_insert_eq ]|]);
    (split; [|done]);
    first [ exact Hothers
          | intros k Hk; cbn; by rewrite lookup_insert_ne ].
Qed.


Lemma checkRateLimit_fails_open_witness :
  existsb event_rejected
    (checkRateLimit None None (logged downStore) "2024-01-15" "Fixture.acme"
       (tt, [])).2.2 = true /\
  (checkRateLimit None None downStore "2024-01-15" "Fixture.acme" tt).1
  = Resolved true.
Proof.
  split; [reflexivity|].
  apply (checkRateLimit_fails_open None None downStore "2024-01-15" "Fixture.acme" tt).
  reflexivity.
Defined.

Example scenario_runs :
  (Fixture.scenario empty_limiter).1 = Resolved [true; false; true; false].
Proof. vm_compute. reflexivity. Qed.

End RateLimitFacts.

Module HashExamples.
Example sha256_empty :
  SHA256.digest_hex ""
  = "e3b0c44298fc1c149afbf4c8996fb92427ae41e4649b934ca495991b7852b855".
Proof. vm_compute. reflexivity. Qed.
Example sha256_abc :
  SHA256.digest_hex "abc"
  = "ba7816bf8f01cfea414140de5dae2223b00361a396177a9cb410ff61f20015ad".
Proof. vm_compute. reflexivity. Qed.
Example sha256_two_blocks :
  SHA256.digest_hex "abcdbcdecdefdefgefghfghighijhijkijkljklmklmnlmnomnopnopq"
  = "248d6a61d20638b8e5c026930c3e6039a33ce45964ff2167f6ecedd419db06c1".
Proof. vm_compute. reflexivity. Qed.
Example stringify_query :
  JSON.stringify (JSON.Obj [("keywords", Some (JSON.Str "data entry"));
                            ("location", Some (JSON.Str "New York"))])
  = "{" +:+ JSON.quote "keywords" +:+ ":" +:+ JSON.quote "data entry" +:+ ","
    +:+ JSON.quote "location" +:+ ":" +:+ JSON.quote "New York" +:+ "}".
Proof. vm_compute. reflexivity. Qed.
End HashExamples.

Module CacheFacts.
Import Cache.

(** Within the range of [setTimeout], the cleanup timer waits for the
    time to live. *)
Lemma timer_delay_range seconds :
  timer_range seconds ->
  timer_delay (times (Some seconds) (Some 1000)) = seconds * 1000.
Proof.
  unfold timer_range, timer_delay, times. intros H.
  destruct (Z.ltb_spec (seconds * 1000) 1); [lia|].
  destruct (Z.ltb_spec 2147483647 (seconds * 1000)); [lia | done].
Qed.

Lemma hex_digit_is_hex n : SHA256.is_hex (SHA256.hex_digit n) = true.
Proof.
  unfold SHA256.hex_digit.
  assert (Hcases : n mod 16 ∈ [0;1;2;3;4;5;6;7;8;9;10;11;12;13;14;15]).
  { assert (exists k : nat, n mod 16 = Z.of_nat k /\ (k < 16)%nat)
      as (k & Hk & Hlt).
    { exists (Z.to_nat (n mod 16)).
      pose proof (Z.mod_pos_bound n 16 ltac:(lia)). lia. }
    rewrite Hk.
    do 16 (destruct k as [|k]; [set_solver|]). lia. }
  set (d := n mod 16) in *.
  repeat (apply elem_of_cons in Hcases as [-> | Hcases]; [reflexivity|]).
  by apply elem_of_nil in Hcases.
Qed.

Example generateKey_query :
  generateKey "cache" "JOB_SEARCH" Fixture.query_ab = "cache:JOB_SEARCH:15cd086b747cf2c6".
Proof. vm_compute. reflexivity. Qed.

Example generateKey_special :
  generateKey "cache" "test" (JSON.Obj [("param", Some (JSON.Str "test@#$%^&*()_+"))])
  = "cache:test:c9f9f588734c9e65".
Proof. vm_compute. reflexivity. Qed.

(** C5, as stated, fails: the same two properties listed in the other
    order give another key. *)
Lemma generateKey_depends_on_property_order :
  JSON.same_properties Fixture.query_ab Fixture.query_ba /\
  generateKey "cache" "JOB_SEARCH" Fixture.query_ab
  <> generateKey "cache" "JOB_SEARCH" Fixture.query_ba.
Proof.
  split.
  - apply JSON.same_object, perm_swap.
  - vm_compute. discriminate.
Qed.

Lemma digest_prefix_hex (st : SHA256.state) :
  substring 0 16 (SHA256.hex st)
  = SHA256.hex8 (SHA256.ha st) (SHA256.hex8 (SHA256.hb st) "").
Proof. destruct st. reflexivity. Qed.

(** C5, amended.  The key is the prefix, the namespace and the first
    sixteen of the sixty-four hexadecimal digits of the SHA-256 digest of
    the [JSON.stringify] text of the key data, separated by colons.  So
    two keys with one prefix and namespace are equal exactly when these
    sixteen digits are, key data with the same [JSON.stringify] text get
    the same key, and the digest part holds no ['@'] and no ['#'] whatever
    the key data hold.  The digest function is checked against the
    published digest of ["abc"]. *)
Theorem generateKey_stable prefix namespace (d1 d2 : JSON.value) :
  JSON.stringify d1 = JSON.stringify d2 ->
  generateKey prefix namespace d1 = generateKey prefix namespace d2 /\
  (forall d,
     generateKey prefix namespace d = generateKey prefix namespace d1 <->
     substring 0 16 (SHA256.digest_hex (JSON.stringify d))
     = substring 0 16 (SHA256.digest_hex (JSON.stringify d1))) /\
  String.length (SHA256.digest_hex (JSON.stringify d1)) = 64%nat /\
  exists digest,
    digest = substring 0 16 (SHA256.digest_hex (JSON.stringify d1)) /\
    generateKey prefix namespace d1
      = prefix +:+ ":" +:+ namespace +:+ ":" +:+ digest /\
    String.length digest = 16%nat /\
    Forall (fun c => SHA256.is_hex c = true /\ c <> "@"%char /\ c <> "#"%char)
           (list_ascii_of_string digest) /\
    SHA256.digest_hex "abc"
    = "ba7816bf8f01cfea414140de5dae2223b00361a396177a9cb410ff61f20015ad".
Proof.
  intros Heq. split; [|split; [|split]].
  - unfold generateKey. by rewrite Heq.
  - intros d. unfold generateKey. split.
    + intros H.
      apply (inj (String.app prefix)), (inj (String.app ":")),
            (inj (String.app namespace)), (inj (String.app ":")) in H.
      exact H.
    + by intros ->.
  - unfold SHA256.digest_hex.
    by destruct (SHA256.hash _).
  - unfold generateKey, SHA256.digest_hex.
    rewrite digest_prefix_hex.
    eexists. split; [reflexivity|]. split; [reflexivity|].
    split; [reflexivity|].
    split; [|vm_compute; reflexivity].
    unfold SHA256.hex8. cbn [list_ascii_of_string].
    repeat constructor;
      try apply hex_digit_is_hex;
      intros Hc;
      match goal with
      | H : SHA256.hex_digit ?n = _ |- _ =>
          pose proof (hex_digit_is_hex n) as Hh; rewrite H in Hh;
          discriminate Hh
      end.
Qed.

Lemma generateKey_stable_witness :
  JSON.stringify (JSON.Obj [("location", None)]) = JSON.stringify (JSON.Obj [])
  /\ generateKey "cache" "JOB_SEARCH" (JSON.Obj [("location", None)])
     = generateKey "cache" "JOB_SEARCH" (JSON.Obj []).
Proof.
  split; [reflexivity|].
  exact (proj1 (generateKey_stable "cache" "JOB_SEARCH"
                  (JSON.Obj [("location", None)]) (JSON.Obj []) eq_refl)).
Defined.

Section Containment.

Variable env_ENABLE_CACHE : option string.
Context {S V : Type} (cacheClient : CacheClient S V).
Variable JSON_parse : string -> outcome (option V).
Variable JSON_stringify : V -> outcome string.
Variable prefix : string.

Local Abbreviation cache_get :=
  (get env_ENABLE_CACHE cacheClient JSON_parse prefix).
Local Abbreviation cache_set :=
  (set env_ENABLE_CACHE cacheClient JSON_stringify prefix).

(** [get] resolves whatever the backend and [JSON.parse] do. *)
Lemma get_resolves namespace keyData s :
  is_resolved (cache_get namespace keyData s).1 = true.
Proof.
  unfold get, try_catch, bind, ret, lift.
  destruct (cache_disabled _); [done|].
  destruct (c_get _ _ s) as [[[|str|v|v]|e] s1]; cbn; try done.
  destruct (JS.truthy str); [|done].
  by destruct (JSON_parse str).
Qed.

(** [set] resolves whatever the backend and [JSON.stringify] do. *)
Lemma set_resolves namespace keyData value ttl s :
  (cache_set namespace keyData value ttl s).1 = Resolved tt.
Proof.
  unfold set, try_catch, ret.
  destruct (cache_disabled _); [done|].
  by destruct (write_through _ _ _ _ _ s) as [[[]|e] s1].
Qed.

(** C9. An error of the cache backend stays inside the cache service.
    Whenever the read of the backend rejects, whatever its writes would
    do, [get] resolves to [null] and leaves the backend as the failed read
    left it.  Whenever the write rejects, whatever the reads would do,
    be it the command of the backend or the serialisation before it,
    [set] resolves normally and sends nothing further: the write is
    dropped.  And neither [get] nor [set] ever rejects. *)
Theorem cache_errors_contained namespace keyData value ttl :
  let key := generateKey prefix namespace keyData in
  (forall s e s1,
     c_get cacheClient key s = (Rejected e, s1) ->
     cache_get namespace keyData s
     = (Resolved None, if cache_disabled env_ENABLE_CACHE then s else s1)) /\
  (forall s e s2,
     write_through cacheClient JSON_stringify key (ttlSeconds namespace ttl)
       value s = (Rejected e, s2) ->
     cache_set namespace keyData value ttl s
     = (Resolved tt, if cache_disabled env_ENABLE_CACHE then s else s2)) /\
  (forall s payload e s2,
     instanceofRedis cacheClient = true ->
     JSON_stringify value = Resolved payload ->
     c_setex cacheClient key (ttlSeconds namespace ttl) payload s
       = (Rejected e, s2) ->
     cache_set namespace keyData value ttl s
     = (Resolved tt, if cache_disabled env_ENABLE_CACHE then s else s2)) /\
  (forall s e s2,
     instanceofRedis cacheClient = false ->
     c_set cacheClient key value (ttlSeconds namespace ttl) s
       = (Rejected e, s2) ->
     cache_set namespace keyData value ttl s
     = (Resolved tt, if cache_disabled env_ENABLE_CACHE then s else s2)) /\
  (forall s, is_resolved (cache_get namespace keyData s).1 = true) /\
  (forall s, (cache_set namespace keyData value ttl s).1 = Resolved tt).
Proof.
  intros key. subst key.
  assert (Hwrite : forall s e s2,
     write_through cacheClient JSON_stringify
       (generateKey prefix namespace keyData) (ttlSeconds namespace ttl)
       value s = (Rejected e, s2) ->
     cache_set namespace keyData value ttl s
     = (Resolved tt, if cache_disabled env_ENABLE_CACHE then s else s2)).
  { intros s e s2 Hset. unfold set, try_catch, ret.
    destruct (cache_disabled _); [done|]. by rewrite Hset. }
  split; [|split; [|split; [|split; [|split]]]].
  - intros s e s1 Hget. unfold get, try_catch, bind, ret.
    destruct (cache_disabled _); [done|]. by rewrite Hget.
  - exact Hwrite.
  - intros s payload e s2 Hredis Hpayload Hsetex.
    apply (Hwrite s e). unfold write_through, bind, lift.
    by rewrite Hredis, Hpayload.
  - intros s e s2 Hmemory Hset.
    apply (Hwrite s e). unfold write_through. by rewrite Hmemory.
  - intros s. apply get_resolves.
  - intros s. apply set_resolves.
Qed.

End Containment.

Lemma cache_errors_contained_witness :
  (get None Fixture.reads_fail (fun _ => Resolved None) "cache"
     "JOB_SEARCH" Fixture.query_ab (empty_cache 0)
   = (Resolved None, empty_cache 0)) /\
  (set None (V := Z) downClient (fun _ => Resolved "7") "cache"
     "JOB_SEARCH" Fixture.query_ab 7 None tt
   = (Resolved tt, tt)) /\
  (set None Fixture.reads_fail (fun _ => Resolved "7") "cache"
     "JOB_SEARCH" Fixture.query_ab 7 None (empty_cache 0)).1
   = Resolved tt.
Proof.
  split; [|split].
  - apply (proj1 (cache_errors_contained None Fixture.reads_fail
                    (fun _ => Resolved None) (fun _ => Resolved "7") "cache"
                    "JOB_SEARCH" Fixture.query_ab 7 None)
             (empty_cache 0) (Error "read ECONNRESET") (empty_cache 0)).
    reflexivity.
  - apply (proj1 (proj2 (proj2 (cache_errors_contained None (V := Z) downClient
                    (fun _ => Resolved None) (fun _ => Resolved "7") "cache"
                    "JOB_SEARCH" Fixture.query_ab 7 None)))
             tt "7" (Error "Connection is closed.") tt);
      reflexivity.
  - apply (proj2 (proj2 (proj2 (proj2 (proj2
             (cache_errors_contained None Fixture.reads_fail
                (fun _ => Resolved None) (fun _ => Resolved "7") "cache"
                "JOB_SEARCH" Fixture.query_ab 7 None)))))).
Defined.

End CacheFacts.

Module EngineFacts.
Import Horsemen Engine.

Section Orchestration.

Variable searchJobBoards : string -> option string -> outcome (list JobPosting).
Variable collectOsintContext : string -> string -> string -> outcome OsintContext.
Variable brodyPass karenPass durinPass : OsintContext -> outcome (list Finding).
Variable URL_hostname : string -> outcome string.
Variable env_LLM_PROVIDER : option string.
Variable analyzeContext : OsintContext -> string -> outcome string.
Variable verifyPrompt : list Finding -> string.
Variable synthesisPrompt : OsintContext -> list Finding -> string.
Variable scoreMatch : string -> option string.
Variable today : string.
Variable env_ENABLE_CACHE : option string.
Variable JSON_parse : string -> outcome (option ResearchResult).
Variable JSON_stringify : ResearchResult -> outcome string.

Local Abbreviation deep S :=
  (runDeepResearch (S := S) collectOsintContext brodyPass karenPass durinPass
     env_LLM_PROVIDER analyzeContext verifyPrompt synthesisPrompt
     scoreMatch today).
Local Abbreviation companies S :=
  (analyze_companies (S := S) collectOsintContext brodyPass karenPass durinPass
     URL_hostname env_LLM_PROVIDER analyzeContext verifyPrompt synthesisPrompt
     scoreMatch today).
Local Abbreviation search S cl :=
  (searchOpportunities (S := S) searchJobBoards collectOsintContext
     brodyPass karenPass durinPass URL_hostname env_LLM_PROVIDER
     analyzeContext verifyPrompt synthesisPrompt scoreMatch today
     env_ENABLE_CACHE cl JSON_parse JSON_stringify).

(** Deep research reads and writes no shared state. *)
Lemma runDeepResearch_state {S} request (s : S) :
  (deep S request s).2 = s.
Proof.
  unfold runDeepResearch, runHorsemenAnalysis, try_catch, bind, lift, ret, throw.
  repeat (case_match; simplify_eq/=); done.
Qed.

Lemma analyze_companies_state {S} request_notes top acc (s : S) :
  (companies S request_notes top acc s).2 = s.
Proof.
  revert acc s. induction top as [|[company jobs] rest IH]; intros acc s; [done|].
  cbn [analyze_companies]. unfold bind at 1.
  set (url := match jobs with [] => _ | _ => _ end).
  assert (Hurl : (url s).2 = s).
  { subst url. unfold bind, lift, ret. repeat (case_match; simplify_eq/=); done. }
  destruct (url s) as [[u|e] s1] eqn:Eu; cbn in Hurl; subst s1; [|done].
  unfold bind.
  match goal with |- context [deep S ?r s] =>
    pose proof (runDeepResearch_state r s) as Hd;
    destruct (deep S r s) as [[a|e] s1] end.
  - cbn in Hd; subst s1. apply IH.
  - cbn in Hd; by subst s1.
Qed.

(** A result written to the in-process cache with a time to live that
    [setTimeout] can hold is read back for as long as less than that time
    has passed. *)
Lemma memory_cache_read_back (m : Cache.MemoryCache ResearchResult)
    key value seconds ms :
  Cache.timer_range seconds ->
  0 <= ms < seconds * 1000 ->
  let stored := Cache.elapse ms (Cache.mc_set key value (Some seconds) m).2 in
  Cache.mc_get key stored = (Resolved (Cache.ObjVal value), stored).
Proof.
  intros Hrange Hms stored. unfold Cache.mc_get.
  assert (Hlook : Cache.cache stored !! key
                  = Some (value, (Some (Cache.now m + seconds * 1000) : JS.num))).
  { subst stored. cbn [Cache.mc_set snd Cache.elapse Cache.cache Cache.timers
                       Cache.now].
    rewrite CacheFacts.timer_delay_range by done.
    apply map_lookup_filter_Some. split; [by rewrite lookup_insert_eq|].
    cbn. apply map_lookup_filter_None. right. intros due Hdue.
    rewrite lookup_insert_eq in Hdue. injection Hdue as <-. cbn. lia. }
  rewrite Hlook.
  assert (Hnow : Cache.now stored = Cache.now m + ms) by done.
  rewrite Hnow. cbn [JS.gt].
  destruct (Z.ltb_spec (Cache.now m + seconds * 1000) (Cache.now m + ms));
    [lia | done].
Qed.

(** C10. The key of a cached opportunity search is derived from the
    keywords and the location alone, while the cached result carries the
    requester's client id in [jobId].  So when a first request misses the
    in-process cache and completes, a second request with the same keywords
    and location made within the thirty minutes the entry lives receives
    the first result as it is, [jobId] of the first requester included,
    whatever its own client id. *)
Theorem cached_search_crosses_tenants
    (r1 r2 : ResearchRequest) (m m1 : Cache.MemoryCache ResearchResult)
    (res1 : ResearchResult) (ms : Z) :
  Cache.cache_disabled env_ENABLE_CACHE = false ->
  keywords r2 = keywords r1 ->
  location r2 = location r1 ->
  Cache.cache m !! Cache.generateKey "cache" "JOB_SEARCH" (cacheKey r1) = None ->
  search _ Cache.memoryClient r1 m = (Resolved res1, m1) ->
  0 <= ms < 1800000 ->
  search _ Cache.memoryClient r2 (Cache.elapse ms m1)
    = (Resolved res1, Cache.elapse ms m1) /\
  jobId res1 = JS.or_default (clientId r1) "anonymous".
Proof.
  intros Hon Hk Hl Hmiss Hrun Hms.
  assert (Hkey : cacheKey r2 = cacheKey r1).
  { unfold cacheKey. by rewrite Hk, Hl. }
  unfold searchOpportunities in Hrun |- *.
  rewrite Hk, Hkey.
  destruct (given (keywords r1)); cbn [negb] in *; [|discriminate Hrun].
  unfold Cache.get, Cache.set in *. rewrite Hon in *.
  unfold try_catch, Cache.write_through in *.
  cbn [Cache.instanceofRedis Cache.memoryClient Cache.c_set Cache.c_get] in *.
  unfold bind in Hrun. unfold Cache.mc_get in Hrun at 1. rewrite Hmiss in Hrun.
  cbn [ret lift] in Hrun.
  destruct (searchJobBoards _ _) as [jobPostings|e]; [|discriminate Hrun].
  match type of Hrun with context [companies _ ?n ?t ?a m] =>
    pose proof (analyze_companies_state n t a m) as Hst;
    destruct (companies _ n t a m) as [[found|e] s1] end;
    cbn in Hst; subst s1; [|discriminate Hrun].
  change (Cache.ttlSeconds "JOB_SEARCH" None) with (Some 1800) in Hrun.
  match type of Hrun with context [Cache.mc_set ?k ?v (Some 1800) m] =>
    pose proof (memory_cache_read_back m k v 1800 ms) as Hback;
    destruct (Cache.mc_set k v (Some 1800) m) as [[[]|e] s1] eqn:Eset end;
    [|discriminate Eset].
  cbn [ret] in Hrun. injection Hrun as <- <-.
  split; [|reflexivity].
  unfold bind. cbn [snd] in Hback. rewrite Hback; [reflexivity | | lia].
  unfold Cache.timer_range. lia.
Qed.

(** Deep research of a named company rejects when the collection of its
    evidence does. *)
Lemma runDeepResearch_collection_fails {S} request company (s : S) :
  req_companyName request = Some company ->
  JS.truthy company = true ->
  (forall d h, is_rejected (collectOsintContext company d h) = true) ->
  deep S request s = (Rejected (ExternalServiceError "Research Engine"), s).
Proof.
  intros Hname Hcompany Hfail.
  unfold runDeepResearch, try_catch, bind, lift, throw, given.
  rewrite Hname, Hcompany. cbn [negb andb JS.or_default].
  rewrite Hcompany.
  specialize (Hfail (JS.or_default (companyUrl request) "")
                    (JS.or_default (companyUrl request) "")).
  by destruct (collectOsintContext company _ _).
Qed.

(** The loop over the top companies has no handler of its own: when the
    research of one company always rejects, the whole loop rejects, whatever
    was gathered for the companies before it. *)
Lemma analyze_companies_aborts {S} request_notes before company jobs after
    acc (s : S) :
  (forall request s', req_companyName request = Some company ->
                      is_rejected (deep S request s').1 = true) ->
  is_rejected
    (companies S request_notes (before ++ (company, jobs) :: after)%list acc s).1
  = true.
Proof.
  intros Hfail. revert acc s.
  induction before as [|[c js] rest IH]; intros acc s; cbn [app analyze_companies].
  - unfold bind at 1.
    destruct (_ s) as [[u|e] s1]; [|done].
    unfold bind.
    match goal with |- context [deep S ?r s1] =>
      specialize (Hfail r s1 eq_refl); destruct (deep S r s1) as [[a|e] s2] end;
      [discriminate Hfail | done].
  - unfold bind at 1.
    destruct (_ s) as [[u|e] s1]; [|done].
    unfold bind at 1.
    destruct (deep S _ s1) as [[a|e] s2]; [apply IH | done].
Qed.

End Orchestration.

Lemma cached_search_crosses_tenants_witness :
  clientId Fixture.tenant_a <> clientId Fixture.tenant_b /\
  (Fixture.search Fixture.collect_ok Fixture.tenant_b
     (Cache.elapse 60000 Fixture.first_run.2)).1
    = Resolved Fixture.first_result /\
  jobId Fixture.first_result = "550e8400-e29b-41d4-a716-446655440000".
Proof.
  split; [discriminate|].
  destruct (cached_search_crosses_tenants
              Fixture.searchJobBoards Fixture.collect_ok Fixture.brodyPass
              Fixture.no_findings Fixture.no_findings Fixture.URL_hostname
              None Fixture.no_llm (fun _ => "") (fun _ _ => "") (fun _ => None)
              Fixture.today None Fixture.JSON_parse Fixture.JSON_stringify
              Fixture.tenant_a Fixture.tenant_b (Cache.empty_cache 0) Fixture.first_run.2
              Fixture.first_result 60000) as [Hhit Hid].
  - reflexivity.
  - reflexivity.
  - reflexivity.
  - reflexivity.
  - vm_compute. reflexivity.
  - lia.
  - split; [|exact Hid].
    unfold Fixture.search. by rewrite Hhit.
Defined.

(** C4 at a batch of two companies of which one fails: the code rejects
    the whole search where the specification expects a result for the
    company that succeeded. *)
Theorem searchOpportunities_batch_aborts :
  (Fixture.search Fixture.collect_ok Fixture.tenant_a (Cache.empty_cache 0)).1
    = Resolved Fixture.first_result /\
  summary Fixture.first_result
    = "Found 5 job postings across 2 companies. Top 2 companies analyzed." /\
  (Fixture.search Fixture.collect_one_fails Fixture.tenant_a (Cache.empty_cache 0)).1
    = Rejected (ExternalServiceError "Research Engine").
Proof. repeat split; vm_compute; reflexivity. Qed.

End EngineFacts.

Module RouteFacts.
Import Horsemen Engine Route RateLimit.

Lemma on_snd_keeps_first {S1 S2 A} (m : Async S2 A) (s1 : S1) (s2 : S2) :
  (on_snd m (s1, s2)).2.1 = s1.
Proof. unfold on_snd. by destruct (m s2). Qed.

(** Whatever the request and whatever the collaborators do, the research
    endpoint sends the counter store no command that takes or releases a
    concurrency slot: [incrementConcurrent] and [decrementConcurrent] are
    not called on any path. *)
Lemma POST_takes_no_slot {SR SC}
    searchJobBoards collectOsintContext brodyPass karenPass durinPass
    URL_hostname env_LLM_PROVIDER analyzeContext verifyPrompt synthesisPrompt
    scoreMatch today env_ENABLE_CACHE envD envC
    (rateLimiter : CounterStore SR)
    (cacheClient : Cache.CacheClient SC ResearchResult)
    JSON_parse JSON_stringify is_url is_uuid json (sr : SR) (sc : SC) :
  Forall (fun ev => ~ RateLimit.slot_command ev)
    (POST searchJobBoards collectOsintContext brodyPass karenPass durinPass
       URL_hostname env_LLM_PROVIDER analyzeContext verifyPrompt
       synthesisPrompt scoreMatch today env_ENABLE_CACHE envD envC
       (logged rateLimiter) cacheClient JSON_parse JSON_stringify
       is_url is_uuid json ((sr, []), sc)).2.1.2.
Proof.
  unfold POST, try_catch, bind at 1, lift.
  destruct json as [data|e]; [|by constructor].
  destruct (schema_accepts _ _ data); cbn [negb]; [|by constructor].
  unfold bind at 1, on_fst at 1.
  pose proof (RateLimitFacts.checkRateLimit_takes_no_slot envD envC rateLimiter
                today (JS.or_default (clientId data) "anonymous") sr) as Hlog.
  destruct (checkRateLimit _ _ _ _ _ _) as [[ok|e] [sr' log]]; cbn in Hlog;
    [|exact Hlog].
  destruct ok; cbn [negb]; [|exact Hlog].
  unfold bind.
  match goal with |- context [(if ?c then ?x else ?y) (?s1, ?s2)] =>
    assert (Hkeep : ((if c then x else y) (s1, s2)).2.1 = s1)
      by (destruct c; apply on_snd_keeps_first);
    destruct ((if c then x else y) (s1, s2)) as [[r|e] [s1' s2']] end;
    cbn in Hkeep; subst s1'; exact Hlog.
Qed.

(** C3 at an admitted keyword search of one tenant: the request
    succeeds, and the only commands the counter store received are those of
    the admission check; the concurrency counter is read once and never
    incremented, where the specification expects the slot to be taken before the
    search runs. *)
Theorem POST_admitted_without_slot :
  let run := Fixture.POST Fixture.collect_ok (Resolved Fixture.tenant_a)
                          Fixture.fresh in
  (exists result, run.1 = Resolved {| status := 200; body := Success result |}) /\
  run.2.1.2
    = [ EIncr "rate:daily:550e8400-e29b-41d4-a716-446655440000:2024-01-15" (Resolved 1);
        EExpire "rate:daily:550e8400-e29b-41d4-a716-446655440000:2024-01-15"
                86400 (Resolved tt);
        EGet "rate:concurrent:550e8400-e29b-41d4-a716-446655440000" (Resolved None) ] /\
  counters run.2.1.1 !! concurrentKey "550e8400-e29b-41d4-a716-446655440000" = None.
Proof.
  cbv zeta. split; [|split].
  - eexists. vm_compute. reflexivity.
  - vm_compute. reflexivity.
  - vm_compute. reflexivity.
Qed.

End RouteFacts.

Module HorsemenFacts.
Import Horsemen.

Local Open Scope Q_scope.

(** *** The automation score *)

Lemma Qmin_bounds (a b lo : Q) : lo <= a -> lo <= b -> lo <= Qmin a b <= b.
Proof.
  intros Ha Hb. split; [by apply Q.min_glb | apply Q.le_min_r].
Qed.

Lemma count_nonneg {A} (p : A -> bool) (l : list A) : (0 <= count p l)%Z.
Proof. unfold count. lia. Qed.

(** Each factor adds at most two points: the total is at most twice the
    number of factors, and it is zero when no factor applies. *)
Lemma factor_totals_bounds context findings :
  let '(score, factors) := factor_totals context findings in
  (0 <= factors)%Z /\ 0 <= score <= 2 * inject_Z factors.
Proof.
  unfold factor_totals.
  set (n := count (has_tag "automation-opportunity") findings).
  assert (Hq : 0 <= Qmin (inject_Z n * (1 # 2)) 2 <= 2).
  { apply Qmin_bounds; [|lra].
    pose proof (count_nonneg (has_tag "automation-opportunity") findings) as Hn.
    fold n in Hn. apply Qmult_le_0_compat; [|lra].
    change 0 with (inject_Z 0). by rewrite <- Zle_Qle. }
  set (x := Qmin (inject_Z n * (1 # 2)) 2) in *.
  destruct (0 <? n)%Z;
    destruct (existsb (has_tag "growth") findings || _);
    destruct (existsb mentions_repetition findings);
    destruct (nonempty (tech context));
    destruct (existsb modern_tech (tech context));
    destruct (nonempty (procurement context));
    destruct (existsb high_value (procurement context));
    cbn; (split; [lia|]);
    repeat match goal with
           | |- context [inject_Z ?z] =>
               let v := eval vm_compute in z in change (inject_Z z) with (inject_Z v)
           end;
    unfold inject_Z; lra.
Qed.

Lemma round_tenths_bounds (x : Q) :
  0 <= x <= 10 -> 0 <= inject_Z (round (x * 10)) / 10 <= 10.
Proof.
  intros [Hlo Hhi]. unfold round.
  assert (H0 : (0 <= Qfloor (x * 10 + (1 # 2)))%Z).
  { change 0%Z with (Qfloor 0). apply Qfloor_resp_le. lra. }
  assert (H1 : (Qfloor (x * 10 + (1 # 2)) <= 100)%Z).
  { change 100%Z with (Qfloor (100 + (1 # 2))). apply Qfloor_resp_le. lra. }
  set (z := Qfloor _) in *.
  rewrite Zle_Qle in H0, H1.
  change (inject_Z 0) with 0 in H0. change (inject_Z 100) with 100 in H1.
  split.
  - apply Qle_shift_div_l; lra.
  - apply Qle_shift_div_r; lra.
Qed.

(** C8. The score that [analyzeAutomationPotential] returns lies between
    0 and 10 and its confidence between 0 and 1, for every evidence bundle
    and every list of findings. *)
Theorem automation_score_bounds (context : OsintContext) (findings : list Finding) :
  0 <= score (analyzeAutomationPotential context findings) <= 10 /\
  0 <= score_confidence (analyzeAutomationPotential context findings) <= 1.
Proof.
  unfold analyzeAutomationPotential.
  pose proof (factor_totals_bounds context findings) as Hft.
  destruct (factor_totals context findings) as [total factors].
  destruct Hft as (Hf & Hlo & Hhi). cbn [score score_confidence].
  split.
  - apply round_tenths_bounds.
    destruct (Z.ltb_spec 0 factors) as [Hpos|Hzero]; [|lra].
    assert (Hfq : 0 < inject_Z factors).
    { change 0 with (inject_Z 0). by rewrite <- Zlt_Qlt. }
    assert (0 <= total / inject_Z factors <= 2) as [? ?]; [|lra].
    split.
    + apply Qle_shift_div_l; lra.
    + apply Qle_shift_div_r; lra.
  - match goal with |- context [count ?p ?l] =>
      pose proof (count_nonneg p l) as Hdp; set (dp := count p l) in * end.
    assert (Hdq : 0 <= inject_Z dp).
    { change 0 with (inject_Z 0). by rewrite <- Zle_Qle. }
    destruct (Qmin_bounds ((1 # 2) + inject_Z dp * (1 # 10)) (19 # 20) 0)
      as [? ?]; lra.
Qed.

(** *** Sorting *)

Lemma insert_perm {A} (compare : A -> A -> Q) x l :
  Permutation (JSArray.insert compare x l) (x :: l).
Proof.
  induction l as [|y rest IH]; cbn; [done|].
  destruct (Qle_bool _ _); [done|].
  rewrite IH. apply perm_swap.
Qed.

Lemma sort_perm {A} (compare : A -> A -> Q) l :
  Permutation (JSArray.sort compare l) l.
Proof.
  induction l as [|x rest IH]; cbn; [done|].
  fold (JSArray.sort compare rest). rewrite insert_perm. by constructor.
Qed.

Section Descending.

Context {A : Type} (key : A -> Q).

Local Abbreviation compare := (fun a b : A => key b - key a).
Local Abbreviation after := (fun a b : A => key b <= key a).

Lemma insert_sorted x l :
  Sorted after l -> Sorted after (JSArray.insert compare x l).
Proof.
  induction 1 as [|y rest Hsorted IH Hhd]; cbn.
  - repeat constructor.
  - destruct (Qle_bool (key y - key x) 0) eqn:Hle.
    + apply Qle_bool_iff in Hle.
      repeat constructor; [done..|]. lra.
    + assert (Hlt : ~ key y - key x <= 0).
      { intros Hc. apply Qle_bool_iff in Hc. congruence. }
      constructor; [done|].
      destruct rest as [|z rest']; cbn in *.
      * constructor. lra.
      * destruct (Qle_bool (key z - key x) 0).
        -- constructor. lra.
        -- constructor. by inversion Hhd.
Qed.

(** Sorting with the comparator [key b - key a] puts the elements in
    descending order of [key]. *)
Lemma sort_descending l : Sorted after (JSArray.sort compare l).
Proof.
  induction l as [|x rest IH]; cbn; [constructor|].
  by apply insert_sorted.
Qed.

End Descending.

(** The deterministic synthesis returns the verified findings and the
    summary, in descending order of [confidence * impact multiplier]. *)
Lemma pinkoPass_fallback_descending today context verified :
  Sorted (fun a b => priority b <= priority a)
         (pinkoPass_fallback today context verified) /\
  Permutation (pinkoPass_fallback today context verified)
              (verified ++ [synthesis_finding today context verified]).
Proof.
  split; [apply (sort_descending priority) | apply sort_perm].
Qed.

(** The capability-backed synthesis puts its summary first, as long as no
    verified finding is itself tagged ['synthesis']. *)
Lemma sort_enhanced_summary_first (summary : Finding) verified :
  has_tag "synthesis" summary = true ->
  Forall (fun f => has_tag "synthesis" f = false) verified ->
  JSArray.sort compare_enhanced (verified ++ [summary])
  = summary :: JSArray.sort compare_enhanced verified.
Proof.
  intros Hs. induction 1 as [|f rest Hf Hrest IH]; [done|].
  cbn [app JSArray.sort foldr] in *.
  fold (JSArray.sort compare_enhanced (rest ++ [summary])).
  fold (JSArray.sort compare_enhanced rest).
  rewrite IH. cbn [JSArray.insert].
  unfold compare_enhanced at 1. by rewrite Hf, Hs.
Qed.

(** *** Verification *)

(** The filter keeps the findings that are not both below the threshold
    and short of two sources, and boosts each one it keeps. *)
Lemma verify_filter_boost preliminary :
  verify preliminary
  = map boost (List.filter (fun f => negb (uncorroborated f)) preliminary).
Proof.
  induction preliminary as [|f rest IH]; cbn; [done|].
  destruct (uncorroborated f); cbn; by rewrite IH.
Qed.

Lemma boost_confidence finding :
  confidence (boost finding)
  = if (3 <=? length (sources finding))%nat
    then Qmin (confidence finding * (6 # 5)) 1
    else confidence finding.
Proof. unfold boost. by destruct (3 <=? _)%nat. Qed.

(** C6 at two findings whose tags are the same set in a different order:
    the deterministic pass keeps both, where the specification (and the
    capability-backed pass, which sorts the tags) keeps only the one of
    higher confidence. *)
Theorem kevinPass_keeps_reordered_duplicate :
  title Fixture.invoices_ab = title Fixture.invoices_ba /\
  Permutation (tags Fixture.invoices_ab) (tags Fixture.invoices_ba) /\
  kevinPass None Fixture.no_llm (fun _ => "") Fixture.acme
            [Fixture.invoices_ab; Fixture.invoices_ba]
    = Resolved [Fixture.invoices_ab; Fixture.invoices_ba] /\
  kevinPassEnhanced Fixture.answering_llm (fun _ => "") Fixture.acme
                    [Fixture.invoices_ab; Fixture.invoices_ba]
    = Resolved [sort_tags Fixture.invoices_ba].
Proof.
  split; [reflexivity|]. split; [apply perm_swap|].
  split; vm_compute; reflexivity.
Qed.

(** C7 at one verified high-impact finding of confidence 0.9: its priority,
    1.35, exceeds the confidence of the summary, so the deterministic pass
    returns it ahead of the summary, where the specification (and the
    capability-backed pass) puts the summary first. *)
Theorem pinkoPass_summary_not_first :
  Fixture.titles (pinkoPass None Fixture.no_llm (fun _ _ => "") (fun _ => None)
                    "2024-01-15"
            Fixture.acme [Fixture.invoices_ba])
    = ["Manual invoice processing";
       "Overall Automation Opportunity Assessment"] /\
  Fixture.titles (pinkoPassEnhanced Fixture.answering_llm (fun _ _ => "") (fun _ => None)
            "2024-01-15" Fixture.acme [Fixture.invoices_ba])
    = ["Comprehensive Automation Strategy"; "Manual invoice processing"].
Proof. split; vm_compute; reflexivity. Qed.

End HorsemenFacts.

(* ===================================================================== *)
(** ** The limiter over the in-process counter store *)
(* ===================================================================== *)

Module LimiterFacts.
Import RateLimit RateLimitStatus.

#[local] Arguments JS.gt : simpl never.
#[local] Arguments JS.ge : simpl never.
#[local] Arguments at_concurrent_limit : simpl never.

Lemma current_nonneg m key : positive_counters m -> 0 <= current m key.
Proof.
  intros Hpos. unfold current.
  destruct (counters m !! key) as [v|] eqn:Hv; cbn; [|lia].
  specialize (Hpos key v Hv). lia.
Qed.

Lemma mem_incr_positive key m :
  positive_counters m -> positive_counters (mem_incr key m).2.
Proof.
  intros Hpos k v. cbn. pose proof (current_nonneg m key Hpos).
  destruct (decide (key = k)) as [->|Hne].
  - rewrite lookup_insert_eq. intros [= <-]. lia.
  - rewrite lookup_insert_ne by done. apply Hpos.
Qed.

Lemma mem_decr_positive key m :
  positive_counters m -> positive_counters (mem_decr key m).2.
Proof.
  intros Hpos k v. cbn.
  destruct (Z.eqb_spec (Z.max 0 (current m key - 1)) 0) as [H0|H0].
  - destruct (decide (key = k)) as [->|Hne].
    + by rewrite lookup_delete_eq.
    + rewrite lookup_delete_ne by done. apply Hpos.
  - destruct (decide (key = k)) as [->|Hne].
    + rewrite lookup_insert_eq. intros [= <-]. lia.
    + rewrite lookup_insert_ne by done. apply Hpos.
Qed.

Lemma mem_del_positive key m :
  positive_counters m -> positive_counters (mem_del key m).2.
Proof.
  intros Hpos k v. cbn.
  destruct (decide (key = k)) as [->|Hne].
  - by rewrite lookup_delete_eq.
  - rewrite lookup_delete_ne by done. apply Hpos.
Qed.

(** X1. Every operation of the limiter keeps the stored counters at one or
    above: admission checks, taking and releasing a slot, a firing expiry
    timer and a flush leave no zero or negative counter behind. *)
Theorem limiter_counters_stay_positive envD envC today clientId m :
  positive_counters m ->
  positive_counters (checkRateLimit envD envC memoryStore today clientId m).2 /\
  positive_counters (incrementConcurrent memoryStore clientId m).2 /\
  positive_counters (decrementConcurrent memoryStore clientId m).2 /\
  (forall key, positive_counters (timer_fires key m)) /\
  positive_counters (flushAll m).2.
Proof.
  intros Hpos. split; [|split; [|split; [|split]]].
  - unfold checkRateLimit, checkRateLimit_body, try_catch, bind, ret.
    cbn [incr decr get expire memoryStore].
    set (dk := dailyKey clientId today).
    pose proof (mem_incr_positive dk m Hpos) as H1.
    destruct (mem_incr dk m) as [[n|e] m1] eqn:E1; [|done]. cbn in H1.
    assert (H2 : forall m2, positive_counters m2 ->
                   positive_counters (mem_expire dk 86400 m2).2) by done.
    assert (Hexp : exists m2,
               (if n =? 1 then mem_expire dk 86400 else λ s, (Resolved (), s)) m1
               = (Resolved tt, m2) /\ positive_counters m2).
    { destruct (n =? 1); eexists; split; try reflexivity; [by apply H2 | done]. }
    destruct Hexp as (m2 & -> & Hm2).
    destruct (JS.gt _ _).
    + pose proof (mem_decr_positive dk m2 Hm2).
      by destruct (mem_decr dk m2) as [[?|?] ?].
    + unfold mem_get at 1. cbn [fst snd].
      destruct (at_concurrent_limit _ _); [|done].
      pose proof (mem_decr_positive dk m2 Hm2).
      by destruct (mem_decr dk m2) as [[?|?] ?].
  - unfold incrementConcurrent, bind. cbn [incr expire memoryStore].
    pose proof (mem_incr_positive (concurrentKey clientId) m Hpos) as H1.
    by destruct (mem_incr _ m) as [[?|?] ?].
  - unfold decrementConcurrent, bind, ret. cbn [decr del memoryStore].
    pose proof (mem_decr_positive (concurrentKey clientId) m Hpos) as H1.
    destruct (mem_decr _ m) as [[n|?] m1]; [|done]. cbn in H1.
    destruct (n <=? 0); [by apply mem_del_positive | done].
  - intros key. by apply (mem_del_positive key m).
  - intros k v. cbn. by rewrite lookup_empty.
Qed.

Lemma limiter_counters_stay_positive_witness :
  positive_counters empty_limiter /\
  positive_counters
    (checkRateLimit None None memoryStore "2024-01-15" "acme" empty_limiter).2.
Proof.
  assert (H : positive_counters empty_limiter).
  { intros k v. cbn. by rewrite lookup_empty. }
  split; [exact H|].
  exact (proj1 (limiter_counters_stay_positive None None "2024-01-15" "acme"
                  empty_limiter H)).
Defined.

(** X2. Taking a slot and releasing it again is a round trip: the counters are
    as before, the slot count was one higher in between, and a counter that
    did not exist before leaves no key and no timer behind. *)
Theorem slot_round_trip clientId m :
  positive_counters m ->
  let ck := concurrentKey clientId in
  let held := (incrementConcurrent memoryStore clientId m).2 in
  let released := (decrementConcurrent memoryStore clientId held).2 in
  current held ck = current m ck + 1 /\
  counters released = counters m /\
  (counters m !! ck = None ->
   expiryTimers released = delete ck (expiryTimers m)).
Proof.
  intros Hpos ck held released.
  pose proof (current_nonneg m ck Hpos) as Hcur.
  assert (Hheld : held = {| counters := <[ck := current m ck + 1]> (counters m);
                            expiryTimers := <[ck := 3600 * 1000]> (expiryTimers m) |})
    by reflexivity.
  clearbody held.
  assert (Hc : current held ck = current m ck + 1).
  { rewrite Hheld. unfold current at 1. cbn. by rewrite lookup_insert_eq. }
  split; [exact Hc|].
  subst released. unfold decrementConcurrent, bind, ret.
  cbn [decr del memoryStore]. unfold mem_decr. fold ck. rewrite Hc.
  replace (Z.max 0 (current m ck + 1 - 1)) with (current m ck) by lia.
  cbn [fst snd]. rewrite Hheld. cbn [counters expiryTimers].
  destruct (Z.eqb_spec (current m ck) 0) as [H0|H0].
  - rewrite H0. cbn. rewrite delete_insert_eq, delete_insert_eq.
    assert (Hnone : counters m !! ck = None).
    { destruct (counters m !! ck) as [v|] eqn:Hv; [|done].
      specialize (Hpos ck v Hv). unfold current in H0. rewrite Hv in H0.
      cbn in H0. lia. }
    split; [|done].
    rewrite delete_id by (rewrite lookup_delete_eq; done).
    by apply delete_id.
  - assert (Hle : (current m ck <=? 0) = false) by lia.
    rewrite Hle. cbn. rewrite insert_insert_eq.
    assert (Hsome : counters m !! ck = Some (current m ck)).
    { unfold current in *. destruct (counters m !! ck); cbn in *; [done|lia]. }
    split; [by apply insert_id|].
    intros Hnone. congruence.
Qed.

Lemma slot_round_trip_witness :
  positive_counters empty_limiter /\
  counters (decrementConcurrent memoryStore "acme"
              (incrementConcurrent memoryStore "acme" empty_limiter).2).2
  = counters empty_limiter.
Proof.
  assert (H : positive_counters empty_limiter).
  { intros k v. cbn. by rewrite lookup_empty. }
  split; [exact H|].
  exact (proj1 (proj2 (slot_round_trip "acme" empty_limiter H))).
Defined.



Lemma read_count_memory key m :
  read_count memoryStore key m = (Resolved (Some (current m key)), m).
Proof.
  unfold read_count, bind, ret, current. cbn [get memoryStore].
  unfold mem_get. destruct (counters m !! key) as [v|]; cbn [fmap option_fmap option_map];
    [|reflexivity].
  cbn [JS.or_default default]. rewrite RateLimitFacts.toString_truthy.
  by rewrite JSFacts.parseInt_toString.
Qed.

(** X4. On the in-process limiter the status query changes nothing and reports
    the stored counts: an absent counter reads as zero, and the remaining
    quota is the limit less the count used, never below zero. *)
Theorem status_reads_counters envD envC today resetAt clientId m D :
  DAILY_LIMIT envD = Some D ->
  let run := getRateLimitStatus envD envC memoryStore today resetAt clientId m in
  run.2 = m /\
  exists st,
    run.1 = Resolved st /\
    dailyUsed st = Some (current m (dailyKey clientId today)) /\
    concurrentUsed st = Some (current m (concurrentKey clientId)) /\
    dailyLimit st = Some D /\
    dailyRemaining st
    = Some (Z.max 0 (D - current m (dailyKey clientId today))).
Proof.
  intros HD run. subst run.
  unfold getRateLimitStatus, bind, both, ret.
  rewrite !read_count_memory. cbn [fst snd]. rewrite HD.
  split; [reflexivity|]. eexists. split; [reflexivity|]. by cbn.
Qed.

Lemma status_reads_counters_witness :
  DAILY_LIMIT None = Some 50 /\
  (getRateLimitStatus None None memoryStore "2024-01-15" "2024-01-16T00:00:00.000Z"
     "acme" empty_limiter).2 = empty_limiter.
Proof.
  split; [reflexivity|].
  exact (proj1 (status_reads_counters None None "2024-01-15"
                  "2024-01-16T00:00:00.000Z" "acme" empty_limiter 50 eq_refl)).
Defined.

(** X5. Whatever the store answers, the status query sends it exactly two
    commands, both of them reads: the daily key and the concurrency key. *)
Theorem status_only_reads {St} envD envC (st : CounterStore St)
    today resetAt clientId s :
  exists a1 a2,
    (getRateLimitStatus envD envC (logged st) today resetAt clientId (s, [])).2.2
    = [EGet (dailyKey clientId today) a1; EGet (concurrentKey clientId) a2].
Proof.
  unfold getRateLimitStatus, both, read_count, bind, ret.
  cbn [get logged]. unfold record. cbn beta iota zeta.
  destruct (get st (dailyKey clientId today) s) as [[v1|e1] s1]; cbn beta iota zeta;
    destruct (get st (concurrentKey clientId) s1) as [[v2|e2] s2]; cbn;
    by eauto.
Qed.

(** The answer of an admission check on the in-process limiter depends on
    two stored values only: the tenant's daily count and the tenant's slot
    count. *)
Lemma check_answer envD envC today clientId m :
  (checkRateLimit envD envC memoryStore today clientId m).1
  = Resolved
      (negb (JS.gt (Some (current m (dailyKey clientId today) + 1)) (DAILY_LIMIT envD))
       && negb (at_concurrent_limit envC
                  (JS.toString <$> counters m !! concurrentKey clientId))).
Proof.
  pose proof (RateLimitFacts.dailyKey_not_concurrent clientId today clientId) as Hne.
  unfold checkRateLimit, checkRateLimit_body, try_catch, bind, ret.
  cbn [incr decr get expire memoryStore]. unfold mem_incr. cbn [fst snd].
  set (n := current m (dailyKey clientId today) + 1).
  destruct (n =? 1); cbn [mem_expire fst snd];
    (destruct (JS.gt (Some n) (DAILY_LIMIT envD)); cbn [negb andb];
     [reflexivity|]);
    unfold mem_get; cbn [fst snd counters];
    rewrite lookup_insert_ne by done;
    by destruct (at_concurrent_limit _ _).
Qed.

Ltac after_decr H :=
  match goal with
  | |- context [mem_decr ?k ?s] =>
      let H' := fresh in
      pose proof (H s eq_refl) as H';
      destruct (mem_decr k s) as [[?|?] ?]; exact H'
  end.

(** The only counter an admission check can change is the daily counter of
    the tenant and day it is made for. *)
Lemma check_changes_daily_only envD envC today clientId m key :
  key <> dailyKey clientId today ->
  counters (checkRateLimit envD envC memoryStore today clientId m).2 !! key
  = counters m !! key.
Proof.
  intros Hne.
  unfold checkRateLimit, checkRateLimit_body, try_catch, bind, ret.
  cbn [incr decr get expire memoryStore]. unfold mem_incr. cbn [fst snd].
  set (n := current m (dailyKey clientId today) + 1).
  assert (Hdecr : forall s,
    counters s = <[dailyKey clientId today := n]> (counters m) ->
    counters (mem_decr (dailyKey clientId today) s).2 !! key = counters m !! key).
  { intros s Hs. unfold mem_decr. cbn [snd counters]. rewrite Hs.
    destruct (_ =? 0).
    - rewrite lookup_delete_ne, lookup_insert_ne; done.
    - rewrite !lookup_insert_ne; done. }
  destruct (n =? 1); cbn [mem_expire fst snd];
    (destruct (JS.gt (Some n) (DAILY_LIMIT envD)); [by after_decr Hdecr|]);
    unfold mem_get; cbn [fst snd];
    (destruct (at_concurrent_limit _ _);
     [by after_decr Hdecr | cbn; by rewrite lookup_insert_ne ]).
Qed.

Lemma append_cons c (a b : string) : String c a +:+ b = String c (a +:+ b).
Proof. reflexivity. Qed.

Lemma length_append (a b : string) :
  String.length (a +:+ b) = (String.length a + String.length b)%nat.
Proof.
  induction a as [|c a IH]; [reflexivity|].
  rewrite append_cons. cbn [String.length]. by rewrite IH.
Qed.

Lemma append_inv_tail (a b s : string) : a +:+ s = b +:+ s -> a = b.
Proof.
  revert b. induction a as [|c a IH]; intros [|d b] H.
  - done.
  - apply (f_equal String.length) in H.
    rewrite append_cons in H. cbn [String.length] in H.
    change ("" +:+ s) with s in H. rewrite length_append in H. lia.
  - apply (f_equal String.length) in H.
    rewrite append_cons in H. cbn [String.length] in H.
    change ("" +:+ s) with s in H. rewrite length_append in H. lia.
  - rewrite !append_cons in H. injection H as -> H. f_equal. by apply IH.
Qed.

Lemma dailyKey_inj clientId clientId' today :
  dailyKey clientId today = dailyKey clientId' today -> clientId = clientId'.
Proof.
  unfold dailyKey. intros H.
  apply (inj (String.app "rate:daily:")) in H.
  by apply append_inv_tail in H.
Qed.

(** X6. Tenants do not interfere: an admission check for one tenant leaves the
    daily count and the slot count of every other tenant as they were, and
    so does not change the answer the other tenant gets. *)
Theorem tenants_are_isolated envD envC today clientId other m :
  clientId <> other ->
  let after := (checkRateLimit envD envC memoryStore today clientId m).2 in
  current after (dailyKey other today) = current m (dailyKey other today) /\
  current after (concurrentKey other) = current m (concurrentKey other) /\
  (checkRateLimit envD envC memoryStore today other after).1
  = (checkRateLimit envD envC memoryStore today other m).1.
Proof.
  intros Hne after.
  assert (Hd : counters after !! dailyKey other today
               = counters m !! dailyKey other today).
  { apply check_changes_daily_only. intros H. by apply dailyKey_inj in H. }
  assert (Hc : counters after !! concurrentKey other
               = counters m !! concurrentKey other).
  { apply check_changes_daily_only. intros H. symmetry in H.
    by apply RateLimitFacts.dailyKey_not_concurrent in H. }
  split; [|split].
  - unfold current. by rewrite Hd.
  - unfold current. by rewrite Hc.
  - rewrite !check_answer. unfold current. by rewrite Hd, Hc.
Qed.

Lemma tenants_are_isolated_witness :
  "acme" <> "globex" /\
  current (checkRateLimit None None memoryStore "2024-01-15" "acme" empty_limiter).2
          (dailyKey "globex" "2024-01-15")
  = current empty_limiter (dailyKey "globex" "2024-01-15").
Proof.
  assert (H : "acme" <> "globex") by discriminate.
  split; [exact H|].
  exact (proj1 (tenants_are_isolated None None "2024-01-15" "acme" "globex"
                  empty_limiter H)).
Defined.

End LimiterFacts.

(* ===================================================================== *)
(** ** The cache service over the in-process cache *)
(* ===================================================================== *)

Module CacheServiceFacts.
Import Cache CacheDecorator.

Lemma elapse_lookup_live {V} (m : MemoryCache V) key entry due ms :
  cache m !! key = Some entry ->
  timers m !! key = Some due ->
  now m + ms < due ->
  cache (elapse ms m) !! key = Some entry.
Proof.
  intros Hc Ht Hms. cbn.
  apply map_lookup_filter_Some. split; [done|]. cbn.
  apply map_lookup_filter_None. right. intros due' Hdue.
  rewrite Ht in Hdue. injection Hdue as <-. cbn. lia.
Qed.

Lemma elapse_lookup_due {V} (m : MemoryCache V) key due ms :
  timers m !! key = Some due ->
  due <= now m + ms ->
  cache (elapse ms m) !! key = None.
Proof.
  intros Ht Hms. cbn.
  apply map_lookup_filter_None. right. intros entry _. cbn.
  intros Hnone.
  apply map_lookup_filter_None in Hnone as [Hnone | Hnone].
  - by rewrite Ht in Hnone.
  - by apply (Hnone due Ht).
Qed.

Section Memory.

Variable env_ENABLE_CACHE : option string.
Context {V : Type} `{!JSValue V}.
Variable JSON_parse : string -> outcome (option V).
Variable JSON_stringify : V -> outcome string.
Variable prefix : string.

Local Abbreviation cache_get :=
  (get env_ENABLE_CACHE (memoryClient (V := V)) JSON_parse prefix).
Local Abbreviation cache_set :=
  (set env_ENABLE_CACHE (memoryClient (V := V)) JSON_stringify prefix).
Local Abbreviation cache_invalidate :=
  (invalidate (memoryClient (V := V)) prefix).

(** What [get] makes of an answer of the backend: a string is parsed,
    and is [null] when it is empty or does not parse; another truthy value
    is returned as it is; [null] and the other falsy values give [null]. *)
Local Abbreviation served answer :=
  (match answer with
   | ObjVal v => Some v
   | StrVal s =>
       if JS.truthy s
       then match JSON_parse s with
            | Resolved parsed => parsed
            | Rejected _ => None
            end
       else None
   | FalsyVal _ | Nullish => None
   end).

Lemma get_memory namespace keyData (m : MemoryCache V) :
  cache_disabled env_ENABLE_CACHE = false ->
  cache_get namespace keyData m
  = let '(answer, m') := mc_get (generateKey prefix namespace keyData) m in
    (match answer with
     | Resolved cached => Resolved (served cached)
     | Rejected _ => Resolved None
     end, m').
Proof.
  intros Hon. unfold get, try_catch, bind, ret, lift. rewrite Hon.
  cbn [c_get memoryClient]. unfold mc_get.
  destruct (cache m !! _) as [[v e]|]; [|done].
  destruct (JS.gt _ e); [done|].
  destruct (js_view v) as [|str|v'|v']; try done.
  destruct (JS.truthy str); [|done].
  by destruct (JSON_parse str).
Qed.

Lemma set_memory namespace keyData value ttl (m : MemoryCache V) :
  cache_disabled env_ENABLE_CACHE = false ->
  cache_set namespace keyData value ttl m
  = mc_set (generateKey prefix namespace keyData) value
      (ttlSeconds namespace ttl) m.
Proof.
  intros Hon. unfold set, try_catch, write_through. by rewrite Hon.
Qed.

(** X7. What a read of the in-process cache returns [ms] milliseconds after
    a write, from any earlier state of the cache, and so also when the key
    held another value with another deadline before.  The entry is there
    as long as its cleanup timer has not fired and its expiry has not
    passed; the timer waits for the time to live, but for one millisecond
    when the time to live is not a number or its milliseconds are outside
    the range of [setTimeout].  While the entry is there the read returns
    what [get] makes of the value: the value itself when it is truthy and
    not a string, the parse of a string, [null] for a falsy value; after
    that it returns [null].  So an object stored with a time to live in
    the range can be read back for exactly that time. *)
Theorem cache_entry_lifetime namespace keyData value ttl ms (m : MemoryCache V) :
  cache_disabled env_ENABLE_CACHE = false ->
  0 <= ms ->
  let lifetime := times (ttlSeconds namespace ttl) (Some 1000) in
  let later := elapse ms (cache_set namespace keyData value ttl m).2 in
  (cache_get namespace keyData later).1
  = Resolved (if (ms <? timer_delay lifetime) && negb (JS.gt (Some ms) lifetime)
              then served (js_view value)
              else None) /\
  (forall seconds,
     ttlSeconds namespace ttl = Some seconds ->
     timer_range seconds ->
     js_view value = ObjVal value ->
     (cache_get namespace keyData later).1
     = Resolved (if ms <? seconds * 1000 then Some value else None)).
Proof.
  intros Hon Hms lifetime later.
  assert (Hgeneral : (cache_get namespace keyData later).1
    = Resolved (if (ms <? timer_delay lifetime)
                   && negb (JS.gt (Some ms) lifetime)
                then served (js_view value)
                else None)).
  { subst later. rewrite set_memory, get_memory by done.
    set (key := generateKey prefix namespace keyData).
    set (after := (mc_set key value (ttlSeconds namespace ttl) m).2).
    assert (Hentry : cache after !! key
                     = Some (value, plus (Some (now m)) lifetime))
      by (cbn; by rewrite lookup_insert_eq).
    assert (Htimer : timers after !! key
                     = Some (now m + timer_delay lifetime))
      by (cbn; by rewrite lookup_insert_eq).
    unfold mc_get.
    destruct (Z.ltb_spec ms (timer_delay lifetime)) as [Hlive|Hdue];
      cbn [andb].
    - rewrite (elapse_lookup_live after key _ _ ms Hentry Htimer)
        by (cbn; lia).
      change (now (elapse ms after)) with (now m + ms).
      assert (Hgt : JS.gt (Some (now m + ms)) (plus (Some (now m)) lifetime)
                    = JS.gt (Some ms) lifetime).
      { destruct lifetime as [l|]; [|done]. cbn.
        destruct (Z.ltb_spec (now m + l) (now m + ms)),
                 (Z.ltb_spec l ms); done || lia. }
      rewrite Hgt. destruct (JS.gt (Some ms) lifetime); [done|].
      cbn [negb fst]. by destruct (js_view value).
    - by rewrite (elapse_lookup_due after key _ ms Htimer) by (cbn; lia). }
  split; [exact Hgeneral|].
  intros seconds Hseconds Hrange Hobject.
  rewrite Hgeneral. subst lifetime. rewrite Hseconds, Hobject.
  rewrite CacheFacts.timer_delay_range by done. cbn [times JS.gt].
  destruct (Z.ltb_spec ms (seconds * 1000)); [|done].
  by destruct (Z.ltb_spec (seconds * 1000) ms); [lia|].
Qed.

(** X8. Invalidating a key makes the next read of it miss, whatever the cache
    held, and removes the entry together with its cleanup timer. *)
Theorem invalidate_forgets namespace keyData (m : MemoryCache V) :
  let key := generateKey prefix namespace keyData in
  let after := (cache_invalidate namespace keyData m).2 in
  (cache_get namespace keyData after).1 = Resolved None /\
  cache after !! key = None /\ timers after !! key = None.
Proof.
  intros key after.
  assert (Hc : cache after !! key = None) by (cbn; by rewrite lookup_delete_eq).
  split; [|split; [done | cbn; by rewrite lookup_delete_eq]].
  unfold get, try_catch, bind, ret.
  destruct (cache_disabled _); [done|].
  cbn [c_get memoryClient]. unfold mc_get. fold key. by rewrite Hc.
Qed.

(** X9. Writing or invalidating one key does not change what a read of a
    different key returns. *)
Theorem cache_keys_independent namespace keyData value ttl
    namespace' keyData' (m : MemoryCache V) :
  generateKey prefix namespace keyData
    <> generateKey prefix namespace' keyData' ->
  (cache_get namespace' keyData'
     (cache_set namespace keyData value ttl m).2).1
  = (cache_get namespace' keyData' m).1 /\
  (cache_get namespace' keyData'
     (cache_invalidate namespace keyData m).2).1
  = (cache_get namespace' keyData' m).1.
Proof.
  intros Hne.
  destruct (cache_disabled env_ENABLE_CACHE) eqn:Hon.
  { unfold get. by rewrite Hon. }
  rewrite set_memory by done. rewrite !get_memory by done.
  unfold mc_get. cbn [mc_set invalidate try_catch c_del memoryClient mc_del
    snd fst cache now].
  rewrite lookup_insert_ne, lookup_delete_ne by done.
  destruct (cache m !! _) as [[v e]|]; [|done].
  by destruct (JS.gt _ e).
Qed.

End Memory.

Lemma cache_entry_lifetime_witness :
  (get None (memoryClient (V := Z)) (fun _ => Resolved None) "cache" "JOB_SEARCH"
     Fixture.query_ab
     (elapse 1799999
        (set None memoryClient (fun _ => Resolved "7") "cache" "JOB_SEARCH"
           Fixture.query_ab 7 None (empty_cache 0)).2)).1
  = Resolved (Some 7).
Proof.
  apply (proj2 (cache_entry_lifetime None (fun _ => Resolved None)
                  (fun _ => Resolved "7") "cache" "JOB_SEARCH"
                  Fixture.query_ab 7 None 1799999 (empty_cache 0)
                  eq_refl ltac:(lia))
           1800).
  - reflexivity.
  - unfold timer_range. lia.
  - reflexivity.
Defined.

Lemma cache_keys_independent_witness :
  generateKey "cache" "JOB_SEARCH" Fixture.query_ab
    <> generateKey "cache" "OSINT" Fixture.query_ab /\
  (get None (memoryClient (V := Z)) (fun _ => Resolved None) "cache" "OSINT"
     Fixture.query_ab
     (set None memoryClient (fun _ => Resolved "7") "cache" "JOB_SEARCH"
        Fixture.query_ab 7 None (empty_cache 0)).2).1
  = Resolved None.
Proof.
  assert (H : generateKey "cache" "JOB_SEARCH" Fixture.query_ab
              <> generateKey "cache" "OSINT" Fixture.query_ab)
    by (vm_compute; discriminate).
  split; [exact H|].
  exact (proj1 (cache_keys_independent None (fun _ => Resolved None)
                  (fun _ => Resolved "7") "cache" "JOB_SEARCH"
                  Fixture.query_ab 7 None "OSINT" Fixture.query_ab
                  (empty_cache 0) H)).
Defined.

(** X10. With [ENABLE_CACHE] set to ["false"], reading and writing send nothing
    to the cache backend: a read answers [null], a write returns at once,
    and the backend is left as it was.  Invalidation is not switched off:
    it still sends its delete. *)
Theorem disabled_cache_sends_nothing {S V} (cl : CacheClient S V)
    JSON_parse JSON_stringify prefix namespace keyData value ttl s :
  get (Some "false") (logged cl) JSON_parse prefix namespace keyData (s, [])
  = (Resolved None, (s, [])) /\
  set (Some "false") (logged cl) JSON_stringify prefix namespace keyData
      value ttl (s, [])
  = (Resolved tt, (s, [])) /\
  exists answer,
    (invalidate (logged cl) prefix namespace keyData (s, [])).2.2
    = [EDel (generateKey prefix namespace keyData) answer].
Proof.
  split; [reflexivity|]. split; [reflexivity|].
  unfold invalidate, try_catch, ret. cbn [c_del logged]. unfold record.
  cbn beta iota zeta.
  destruct (c_del cl _ s) as [[[]|e] s1]; cbn; by eauto.
Qed.

Section Decorated.

Variable env_ENABLE_CACHE : option string.
Context {V : Type} `{!JSValue V}.
Variable JSON_parse : string -> outcome (option V).
Variable JSON_stringify : V -> outcome string.

Local Abbreviation decorated :=
  (Cacheable env_ENABLE_CACHE (memoryClient (V := V)) JSON_parse JSON_stringify).
Local Abbreviation lookup namespace propertyKey args :=
  (get env_ENABLE_CACHE (memoryClient (V := V)) JSON_parse "cache" namespace
     (keyData propertyKey args)).

(** X11. A decorated method memoises results that are truthy and not
    strings, for a time to live in the range of [setTimeout]: when a call
    misses the in-process cache and the method resolves with such a
    result, the result is returned and stored under the method name and
    the arguments, and for the time to live every call with the same name
    and arguments returns that result without running the method, whatever
    the method now is, and leaves the state as it is.  A result that is
    falsy is never served from the cache: the lookup of every later call
    misses, so the method runs again. *)
Theorem cacheable_memoises namespace ttl propertyKey
    (method : list JSON.value -> Async (MemoryCache V) V) args
    (m m1 : MemoryCache V) (result : V) (ms : Z) :
  cache_disabled env_ENABLE_CACHE = false ->
  (lookup namespace propertyKey args m).1 = Resolved None ->
  method args (lookup namespace propertyKey args m).2 = (Resolved result, m1) ->
  0 <= ms ->
  let first := decorated namespace ttl propertyKey method args m in
  first.1 = Resolved result /\
  (forall seconds,
     ttlSeconds namespace ttl = Some seconds ->
     timer_range seconds ->
     js_view result = ObjVal result ->
     ms < seconds * 1000 ->
     forall method',
       decorated namespace ttl propertyKey method' args (elapse ms first.2)
       = (Resolved result, elapse ms first.2)) /\
  (truthy (js_view result) = false ->
   (lookup namespace propertyKey args (elapse ms first.2)).1 = Resolved None).
Proof.
  intros Hon Hmiss Hrun Hms first.
  assert (Hfirst : first
    = (Resolved result,
       (set env_ENABLE_CACHE memoryClient JSON_stringify "cache" namespace
          (keyData propertyKey args) result ttl m1).2)).
  { subst first. unfold Cacheable, bind, ret.
    destruct (get _ _ _ _ _ _ m) as [c m0]. cbn in Hmiss, Hrun.
    rewrite Hmiss, Hrun.
    pose proof (CacheFacts.set_resolves env_ENABLE_CACHE memoryClient
                  JSON_stringify "cache" namespace (keyData propertyKey args)
                  result ttl m1) as Hset.
    destruct (set _ _ _ _ _ _ _ _ m1) as [o m2]. cbn in Hset. by rewrite Hset. }
  rewrite Hfirst. cbn [fst snd]. rewrite set_memory by done.
  set (key := generateKey "cache" namespace (keyData propertyKey args)).
  set (lifetime := times (ttlSeconds namespace ttl) (Some 1000)).
  set (after := (mc_set key result (ttlSeconds namespace ttl) m1).2).
  assert (Hentry : cache after !! key
                   = Some (result, plus (Some (now m1)) lifetime))
    by (cbn; by rewrite lookup_insert_eq).
  assert (Htimer : timers after !! key = Some (now m1 + timer_delay lifetime))
    by (cbn; by rewrite lookup_insert_eq).
  split; [done|]. split.
  - intros seconds Hseconds Hrange Hobject Hlive method'.
    unfold Cacheable, bind, ret. rewrite get_memory by done. fold key.
    unfold mc_get.
    assert (Hdelay : timer_delay lifetime = seconds * 1000).
    { subst lifetime. rewrite Hseconds.
      by apply CacheFacts.timer_delay_range. }
    rewrite (elapse_lookup_live after key _ _ ms Hentry Htimer)
      by (cbn; lia).
    change (now (elapse ms after)) with (now m1 + ms).
    subst lifetime. rewrite Hseconds. cbn [times plus JS.gt].
    destruct (Z.ltb_spec (now m1 + seconds * 1000) (now m1 + ms)); [lia|].
    by rewrite Hobject.
  - intros Hfalsy. rewrite get_memory by done. fold key. unfold mc_get.
    destruct (cache (elapse ms after) !! key) as [[v e]|] eqn:Hlook; [|done].
    assert (Hv : v = result).
    { cbn in Hlook. apply map_lookup_filter_Some in Hlook as [Hlook _].
      rewrite lookup_insert_eq in Hlook. by injection Hlook as <- _. }
    subst v. destruct (JS.gt _ e); [done|]. cbn [fst].
    destruct (js_view result) as [|str|v'|v']; try done.
    cbn in Hfalsy. by rewrite Hfalsy.
Qed.

End Decorated.

(** X12. The cache never changes what a decorated method answers on a miss:
    whatever the backend does, failing reads and failing writes included,
    a call that finds nothing cached resolves or rejects exactly as the
    method itself does, and a call that finds a value returns it without
    running the method. *)
Theorem cacheable_transparent {S V} env (cl : CacheClient S V)
    JSON_parse JSON_stringify namespace ttl propertyKey
    (method : list JSON.value -> Async S V) args s :
  let looked := get env cl JSON_parse "cache" namespace
                  (keyData propertyKey args) s in
  let call := Cacheable env cl JSON_parse JSON_stringify namespace ttl
                propertyKey method args s in
  match looked.1 with
  | Resolved (Some hit) => call = (Resolved hit, looked.2)
  | _ => call.1 = (method args looked.2).1
  end.
Proof.
  intros looked call. subst looked call.
  pose proof (CacheFacts.get_resolves env cl JSON_parse "cache" namespace
                (keyData propertyKey args) s) as Hget.
  unfold Cacheable, bind, ret.
  destruct (get _ _ _ _ _ _ s) as [[[hit|]|e] s1]; cbn [fst snd] in *;
    [done| |done].
  destruct (method args s1) as [[result|e] s2]; [|done].
  pose proof (CacheFacts.set_resolves env cl JSON_stringify "cache" namespace
                (keyData propertyKey args) result ttl s2) as Hset.
  destruct (set _ _ _ _ _ _ _ _ s2) as [o s3]. cbn in Hset. by rewrite Hset.
Qed.

Lemma cacheable_memoises_witness :
  (Cacheable None (memoryClient (V := Z)) (fun _ => Resolved None)
     (fun _ => Resolved "7") "OSINT" None "lookup"
     (fun _ => ret 7) [JSON.Str "acme.com"] (empty_cache 0)).1
  = Resolved 7.
Proof.
  refine (proj1 (cacheable_memoises None (fun _ => Resolved None)
                   (fun _ => Resolved "7") "OSINT" None "lookup"
                   (fun _ => ret 7) [JSON.Str "acme.com"]
                   (empty_cache 0) (empty_cache 0) 7 1000 _ _ _ _)).
  - reflexivity.
  - reflexivity.
  - reflexivity.
  - lia.
Defined.

End CacheServiceFacts.

(* ===================================================================== *)
(** ** Grouping, ranking and the orchestration of a search *)
(* ===================================================================== *)

Module SearchFacts.
Import Horsemen Engine.

(** *** Insertion-ordered maps *)

Lemma get_set_eq {A} key (v : A) m :
  OrderedMap.get key (OrderedMap.set key v m) = Some v.
Proof.
  induction m as [|[k x] rest IH]; cbn.
  - by rewrite String.eqb_refl.
  - destruct (String.eqb k key) eqn:E; cbn; by rewrite E.
Qed.

Lemma get_set_ne {A} key key' (v : A) m :
  key <> key' ->
  OrderedMap.get key' (OrderedMap.set key v m) = OrderedMap.get key' m.
Proof.
  intros Hne. induction m as [|[k x] rest IH]; cbn.
  - destruct (String.eqb_spec key key'); done.
  - destruct (String.eqb_spec k key) as [->|Hk]; cbn.
    + by destruct (String.eqb_spec key key').
    + by rewrite IH.
Qed.

Lemma get_None_keys {A} key (m : OrderedMap.t A) :
  OrderedMap.get key m = None <-> key ∉ m.*1.
Proof.
  induction m as [|[k x] rest IH]; cbn.
  - split; [intros _ H; by apply elem_of_nil in H | done].
  - destruct (String.eqb_spec k key) as [->|Hk].
    + split; [done | intros H; exfalso; apply H; by left].
    + rewrite IH, not_elem_of_cons.
      split; [intros H; split; [congruence | done] | by intros [_ H]].
Qed.

Lemma set_keys {A} key (v : A) m :
  (OrderedMap.set key v m).*1
  = match OrderedMap.get key m with
    | Some _ => m.*1
    | None => (m.*1 ++ [key])%list
    end.
Proof.
  induction m as [|[k x] rest IH]; cbn; [done|].
  destruct (String.eqb_spec k key) as [->|Hk]; cbn; [done|].
  rewrite IH. by destruct (OrderedMap.get key rest).
Qed.

Lemma set_keys_NoDup {A} key (v : A) m :
  NoDup m.*1 -> NoDup (OrderedMap.set key v m).*1.
Proof.
  intros Hm. rewrite set_keys.
  destruct (OrderedMap.get key m) eqn:E; [done|].
  apply get_None_keys in E.
  apply NoDup_app. split; [done|].
  split; [|apply NoDup_singleton].
  intros x Hx Hx'. apply list_elem_of_singleton in Hx'. by subst x.
Qed.

Lemma get_Some_elem {A} key (v : A) m :
  OrderedMap.get key m = Some v -> (key, v) ∈ m.
Proof.
  induction m as [|[k x] rest IH]; cbn; [done|].
  destruct (String.eqb_spec k key) as [->|Hk].
  - intros [= ->]. by left.
  - intros H. right. by apply IH.
Qed.

Lemma elem_get_Some {A} key (v : A) m :
  NoDup m.*1 -> (key, v) ∈ m -> OrderedMap.get key m = Some v.
Proof.
  induction m as [|[k x] rest IH]; cbn; [by intros _ ?%elem_of_nil|].
  intros Hnd H. apply NoDup_cons in Hnd as [Hk Hrest].
  apply elem_of_cons in H as [H|H].
  - injection H as -> ->. by rewrite String.eqb_refl.
  - destruct (String.eqb_spec k key) as [->|Hne]; [|by apply IH].
    exfalso. apply Hk. change key with (fst (key, v)).
    by apply list_elem_of_fmap_2.
Qed.

(** *** [companiesMap] *)

(** The postings of one company, in the order of the search result. *)
Local Abbreviation postings_of c jobPostings :=
  (List.filter (fun job => String.eqb (company job) c) jobPostings).

Local Abbreviation add_posting :=
  (fun (companiesMap : OrderedMap.t (list JobPosting)) job =>
     OrderedMap.set (company job)
       (default [] (OrderedMap.get (company job) companiesMap) ++ [job])%list
       companiesMap).

Lemma grouping_get c jobPostings : forall companiesMap,
  OrderedMap.get c (fold_left add_posting jobPostings companiesMap)
  = match OrderedMap.get c companiesMap, postings_of c jobPostings with
    | None, [] => None
    | None, found => Some found
    | Some before, found => Some (before ++ found)%list
    end.
Proof.
  induction jobPostings as [|job rest IH]; intros companiesMap; cbn [fold_left List.filter].
  - destruct (OrderedMap.get c companiesMap); [by rewrite app_nil_r | done].
  - rewrite IH.
    destruct (String.eqb_spec (company job) c) as [->|Hne].
    + rewrite get_set_eq.
      destruct (OrderedMap.get c companiesMap) as [before|]; cbn [default].
      * by rewrite <- app_assoc.
      * done.
    + by rewrite get_set_ne.
Qed.

Lemma grouping_NoDup jobPostings : forall companiesMap,
  NoDup companiesMap.*1 ->
  NoDup (fold_left add_posting jobPostings companiesMap).*1.
Proof.
  induction jobPostings as [|job rest IH]; intros companiesMap Hnd; [done|].
  cbn [fold_left]. apply IH. by apply set_keys_NoDup.
Qed.

(** X13. Grouping the postings by company is a partition: every company name
    is a key once, and what is filed under a name is the non-empty list
    of all the postings of that company, in the order of the search
    result. *)
Theorem group_by_company_partitions (jobPostings : list JobPosting) :
  let companiesMap := group_by_company jobPostings in
  NoDup companiesMap.*1 /\
  (forall c, OrderedMap.get c companiesMap
             = match postings_of c jobPostings with
               | [] => None
               | found => Some found
               end) /\
  (forall c found, (c, found) ∈ companiesMap <->
                   found <> [] /\ found = postings_of c jobPostings).
Proof.
  intros companiesMap.
  assert (Hnd : NoDup companiesMap.*1).
  { apply (grouping_NoDup jobPostings []). constructor. }
  assert (Hget : forall c, OrderedMap.get c companiesMap
             = match postings_of c jobPostings with
               | [] => None
               | found => Some found
               end).
  { intros c. unfold companiesMap, group_by_company.
    by rewrite (grouping_get c jobPostings []). }
  split; [done|]. split; [done|].
  intros c found. split.
  - intros Hin. apply elem_get_Some in Hin; [|done].
    rewrite Hget in Hin.
    destruct (postings_of c jobPostings); [done|].
    injection Hin as <-. done.
  - intros [Hne ->]. apply get_Some_elem. rewrite Hget.
    by destruct (postings_of c jobPostings).
Qed.

(** *** The ten companies with the most postings *)

Local Abbreviation by_postings :=
  (fun a b : string * list JobPosting =>
     inject_Z (Z.of_nat (length b.2) - Z.of_nat (length a.2))).
Local Abbreviation no_fewer :=
  (fun a b : string * list JobPosting => (length b.2 <= length a.2)%nat).

Lemma by_postings_le a b :
  Qle_bool (by_postings a b) 0 = true <-> (length b.2 <= length a.2)%nat.
Proof.
  rewrite Qle_bool_iff. change 0%Q with (inject_Z 0). rewrite <- Zle_Qle. lia.
Qed.

Lemma insert_no_fewer x l :
  StronglySorted no_fewer l ->
  StronglySorted no_fewer (JSArray.insert by_postings x l).
Proof.
  induction 1 as [|y rest Hsorted IH Hall]; cbn [JSArray.insert].
  - repeat constructor.
  - destruct (Qle_bool (by_postings x y) 0) eqn:Hle.
    + apply by_postings_le in Hle.
      constructor; [by constructor|].
      constructor; [done|].
      eapply Forall_impl; [exact Hall|]. cbn. intros z Hz. lia.
    + assert (Hlt : (length x.2 < length y.2)%nat).
      { destruct (Nat.le_gt_cases (length y.2) (length x.2)) as [Hc|Hc]; [|done].
        apply by_postings_le in Hc. congruence. }
      constructor; [done|].
      rewrite (HorsemenFacts.insert_perm by_postings x rest).
      constructor; [cbn; lia | done].
Qed.

Lemma sort_no_fewer l : StronglySorted no_fewer (JSArray.sort by_postings l).
Proof.
  induction l as [|x rest IH]; cbn; [constructor|].
  by apply insert_no_fewer.
Qed.

(** X14. The companies chosen for analysis are the ten with the most postings,
    or all of them when there are fewer: they are entries of the map, they
    come in descending order of the number of postings, and no company
    left out has more postings than one that was chosen. *)
Theorem top_companies_largest (companiesMap : OrderedMap.t (list JobPosting)) :
  let topCompanies := top_companies companiesMap in
  length topCompanies = Nat.min 10 (length companiesMap) /\
  StronglySorted no_fewer topCompanies /\
  exists others,
    Permutation companiesMap (topCompanies ++ others) /\
    forall chosen other, chosen ∈ topCompanies -> other ∈ others ->
                         (length other.2 <= length chosen.2)%nat.
Proof.
  intros topCompanies. subst topCompanies. unfold top_companies, OrderedMap.entries.
  set (sorted := JSArray.sort by_postings companiesMap).
  pose proof (sort_no_fewer companiesMap) as Hsorted. fold sorted in Hsorted.
  pose proof (HorsemenFacts.sort_perm by_postings companiesMap) as Hperm.
  fold sorted in Hperm.
  rewrite <- (take_drop 10 sorted) in Hsorted.
  split; [|split].
  - rewrite length_take. by rewrite Hperm.
  - by apply StronglySorted_app_1_l in Hsorted.
  - exists (drop 10 sorted). split.
    + by rewrite take_drop.
    + intros chosen other Hc Ho.
      by apply (StronglySorted_app_1_elem_of _ _ _ chosen other Hsorted).
Qed.

(** *** Deep research and opportunity search *)

Section Orchestration.

Variable searchJobBoards : string -> option string -> outcome (list JobPosting).
Variable collectOsintContext : string -> string -> string -> outcome OsintContext.
Variable brodyPass karenPass durinPass : OsintContext -> outcome (list Finding).
Variable URL_hostname : string -> outcome string.
Variable env_LLM_PROVIDER : option string.
Variable analyzeContext : OsintContext -> string -> outcome string.
Variable verifyPrompt : list Finding -> string.
Variable synthesisPrompt : OsintContext -> list Finding -> string.
Variable scoreMatch : string -> option string.
Variable today : string.
Variable env_ENABLE_CACHE : option string.
Variable JSON_parse : string -> outcome (option ResearchResult).
Variable JSON_stringify : ResearchResult -> outcome string.

Local Abbreviation deep S :=
  (runDeepResearch (S := S) collectOsintContext brodyPass karenPass durinPass
     env_LLM_PROVIDER analyzeContext verifyPrompt synthesisPrompt
     scoreMatch today).
Local Abbreviation companies S :=
  (analyze_companies (S := S) collectOsintContext brodyPass karenPass durinPass
     URL_hostname env_LLM_PROVIDER analyzeContext verifyPrompt synthesisPrompt
     scoreMatch today).
Local Abbreviation search S cl :=
  (searchOpportunities (S := S) searchJobBoards collectOsintContext
     brodyPass karenPass durinPass URL_hostname env_LLM_PROVIDER
     analyzeContext verifyPrompt synthesisPrompt scoreMatch today
     env_ENABLE_CACHE cl JSON_parse JSON_stringify).

Lemma kevinPass_resolves context preliminary :
  is_resolved (kevinPass env_LLM_PROVIDER analyzeContext verifyPrompt
                 context preliminary) = true.
Proof.
  unfold kevinPass, kevinPassEnhanced.
  destruct (llm_configured _); [|done].
  by destruct (analyzeContext _ _).
Qed.

Lemma pinkoPass_resolves context verified :
  is_resolved (pinkoPass env_LLM_PROVIDER analyzeContext synthesisPrompt
                 scoreMatch today context verified) = true.
Proof.
  unfold pinkoPass, pinkoPassEnhanced.
  destruct (llm_configured _); [|done].
  by destruct (analyzeContext _ _).
Qed.

(** X15. Deep research fails in two ways only.  A rejection is either
    the validation error, and then neither a company name nor a company
    URL was given, or the error of the service ["Research Engine"], and
    then it comes from the collection of the evidence or from one of the
    first three passes: when these four resolve the research resolves,
    whatever the language-model calls of verification and synthesis do. *)
Theorem runDeepResearch_failures {S} request (s : S) e :
  (deep S request s).1 = Rejected e ->
  (e = ValidationError "Either companyName or companyUrl is required" /\
   given (req_companyName request) = false /\
   given (companyUrl request) = false)
  \/
  (e = ExternalServiceError "Research Engine" /\
   (given (req_companyName request) || given (companyUrl request)) = true /\
   match collectOsintContext (JS.or_default (req_companyName request) "")
           (JS.or_default (companyUrl request) "")
           (JS.or_default (companyUrl request) "") with
   | Rejected _ => True
   | Resolved context =>
       is_rejected (brodyPass context) || is_rejected (karenPass context)
       || is_rejected (durinPass context) = true
   end).
Proof.
  unfold runDeepResearch, runHorsemenAnalysis, try_catch, bind, lift, throw, ret.
  destruct (given (req_companyName request)), (given (companyUrl request));
    cbn [negb andb orb]; try (intros [= <-]; by left).
  all: destruct (collectOsintContext _ _ _) as [context|e0]; cbn [fst snd];
    [|intros [= <-]; by right].
  all: destruct (brodyPass context) as [b|?]; cbn [fst snd is_rejected orb];
    [|intros [= <-]; by right].
  all: destruct (karenPass context) as [k|?]; cbn [fst snd is_rejected orb];
    [|intros [= <-]; by right].
  all: destruct (durinPass context) as [d|?]; cbn [fst snd is_rejected orb];
    [|intros [= <-]; by right].
  all: pose proof (kevinPass_resolves context (b ++ k ++ d)) as Hk;
    destruct (kevinPass _ _ _ _ _) as [verified|?]; [|done]; cbn [fst snd].
  all: pose proof (pinkoPass_resolves context verified) as Hp;
    destruct (pinkoPass _ _ _ _ _ _ _) as [final|?]; [|done]; cbn [fst snd].
  all: done.
Qed.

(** What the loop over the top companies gathers, when it completes: one
    entry for each company, in the same order, with the postings of the
    company. *)
Lemma analyze_companies_gathers {S} request_notes top : forall acc (s : S) out,
  (companies S request_notes top acc s).1 = Resolved out ->
  map (fun c => (cf_company c, cf_jobs c)) out
  = (map (fun c => (cf_company c, cf_jobs c)) acc ++ top)%list.
Proof.
  induction top as [|[company jobs] rest IH]; intros acc s out.
  - cbn. intros [= <-]. by rewrite app_nil_r.
  - cbn [analyze_companies]. unfold bind at 1.
    destruct (_ s) as [[u|e] s1]; [|done].
    unfold bind at 1.
    destruct (deep S _ s1) as [[a|e] s2]; [|done].
    intros H. apply IH in H. rewrite H, map_app. cbn.
    by rewrite <- app_assoc.
Qed.

(** X16. A search that completes after missing the cache reports the most
    represented companies of what the job boards returned: its findings
    are one entry for each of the top companies, in ranking order, each
    with the postings of that company; the result is labelled with the
    requester and carries the keywords, location and notes of the
    request. *)
Theorem search_reports_top_companies {S} (cl : Cache.CacheClient S ResearchResult)
    request (s : S) result :
  (Cache.get env_ENABLE_CACHE cl JSON_parse "cache" "JOB_SEARCH"
     (cacheKey request) s).1 = Resolved None ->
  (search S cl request s).1 = Resolved result ->
  exists jobPostings found,
    searchJobBoards (default "" (keywords request)) (location request)
      = Resolved jobPostings /\
    findings result = Companies found /\
    map (fun c => (cf_company c, cf_jobs c)) found
      = top_companies (group_by_company jobPostings) /\
    (length found <= 10)%nat /\
    jobId result = JS.or_default (clientId request) "anonymous" /\
    model result = "opportunity-search" /\
    meta result = {| meta_keywords := keywords request;
                     meta_location := location request;
                     meta_notes := notes request |}.
Proof.
  intros Hmiss. unfold searchOpportunities, throw.
  destruct (given (keywords request)); cbn [negb]; [|done].
  unfold bind at 1.
  destruct (Cache.get _ _ _ _ _ _ s) as [c s1]. cbn in Hmiss. subst c.
  unfold bind at 1, lift.
  destruct (searchJobBoards _ _) as [jobPostings|e]; [|done].
  unfold bind at 1.
  destruct (companies S _ _ _ s1) as [[found|e] s2] eqn:Hrun; [|done].
  unfold bind, ret.
  destruct (Cache.set _ _ _ _ _ _ _ _ s2) as [[[]|e] s3]; [|done].
  cbn [fst]. intros [= <-]. exists jobPostings, found.
  assert (Hfound : map (fun c => (cf_company c, cf_jobs c)) found
                   = top_companies (group_by_company jobPostings)).
  { pose proof (analyze_companies_gathers (notes request)
                  (top_companies (group_by_company jobPostings)) [] s1 found) as H.
    rewrite Hrun in H. exact (H eq_refl). }
  repeat split; try done.
  rewrite <- (length_map (fun c => (cf_company c, cf_jobs c))), Hfound.
  unfold top_companies. rewrite length_take. lia.
Qed.

(** X17. A search that fails is not cached: when the search rejects, the cache
    backend has received at most the one read that missed, and no write. *)
Theorem failed_search_not_cached {S} (cl : Cache.CacheClient S ResearchResult)
    request (s : S) e :
  (search (S * list (Cache.event ResearchResult)) (Cache.logged cl)
          request (s, [])).1 = Rejected e ->
  forall ev,
    ev ∈ (search (S * list (Cache.event ResearchResult)) (Cache.logged cl)
                 request (s, [])).2.2 ->
    exists key answer, ev = Cache.EGet key answer.
Proof.
  unfold searchOpportunities, throw.
  destruct (given (keywords request)); cbn [negb];
    [|intros _ ev Hev; by apply elem_of_nil in Hev].
  assert (Hget : forall ev,
    ev ∈ (Cache.get env_ENABLE_CACHE (Cache.logged cl) JSON_parse "cache"
            "JOB_SEARCH" (cacheKey request) (s, [])).2.2 ->
    exists key answer, ev = Cache.EGet key answer).
  { unfold Cache.get, try_catch, bind, ret, lift.
    destruct (Cache.cache_disabled _);
      [intros ev Hev; by apply elem_of_nil in Hev|].
    cbn [Cache.c_get Cache.logged]. unfold Cache.record. cbn beta iota zeta.
    destruct (Cache.c_get cl _ s) as [answer s1].
    assert (Hlog : forall ev, ev ∈ [Cache.EGet (V := ResearchResult)
              (Cache.generateKey "cache" "JOB_SEARCH" (cacheKey request)) answer] ->
              exists key answer, ev = Cache.EGet key answer).
    { intros ev Hev. apply list_elem_of_singleton in Hev. by eauto. }
    destruct answer as [[|str|v|v]|e0]; cbn; try exact Hlog.
    destruct (JS.truthy str); [|exact Hlog].
    destruct (JSON_parse str) as [[?|]|?]; exact Hlog. }
  unfold bind, lift, ret.
  destruct (Cache.get _ _ _ _ _ _ (s, [])) as [[[hit|]|e0] s1]; cbn [fst snd] in *;
    [done| |by intros _].
  destruct (searchJobBoards _ _) as [jobPostings|e1]; [|by intros _].
  match goal with |- context [companies _ ?n ?t ?a s1] =>
    pose proof (EngineFacts.analyze_companies_state collectOsintContext
                  brodyPass karenPass durinPass URL_hostname env_LLM_PROVIDER
                  analyzeContext verifyPrompt synthesisPrompt scoreMatch today
                  n t a s1) as Hstate;
    destruct (companies _ n t a s1) as [[found|e2] s2] end;
    cbn [fst snd] in *; subst s2; [|by intros _].
  match goal with |- context [Cache.set ?a ?b ?c ?d ?e0 ?f ?g ?h s1] =>
    pose proof (CacheFacts.set_resolves a b c d e0 f g h s1) as Hset;
    destruct (Cache.set a b c d e0 f g h s1) as [o s3] end.
  cbn in Hset. by rewrite Hset.
Qed.

End Orchestration.

Lemma runDeepResearch_failures_witness :
  (runDeepResearch (S := unit) Fixture.collect_one_fails Fixture.brodyPass
     Fixture.no_findings Fixture.no_findings None Fixture.no_llm
     (fun _ => "") (fun _ _ => "") (fun _ => None) Fixture.today
     {| keywords := None; location := None;
        req_companyName := Some "Fail Corp"; companyUrl := None;
        notes := None; clientId := None; userId := None |} tt).1
  = Rejected (ExternalServiceError "Research Engine") /\
  is_rejected (Fixture.collect_one_fails "Fail Corp" "" "") = true.
Proof.
  assert (H : (runDeepResearch (S := unit) Fixture.collect_one_fails
                 Fixture.brodyPass Fixture.no_findings Fixture.no_findings
                 None Fixture.no_llm (fun _ => "") (fun _ _ => "")
                 (fun _ => None) Fixture.today
                 {| keywords := None; location := None;
                    req_companyName := Some "Fail Corp"; companyUrl := None;
                    notes := None; clientId := None; userId := None |} tt).1
              = Rejected (ExternalServiceError "Research Engine"))
    by reflexivity.
  split; [exact H|].
  destruct (runDeepResearch_failures Fixture.collect_one_fails
              Fixture.brodyPass Fixture.no_findings Fixture.no_findings
              None Fixture.no_llm (fun _ => "") (fun _ _ => "")
              (fun _ => None) Fixture.today _ tt _ H)
    as [[Hv _] | _]; [discriminate Hv | reflexivity].
Defined.

Lemma search_reports_top_companies_witness :
  exists found,
    findings Fixture.first_result = Companies found /\
    map (fun c => (cf_company c, cf_jobs c)) found
    = top_companies (group_by_company Fixture.jobPostings).
Proof.
  destruct (search_reports_top_companies Fixture.searchJobBoards
              Fixture.collect_ok Fixture.brodyPass Fixture.no_findings
              Fixture.no_findings Fixture.URL_hostname None Fixture.no_llm
              (fun _ => "") (fun _ _ => "") (fun _ => None) Fixture.today
              None Fixture.JSON_parse Fixture.JSON_stringify
              Cache.memoryClient Fixture.tenant_a (Cache.empty_cache 0)
              Fixture.first_result)
    as (jobPostings & found & Hjobs & Hfound & Htop & _).
  - reflexivity.
  - vm_compute. reflexivity.
  - exists found. split; [exact Hfound|].
    injection Hjobs as <-. exact Htop.
Defined.

Lemma failed_search_not_cached_witness :
  Forall (fun ev => exists key answer, ev = Cache.EGet key answer)
    (searchOpportunities Fixture.searchJobBoards Fixture.collect_one_fails
       Fixture.brodyPass Fixture.no_findings Fixture.no_findings
       Fixture.URL_hostname None Fixture.no_llm (fun _ => "")
       (fun _ _ => "") (fun _ => None) Fixture.today None
       (Cache.logged Cache.memoryClient) Fixture.JSON_parse
       Fixture.JSON_stringify Fixture.tenant_a (Cache.empty_cache 0, [])).2.2.
Proof.
  apply Forall_forall.
  apply (failed_search_not_cached Fixture.searchJobBoards
           Fixture.collect_one_fails Fixture.brodyPass Fixture.no_findings
           Fixture.no_findings Fixture.URL_hostname None Fixture.no_llm
           (fun _ => "") (fun _ _ => "") (fun _ => None) Fixture.today
           None Fixture.JSON_parse Fixture.JSON_stringify
           Cache.memoryClient Fixture.tenant_a (Cache.empty_cache 0)
           (ExternalServiceError "Research Engine")).
  vm_compute. reflexivity.
Defined.

End SearchFacts.

(* ===================================================================== *)
(** ** Verification and synthesis as a whole *)
(* ===================================================================== *)

Module PipelineFacts.
Import Horsemen.

(** *** Deduplication *)

Section Merging.

Variable keyOf : Finding -> string.

(** Every entry is filed under its own key. *)
Local Abbreviation keyed unique :=
  (forall key (finding : Finding), (key, finding) ∈ unique -> keyOf finding = key).

Lemma set_elem {A} key (v : A) m entry :
  entry ∈ OrderedMap.set key v m -> entry = (key, v) \/ entry ∈ m.
Proof.
  induction m as [|[k x] rest IH]; cbn.
  - intros H. apply list_elem_of_singleton in H. by left.
  - destruct (String.eqb_spec k key) as [->|Hne]; intros H;
      apply elem_of_cons in H as [H|H].
    + by left.
    + right. by right.
    + right. subst entry. by left.
    + destruct (IH H) as [?|?]; [by left | right; by right].
Qed.

Lemma set_length {A} key (v : A) m :
  (length (OrderedMap.set key v m) <= S (length m))%nat.
Proof.
  induction m as [|[k x] rest IH]; cbn; [lia|].
  destruct (String.eqb k key); cbn; lia.
Qed.

Lemma merge_elem unique finding entry :
  entry ∈ merge keyOf unique finding ->
  entry = (keyOf finding, finding) \/ entry ∈ unique.
Proof.
  unfold merge.
  destruct (OrderedMap.get _ unique) as [existing|];
    [destruct (lt _ _)|]; try (by right); apply set_elem.
Qed.

Lemma merge_length unique finding :
  (length (merge keyOf unique finding) <= S (length unique))%nat.
Proof.
  unfold merge.
  destruct (OrderedMap.get _ unique) as [existing|];
    [destruct (lt _ _)|]; try lia; apply set_length.
Qed.

Lemma merge_NoDup unique finding :
  NoDup unique.*1 -> NoDup (merge keyOf unique finding).*1.
Proof.
  intros H. unfold merge.
  destruct (OrderedMap.get _ unique) as [existing|];
    [destruct (lt _ _)|]; try done; by apply SearchFacts.set_keys_NoDup.
Qed.

Lemma merge_keyed unique finding :
  keyed unique -> keyed (merge keyOf unique finding).
Proof.
  intros H key f Hin. apply merge_elem in Hin as [[= -> ->]|Hin]; [done|].
  by apply H.
Qed.

(** Merging never lowers the confidence filed under a key, and files the
    merged finding or a better one under its key. *)
Lemma merge_raises unique finding key before :
  OrderedMap.get key unique = Some before ->
  exists after, OrderedMap.get key (merge keyOf unique finding) = Some after /\
                (confidence before <= confidence after)%Q.
Proof.
  intros Hget. unfold merge.
  destruct (OrderedMap.get (keyOf finding) unique) as [existing|] eqn:He.
  - destruct (lt (confidence existing) (confidence finding)) eqn:Hlt.
    + destruct (String.eqb_spec (keyOf finding) key) as [<-|Hne].
      * rewrite SearchFacts.get_set_eq. exists finding. split; [done|].
        rewrite He in Hget. injection Hget as <-.
        unfold lt in Hlt. apply negb_true_iff in Hlt.
        destruct (Qlt_le_dec (confidence existing) (confidence finding)) as [H|H].
        -- by apply Qlt_le_weak.
        -- apply Qle_bool_iff in H. congruence.
      * rewrite SearchFacts.get_set_ne by done. exists before. split; [done|].
        apply Qle_refl.
    + exists before. split; [done | apply Qle_refl].
  - destruct (String.eqb_spec (keyOf finding) key) as [<-|Hne]; [congruence|].
    rewrite SearchFacts.get_set_ne by done. exists before.
    split; [done | apply Qle_refl].
Qed.

Lemma merge_files unique finding :
  exists after,
    OrderedMap.get (keyOf finding) (merge keyOf unique finding) = Some after /\
    (confidence finding <= confidence after)%Q.
Proof.
  unfold merge.
  destruct (OrderedMap.get (keyOf finding) unique) as [existing|] eqn:He.
  - destruct (lt (confidence existing) (confidence finding)) eqn:Hlt.
    + rewrite SearchFacts.get_set_eq. exists finding.
      split; [done | apply Qle_refl].
    + exists existing. split; [done|].
      unfold lt in Hlt. apply negb_false_iff in Hlt.
      by apply Qle_bool_iff in Hlt.
  - rewrite SearchFacts.get_set_eq. exists finding.
    split; [done | apply Qle_refl].
Qed.

Lemma merged_elem verified : forall unique entry,
  entry ∈ fold_left (merge keyOf) verified unique ->
  entry ∈ unique \/ exists finding, finding ∈ verified /\
                                   entry = (keyOf finding, finding).
Proof.
  induction verified as [|f rest IH]; intros unique entry; cbn; [by left|].
  intros H. apply IH in H as [H|(g & Hg & ->)].
  - apply merge_elem in H as [->|H]; [|by left].
    right. exists f. split; [by left | done].
  - right. exists g. split; [by right | done].
Qed.

Lemma merged_length verified : forall unique,
  (length (fold_left (merge keyOf) verified unique)
   <= length unique + length verified)%nat.
Proof.
  induction verified as [|f rest IH]; intros unique; cbn; [lia|].
  etrans; [apply IH|]. pose proof (merge_length unique f). lia.
Qed.

Lemma merged_NoDup verified : forall unique,
  NoDup unique.*1 -> NoDup (fold_left (merge keyOf) verified unique).*1.
Proof.
  induction verified as [|f rest IH]; intros unique H; cbn; [done|].
  apply IH. by apply merge_NoDup.
Qed.

Lemma merged_keyed verified : forall unique,
  keyed unique -> keyed (fold_left (merge keyOf) verified unique).
Proof.
  induction verified as [|f rest IH]; intros unique H; cbn; [done|].
  apply IH. by apply merge_keyed.
Qed.

Lemma merged_raises verified : forall unique key before,
  OrderedMap.get key unique = Some before ->
  exists after,
    OrderedMap.get key (fold_left (merge keyOf) verified unique) = Some after /\
    (confidence before <= confidence after)%Q.
Proof.
  induction verified as [|f rest IH]; intros unique key before Hget; cbn.
  - exists before. split; [done | apply Qle_refl].
  - destruct (merge_raises unique f key before Hget) as (mid & Hmid & Hle).
    destruct (IH _ _ _ Hmid) as (after & Hafter & Hle').
    exists after. split; [done|]. by eapply Qle_trans.
Qed.

Lemma merged_best verified : forall unique finding,
  finding ∈ verified ->
  exists after,
    OrderedMap.get (keyOf finding) (fold_left (merge keyOf) verified unique)
      = Some after /\
    (confidence finding <= confidence after)%Q.
Proof.
  induction verified as [|f rest IH]; intros unique finding Hin;
    [by apply elem_of_nil in Hin|].
  cbn. apply elem_of_cons in Hin as [->|Hin]; [|by apply IH].
  destruct (merge_files unique f) as (mid & Hmid & Hle).
  destruct (merged_raises rest _ _ _ Hmid) as (after & Hafter & Hle').
  exists after. split; [done|]. by eapply Qle_trans.
Qed.

Lemma keyed_values unique :
  keyed unique -> map keyOf (OrderedMap.values unique) = unique.*1.
Proof.
  unfold OrderedMap.values.
  induction unique as [|[k v] rest IH]; intros H; cbn; [done|].
  rewrite (H k v) by by left. f_equal. apply IH.
  intros key f Hin. apply H. by right.
Qed.

End Merging.

(** X18. Deduplication keeps, for every key, one finding, and it is one of the
    most confident filed under that key: the result has no two findings
    with the same key, every finding of the result is a finding of the
    input, and every finding of the input is represented by a finding of
    the result with the same key and at least its confidence. *)
Theorem dedupe_keeps_best (verified : list Finding) :
  let unique := dedupe verified in
  NoDup (map key_joined unique) /\
  (length unique <= length verified)%nat /\
  (forall finding, finding ∈ unique -> finding ∈ verified) /\
  (forall finding, finding ∈ verified ->
     exists kept, kept ∈ unique /\
                  key_joined kept = key_joined finding /\
                  (confidence finding <= confidence kept)%Q).
Proof.
  intros unique. subst unique. unfold dedupe.
  set (merged := fold_left (merge key_joined) verified []).
  assert (Hkeyed : (forall key (finding : Finding), (key, finding) ∈ merged -> key_joined finding = key)).
  { apply merged_keyed. intros key f Hin. by apply elem_of_nil in Hin. }
  assert (Hnd : NoDup merged.*1) by (apply merged_NoDup; constructor).
  split; [|split; [|split]].
  - by rewrite keyed_values.
  - unfold OrderedMap.values. rewrite length_map.
    apply (merged_length key_joined verified []).
  - intros f Hin. unfold OrderedMap.values in Hin.
    apply list_elem_of_fmap in Hin as ([k v] & -> & Hin).
    apply merged_elem in Hin as [Hin|(g & Hg & [= _ ->])]; [|done].
    by apply elem_of_nil in Hin.
  - intros f Hin.
    destruct (merged_best key_joined verified [] f Hin) as (kept & Hget & Hle).
    fold merged in Hget. apply SearchFacts.get_Some_elem in Hget.
    exists kept. split; [|split; [|done]].
    + unfold OrderedMap.values.
      change kept with (snd (key_joined f, kept)). by apply list_elem_of_fmap_2.
    + by apply Hkeyed in Hget.
Qed.

(** *** Verification *)

Lemma boost_keeps finding :
  title (boost finding) = title finding /\
  detail (boost finding) = detail finding /\
  sources (boost finding) = sources finding /\
  tags (boost finding) = tags finding.
Proof. unfold boost. by destruct (3 <=? _)%nat. Qed.

Lemma boost_raises finding :
  (0 <= confidence finding <= 1)%Q ->
  (confidence finding <= confidence (boost finding) <= 1)%Q.
Proof.
  intros [H0 H1]. rewrite HorsemenFacts.boost_confidence.
  destruct (3 <=? _)%nat; [|split; [apply Qle_refl | done]].
  apply HorsemenFacts.Qmin_bounds; [lra | done].
Qed.

Lemma merged_sorted (verified : list Finding) : forall unique,
  fold_left (fun unique finding => merge key_joined unique (sort_tags finding))
            verified unique
  = fold_left (merge key_joined) (map sort_tags verified) unique.
Proof. induction verified as [|f rest IH]; intros unique; cbn; [done | apply IH]. Qed.

Lemma verify_origin (change : Finding -> Finding) preliminary kept :
  kept ∈ OrderedMap.values
           (fold_left (merge key_joined) (map change (verify preliminary)) []) ->
  exists finding, finding ∈ preliminary /\ uncorroborated finding = false /\
                  kept = change (boost finding).
Proof.
  intros Hin. unfold OrderedMap.values in Hin.
  apply list_elem_of_fmap in Hin as ([k v] & -> & Hin).
  apply merged_elem in Hin as [Hin|(g & Hg & [= _ ->])];
    [by apply elem_of_nil in Hin|].
  apply list_elem_of_fmap in Hg as (b & -> & Hb).
  rewrite HorsemenFacts.verify_filter_boost in Hb.
  apply list_elem_of_fmap in Hb as (g & -> & Hg).
  apply list_elem_of_In, filter_In in Hg as [Hg Hkeep].
  exists g. split; [by apply list_elem_of_In|]. split; [|done].
  by apply negb_true_iff in Hkeep.
Qed.

Lemma verify_length (change : Finding -> Finding) preliminary :
  (length (OrderedMap.values
             (fold_left (merge key_joined) (map change (verify preliminary)) []))
   <= length preliminary)%nat.
Proof.
  unfold OrderedMap.values. rewrite length_map.
  etrans; [apply merged_length|]. cbn. rewrite length_map.
  rewrite HorsemenFacts.verify_filter_boost, length_map.
  apply List.filter_length_le.
Qed.

Section Passes.

Variable env_LLM_PROVIDER : option string.
Variable analyzeContext : OsintContext -> string -> outcome string.
Variable verifyPrompt : list Finding -> string.
Variable synthesisPrompt : OsintContext -> list Finding -> string.
Variable scoreMatch : string -> option string.
Variable today : string.

Local Abbreviation kevin :=
  (kevinPass env_LLM_PROVIDER analyzeContext verifyPrompt).
Local Abbreviation pinko :=
  (pinkoPass env_LLM_PROVIDER analyzeContext synthesisPrompt scoreMatch today).

(** X19. Verification never fails and never invents: with or without a
    language model, and whether or not its call succeeds, the pass resolves
    with no more findings than it was given, and each finding it returns
    is a finding of the input that the filter does not reject, with the
    same title, detail and sources, the same tags up to their order, and a
    confidence that is at least the original one and at most one. *)
Theorem kevinPass_sound context (preliminary : list Finding) :
  (forall finding, finding ∈ preliminary -> (0 <= confidence finding <= 1)%Q) ->
  exists verified,
    kevin context preliminary = Resolved verified /\
    (length verified <= length preliminary)%nat /\
    forall kept, kept ∈ verified ->
      exists finding,
        finding ∈ preliminary /\
        uncorroborated finding = false /\
        title kept = title finding /\
        detail kept = detail finding /\
        sources kept = sources finding /\
        Permutation (tags kept) (tags finding) /\
        (confidence finding <= confidence kept <= 1)%Q.
Proof.
  intros Hconf.
  assert (Hplain : forall kept,
    kept ∈ kevinPass_fallback preliminary ->
    exists finding,
      finding ∈ preliminary /\ uncorroborated finding = false /\
      title kept = title finding /\ detail kept = detail finding /\
      sources kept = sources finding /\
      Permutation (tags kept) (tags finding) /\
      (confidence finding <= confidence kept <= 1)%Q).
  { intros kept Hin. unfold kevinPass_fallback, dedupe in Hin.
    rewrite <- (map_id (verify preliminary)) in Hin.
    apply (verify_origin (fun f => f)) in Hin as (g & Hg & Hkeep & ->).
    destruct (boost_keeps g) as (Ht & Hd & Hs & Htags).
    exists g. repeat split; try done; try by rewrite Htags.
    all: by apply boost_raises, Hconf. }
  assert (Hlen : (length (kevinPass_fallback preliminary)
                  <= length preliminary)%nat).
  { unfold kevinPass_fallback, dedupe.
    rewrite <- (map_id (verify preliminary)). apply (verify_length (fun f => f)). }
  unfold kevinPass, kevinPassEnhanced.
  destruct (llm_configured _); [|by eauto].
  destruct (analyzeContext _ _) as [answer|e]; [|by eauto].
  exists (dedupe_sorted (verify preliminary)).
  split; [done|]. unfold dedupe_sorted. rewrite merged_sorted.
  split; [apply verify_length|].
  intros kept Hin.
  apply verify_origin in Hin as (g & Hg & Hkeep & ->).
  destruct (boost_keeps g) as (Ht & Hd & Hs & Htags).
  exists g. repeat split; try done.
  - cbn. rewrite <- Htags. apply HorsemenFacts.sort_perm.
  - by apply boost_raises, Hconf.
  - by apply boost_raises, Hconf.
Qed.

(** X20. Without a language model, or when its call fails, synthesis returns
    the verified findings and one summary, in descending order of
    [confidence * impact multiplier]. *)
Theorem pinkoPass_rule_based context verified :
  llm_configured env_LLM_PROVIDER = false \/
  is_rejected (analyzeContext context (synthesisPrompt context verified)) = true ->
  exists prioritized,
    pinko context verified = Resolved prioritized /\
    Sorted (fun a b => (priority b <= priority a)%Q) prioritized /\
    Permutation prioritized
      (verified ++ [synthesis_finding today context verified]).
Proof.
  intros Hno. exists (pinkoPass_fallback today context verified).
  split; [|apply HorsemenFacts.pinkoPass_fallback_descending].
  unfold pinkoPass, pinkoPassEnhanced.
  destruct (llm_configured _); [|done].
  destruct Hno as [Hno|Hno]; [done|].
  by destruct (analyzeContext _ _).
Qed.

Lemma insert_agree {A} (c1 c2 : A -> A -> Q) x l :
  (forall y, y ∈ l -> c1 x y = c2 x y) ->
  JSArray.insert c1 x l = JSArray.insert c2 x l.
Proof.
  induction l as [|y rest IH]; intros H; cbn; [done|].
  rewrite (H y) by by left.
  destruct (Qle_bool _ _); [done|].
  f_equal. apply IH. intros z Hz. apply H. by right.
Qed.

Lemma sort_agree {A} (c1 c2 : A -> A -> Q) l :
  (forall x y, x ∈ l -> y ∈ l -> c1 x y = c2 x y) ->
  JSArray.sort c1 l = JSArray.sort c2 l.
Proof.
  induction l as [|x rest IH]; intros H; cbn; [done|].
  fold (JSArray.sort c1 rest). fold (JSArray.sort c2 rest).
  rewrite IH by (intros a b Ha Hb; apply H; by right).
  apply insert_agree. intros y Hy. apply H; [by left|].
  right. by rewrite <- (HorsemenFacts.sort_perm c2 rest).
Qed.

Lemma sorted_with_metadata automationScore l :
  Sorted (fun a b => (priority_enhanced b <= priority_enhanced a)%Q) l ->
  Sorted (fun a b => (priority_enhanced b <= priority_enhanced a)%Q)
         (map (fun f => with_metadata f automationScore) l).
Proof.
  induction 1 as [|x rest Hs IH Hhd]; cbn; constructor; [done|].
  destruct Hhd; cbn; by constructor.
Qed.

(** X21. With a language model that answers, and no verified finding itself
    tagged ['synthesis'], synthesis returns the executive summary first,
    holding the answer of the model, and after it the verified findings in
    descending order of [confidence * impact * quick-win multiplier];
    every finding returned carries the same automation score, the number
    read from the answer or 7 when the answer names none. *)
Theorem pinkoPass_llm_summary_first context verified answer :
  llm_configured env_LLM_PROVIDER = true ->
  analyzeContext context (synthesisPrompt context verified) = Resolved answer ->
  Forall (fun f => has_tag "synthesis" f = false) verified ->
  let automationScore :=
    match scoreMatch answer with
    | Some digits => default 7 (JS.parseInt digits)
    | None => 7
    end in
  exists summary rest,
    pinko context verified = Resolved (summary :: rest) /\
    title summary = "Comprehensive Automation Strategy" /\
    detail summary = answer /\
    Permutation rest (map (fun f => with_metadata f automationScore) verified) /\
    Sorted (fun a b => (priority_enhanced b <= priority_enhanced a)%Q) rest /\
    Forall (fun f => metadata f = Some automationScore) (summary :: rest).
Proof.
  intros Hllm Hanswer Hplain automationScore.
  unfold pinkoPass, pinkoPassEnhanced. rewrite Hllm, Hanswer.
  fold automationScore.
  rewrite HorsemenFacts.sort_enhanced_summary_first by done.
  cbn [map]. eexists _, _. split; [reflexivity|].
  split; [done|]. split; [done|].
  assert (Hsort : JSArray.sort compare_enhanced verified
                  = JSArray.sort (fun a b => (priority_enhanced b
                                              - priority_enhanced a)%Q) verified).
  { apply sort_agree. intros x y Hx Hy. unfold compare_enhanced.
    rewrite Forall_forall in Hplain.
    by rewrite (Hplain x Hx), (Hplain y Hy). }
  split; [|split].
  - by rewrite (HorsemenFacts.sort_perm compare_enhanced verified).
  - rewrite Hsort. apply sorted_with_metadata.
    apply (HorsemenFacts.sort_descending priority_enhanced).
  - constructor; [done|]. apply Forall_forall. intros f Hf.
    by apply list_elem_of_fmap in Hf as (g & -> & _).
Qed.

End Passes.

Lemma kevinPass_sound_witness :
  exists verified,
    kevinPass None Fixture.no_llm (fun _ => "") Fixture.acme
      [Fixture.invoices_ab; Fixture.invoices_ba] = Resolved verified /\
    (length verified <= 2)%nat.
Proof.
  destruct (kevinPass_sound None Fixture.no_llm (fun _ => "") Fixture.acme
              [Fixture.invoices_ab; Fixture.invoices_ba])
    as (verified & Hrun & Hlen & _).
  - intros f Hf.
    apply elem_of_cons in Hf as [->|Hf];
      [|apply list_elem_of_singleton in Hf as ->];
      split; vm_compute; discriminate.
  - exists verified. split; [exact Hrun | exact Hlen].
Defined.

Lemma pinkoPass_rule_based_witness :
  exists prioritized,
    pinkoPass None Fixture.no_llm (fun _ _ => "") (fun _ => None) "2024-01-15"
      Fixture.acme [Fixture.invoices_ba] = Resolved prioritized /\
    Permutation prioritized
      [Fixture.invoices_ba;
       synthesis_finding "2024-01-15" Fixture.acme [Fixture.invoices_ba]].
Proof.
  destruct (pinkoPass_rule_based None Fixture.no_llm (fun _ _ => "")
              (fun _ => None) "2024-01-15" Fixture.acme [Fixture.invoices_ba])
    as (prioritized & Hrun & _ & Hperm).
  - left. reflexivity.
  - exists prioritized. split; [exact Hrun | exact Hperm].
Defined.

Lemma pinkoPass_llm_summary_first_witness :
  exists summary rest,
    pinkoPass (Some "openai") Fixture.answering_llm (fun _ _ => "")
      (fun _ => Some "8") "2024-01-15" Fixture.acme [Fixture.invoices_ba]
    = Resolved (summary :: rest) /\
    detail summary = "Automation score: 8" /\
    metadata summary = Some 8.
Proof.
  destruct (pinkoPass_llm_summary_first (Some "openai") Fixture.answering_llm
              (fun _ _ => "") (fun _ => Some "8") "2024-01-15" Fixture.acme
              [Fixture.invoices_ba] "Automation score: 8")
    as (summary & rest & Hrun & _ & Hdetail & _ & _ & Hmeta).
  - reflexivity.
  - reflexivity.
  - repeat constructor.
  - exists summary, rest. split; [exact Hrun|]. split; [exact Hdetail|].
    by inversion Hmeta.
Defined.

End PipelineFacts.

(* ===================================================================== *)
(** ** The research endpoint as a whole *)
(* ===================================================================== *)

Module EndpointFacts.
Import Horsemen Engine Route RateLimit.

Lemma errorHandler_status e :
  status (errorHandler e) ∈ [400; 429; 500; 502] /\
  exists message code, body (errorHandler e) = Failure message code.
Proof.
  destruct e; cbn; (split; [set_solver | by eauto]).
Qed.

Section Endpoint.

Variable searchJobBoards : string -> option string -> outcome (list JobPosting).
Variable collectOsintContext : string -> string -> string -> outcome OsintContext.
Variable brodyPass karenPass durinPass : OsintContext -> outcome (list Finding).
Variable URL_hostname : string -> outcome string.
Variable env_LLM_PROVIDER : option string.
Variable analyzeContext : OsintContext -> string -> outcome string.
Variable verifyPrompt : list Finding -> string.
Variable synthesisPrompt : OsintContext -> list Finding -> string.
Variable scoreMatch : string -> option string.
Variable today : string.
Variable env_ENABLE_CACHE : option string.
Variable env_DAILY_RESEARCH_CAP_PER_TENANT : option string.
Variable env_MAX_CONCURRENT_RESEARCH_JOBS : option string.
Context {SC : Type}.
Variable cacheClient : Cache.CacheClient SC ResearchResult.
Variable JSON_parse : string -> outcome (option ResearchResult).
Variable JSON_stringify : ResearchResult -> outcome string.
Variable is_url is_uuid : string -> bool.

Local Abbreviation handler SR rateLimiter :=
  (POST (SR := SR) searchJobBoards collectOsintContext brodyPass karenPass
     durinPass URL_hostname env_LLM_PROVIDER analyzeContext verifyPrompt
     synthesisPrompt scoreMatch today env_ENABLE_CACHE
     env_DAILY_RESEARCH_CAP_PER_TENANT env_MAX_CONCURRENT_RESEARCH_JOBS
     rateLimiter cacheClient JSON_parse JSON_stringify is_url is_uuid).

(** X22. The endpoint always answers: whatever the body, the stores and the
    collaborators do, the handler resolves, either with status 200 and the
    research result or with the response [errorHandler] makes of the error,
    whose status is 400, 429, 500 or 502 and whose body is an error
    body. *)
Theorem POST_always_responds {SR} (rateLimiter : CounterStore SR) json s :
  exists response,
    (handler SR rateLimiter json s).1 = Resolved response /\
    ((exists result, response = {| status := 200; body := Success result |})
     \/ (exists e, response = errorHandler e /\
                   status response ∈ [400; 429; 500; 502] /\
                   exists message code, body response = Failure message code)).
Proof.
  assert (Herr : forall e, exists response,
    Resolved (errorHandler e) = Resolved response /\
    ((exists result, response = {| status := 200; body := Success result |})
     \/ (exists e, response = errorHandler e /\
                   status response ∈ [400; 429; 500; 502] /\
                   exists message code, body response = Failure message code))).
  { intros e. exists (errorHandler e). split; [done|]. right. exists e.
    split; [done|]. apply errorHandler_status. }
  unfold POST, try_catch, bind, lift, throw, ret.
  destruct json as [data|e]; [|apply Herr].
  destruct (schema_accepts _ _ data); cbn [negb]; [|apply Herr].
  destruct (on_fst _ s) as [[ok|e] s1]; [|apply Herr].
  destruct ok; cbn [negb]; [|apply Herr].
  match goal with |- context [(if ?c then ?x else ?y) s1] =>
    destruct ((if c then x else y) s1) as [[result|e] s2] end; [|apply Herr].
  eexists. split; [done|]. left. by eauto.
Qed.

(** X23. A body that cannot be parsed or does not pass the schema costs
    nothing: the handler answers with the error and sends no command to
    the counter store or to the cache, so no daily quota is consumed. *)
Theorem POST_rejects_before_quota {SR} (rateLimiter : CounterStore SR) json s :
  match json with
  | Resolved data => schema_accepts is_url is_uuid data = false
  | Rejected _ => True
  end ->
  handler SR rateLimiter json s
  = (Resolved (errorHandler
                 match json with
                 | Resolved _ => ValidationError "Invalid request parameters"
                 | Rejected e => e
                 end), s).
Proof.
  unfold POST, try_catch, bind, lift, throw, ret.
  destruct json as [data|e]; [|done].
  by intros ->.
Qed.

(** X24. A tenant over the daily limit is turned away before any research:
    on the in-process limiter the handler answers 429, the cache is not
    touched, and the counters are as they were, the increment of the check
    having been reverted. *)
Theorem POST_over_quota data (m : MemoryRateLimiter) (sc : SC) D C :
  schema_accepts is_url is_uuid data = true ->
  DAILY_LIMIT env_DAILY_RESEARCH_CAP_PER_TENANT = Some D ->
  CONCURRENT_LIMIT env_MAX_CONCURRENT_RESEARCH_JOBS = Some C ->
  let tenant := JS.or_default (clientId data) "anonymous" in
  0 <= current m (dailyKey tenant today) ->
  D <= current m (dailyKey tenant today) ->
  let run := handler MemoryRateLimiter memoryStore (Resolved data) (m, sc) in
  run.1 = Resolved
            {| status := 429;
               body := Failure
                 "Daily research limit exceeded. Please try again tomorrow."
                 "RATE_LIMIT_EXCEEDED" |} /\
  run.2.2 = sc /\
  forall key, current run.2.1 key = current m key.
Proof.
  intros Hvalid HD HC tenant Hnonneg Hover run. subst run.
  destruct (RateLimitFacts.checkRateLimit_memory
              env_DAILY_RESEARCH_CAP_PER_TENANT env_MAX_CONCURRENT_RESEARCH_JOBS
              today tenant m D C HD HC Hnonneg) as (Hans & Hcur & Hothers & _).
  assert (Hlt : (D <? current m (dailyKey tenant today) + 1) = true)
    by (apply Z.ltb_lt; lia).
  rewrite Hlt in Hans, Hcur. cbn [negb andb] in Hans, Hcur.
  unfold POST, try_catch, bind, lift, throw, ret. rewrite Hvalid. cbn [negb].
  unfold on_fst. fold tenant.
  destruct (checkRateLimit _ _ memoryStore today tenant m) as [o m'].
  cbn [fst snd] in *. subst o. cbn [negb fst snd].
  split; [done|]. split; [done|].
  intros key. destruct (decide (key = dailyKey tenant today)) as [->|Hne]; [done|].
  unfold current. by rewrite Hothers.
Qed.

End Endpoint.

Lemma POST_rejects_before_quota_witness :
  Fixture.POST Fixture.collect_ok (Rejected (Error "Unexpected end of JSON input"))
               Fixture.fresh
  = (Resolved {| status := 500;
                 body := Failure "Internal server error" "INTERNAL_ERROR" |},
     Fixture.fresh).
Proof.
  apply (POST_rejects_before_quota Fixture.searchJobBoards Fixture.collect_ok
           Fixture.brodyPass Fixture.no_findings Fixture.no_findings
           Fixture.URL_hostname None Fixture.no_llm (fun _ => "")
           (fun _ _ => "") (fun _ => None) Fixture.today None None None
           Cache.memoryClient Fixture.JSON_parse Fixture.JSON_stringify
           (fun _ => true) (fun _ => true)
           (RateLimit.logged RateLimit.memoryStore)
           (Rejected (Error "Unexpected end of JSON input")) Fixture.fresh).
  exact I.
Defined.

Lemma POST_over_quota_witness :
  (Route.POST Fixture.searchJobBoards Fixture.collect_ok Fixture.brodyPass
     Fixture.no_findings Fixture.no_findings Fixture.URL_hostname None
     Fixture.no_llm (fun _ => "") (fun _ _ => "") (fun _ => None)
     Fixture.today None (Some "0") None memoryStore Cache.memoryClient
     Fixture.JSON_parse Fixture.JSON_stringify (fun _ => true) (fun _ => true)
     (Resolved Fixture.tenant_a) (empty_limiter, Cache.empty_cache 0)).2.2
  = Cache.empty_cache 0.
Proof.
  refine (proj1 (proj2 (POST_over_quota Fixture.searchJobBoards
           Fixture.collect_ok Fixture.brodyPass Fixture.no_findings
           Fixture.no_findings Fixture.URL_hostname None Fixture.no_llm
           (fun _ => "") (fun _ _ => "") (fun _ => None) Fixture.today None
           (Some "0") None Cache.memoryClient Fixture.JSON_parse
           Fixture.JSON_stringify (fun _ => true) (fun _ => true)
           Fixture.tenant_a empty_limiter (Cache.empty_cache 0) 0 3
           _ _ _ _ _))).
  - reflexivity.
  - reflexivity.
  - reflexivity.
  - vm_compute. discriminate.
  - vm_compute. discriminate.
Defined.

End EndpointFacts.

(* ===================================================================== *)
(** ** Job-board results and the rule-based analyzers *)
(* ===================================================================== *)

Module CollectionFacts.
Import Horsemen Engine JobBoards Analyzers.

(** *** [deduplicateJobs] *)

Lemma note_jobs jobs : forall seen unique,
  exists kept,
    fold_left note_job jobs (seen, unique)
    = (list_to_set (map job_key kept) ∪ seen, (unique ++ kept)%list) /\
    sublist kept jobs /\
    NoDup (map job_key kept) /\
    (forall job, job ∈ kept -> job_key job ∉ seen) /\
    (forall job, job ∈ jobs ->
       job_key job ∈ seen \/ exists first, first ∈ kept /\
                                           job_key first = job_key job).
Proof.
  induction jobs as [|job rest IH]; intros seen unique.
  - exists []. cbn. rewrite app_nil_r, (left_id_L ∅ (∪)).
    split; [done|]. split; [constructor|]. split; [constructor|].
    split; intros j Hin; by apply elem_of_nil in Hin.
  - cbn [fold_left note_job].
    destruct (decide (job_key job ∈ seen)) as [Hseen|Hnew].
    + destruct (IH seen unique) as (kept & Hrun & Hsub & Hnd & Hfresh & Hall).
      exists kept. split; [done|]. split; [by apply sublist_cons|].
      split; [done|]. split; [done|].
      intros j Hj. apply elem_of_cons in Hj as [->|Hj]; [by left | by apply Hall].
    + destruct (IH ({[job_key job]} ∪ seen) (unique ++ [job])%list)
        as (kept & Hrun & Hsub & Hnd & Hfresh & Hall).
      exists (job :: kept). rewrite Hrun. cbn [map list_to_set].
      split; [|split; [|split; [|split]]].
      * f_equal; [|by rewrite <- app_assoc].
        apply set_eq. intros key. rewrite !elem_of_union. tauto.
      * by apply sublist_skip.
      * apply NoDup_cons. split; [|done].
        intros Hin. apply list_elem_of_fmap in Hin as (j & Hkey & Hj).
        apply Hfresh in Hj. rewrite <- Hkey in Hj. set_solver.
      * intros j Hj. apply elem_of_cons in Hj as [->|Hj]; [done|].
        apply Hfresh in Hj. set_solver.
      * intros j Hj. apply elem_of_cons in Hj as [->|Hj].
        -- right. exists job. split; [by left | done].
        -- destruct (Hall j Hj) as [Hin|(first & Hfirst & Hkey)].
           ++ apply elem_of_union in Hin as [Hin|Hin]; [|by left].
              apply elem_of_singleton in Hin. right. exists job.
              split; [by left | done].
           ++ right. exists first. split; [by right | done].
Qed.

Lemma note_distinct jobs : forall seen unique,
  NoDup (map job_key jobs) ->
  (forall job, job ∈ jobs -> job_key job ∉ seen) ->
  (fold_left note_job jobs (seen, unique)).2 = (unique ++ jobs)%list.
Proof.
  induction jobs as [|job rest IH]; intros seen unique Hnd Hfresh; cbn [fold_left].
  - cbn. by rewrite app_nil_r.
  - cbn [map] in Hnd. apply NoDup_cons in Hnd as [Hjob Hrest].
    cbn [note_job].
    destruct (decide (job_key job ∈ seen)) as [Hseen|Hnew].
    + exfalso. apply (Hfresh job); [by left | done].
    + rewrite IH; [by rewrite <- app_assoc | done |].
      intros j Hj Hin. apply elem_of_union in Hin as [Hin|Hin].
      * apply elem_of_singleton in Hin. apply Hjob. rewrite <- Hin.
        by apply list_elem_of_fmap_2.
      * apply (Hfresh j); [by right | done].
Qed.

(** X25. Deduplication of the job-board results keeps one posting for each
    pair of title and company, compared without regard to case: the result
    is a selection from the input in the original order, no two postings
    of the result have the same key, every posting of the input has its key
    represented, and deduplicating again changes nothing. *)
Theorem deduplicateJobs_selects (jobs : list JobPosting) :
  let unique := deduplicateJobs jobs in
  sublist unique jobs /\
  NoDup (map job_key unique) /\
  (forall job, job ∈ jobs ->
     exists kept, kept ∈ unique /\ job_key kept = job_key job) /\
  deduplicateJobs unique = unique.
Proof.
  intros unique. subst unique. unfold deduplicateJobs.
  destruct (note_jobs jobs ∅ []) as (kept & Hrun & Hsub & Hnd & _ & Hall).
  rewrite Hrun. cbn [snd app].
  split; [done|]. split; [done|]. split.
  - intros job Hin. destruct (Hall job Hin) as [Hno|Hyes]; [set_solver | done].
  - rewrite note_distinct; [done | done |].
    intros j _. set_solver.
Qed.

(** *** [calculateRelevanceScore] *)

Lemma counted_bounds {A} (step : Z -> A -> Z) (most : Z) (items : list A) :
  (forall score item, score <= step score item <= score + most) ->
  forall start,
    start <= fold_left step items start
          <= start + most * Z.of_nat (length items).
Proof.
  intros Hstep. induction items as [|item rest IH]; intros start;
    cbn [fold_left length]; [lia|].
  specialize (IH (step start item)). specialize (Hstep start item). nia.
Qed.

(** X26. The relevance score of a posting is never negative, a keyword adds at
    most three points (two for the title, one for the location), the
    high-value terms add at most five, and more keywords never lower the
    score. *)
Theorem calculateRelevanceScore_bounds (job : JobPosting)
    (keywords more : list string) :
  0 <= calculateRelevanceScore job keywords
    <= 3 * Z.of_nat (length keywords) + 5 /\
  calculateRelevanceScore job keywords
    <= calculateRelevanceScore job (keywords ++ more).
Proof.
  unfold calculateRelevanceScore.
  set (title := JSString.toLowerCase (posting_title job)).
  set (location := JSString.toLowerCase _).
  match goal with
  | |- context [fold_left ?g highValueTerms (fold_left ?f keywords 0)] =>
      set (per_term := g); set (per_keyword := f)
  end.
  assert (Hk : forall score keyword,
            score <= per_keyword score keyword <= score + 3).
  { intros score keyword. subst per_keyword. cbn.
    destruct (JSString.includes title keyword),
             (JSString.includes location keyword); lia. }
  assert (Ht : forall score term, score <= per_term score term <= score + 1).
  { intros score term. subst per_term. cbn.
    destruct (JSString.includes title term); lia. }
  assert (Hshift : forall terms start,
            fold_left per_term terms start
            = start + fold_left per_term terms 0).
  { induction terms as [|term rest IH]; intros start; cbn [fold_left]; [lia|].
    rewrite (IH (per_term start term)), (IH (per_term 0 term)).
    subst per_term. cbn. destruct (JSString.includes title term); lia. }
  split.
  - pose proof (counted_bounds per_keyword 3 keywords Hk 0) as H1.
    pose proof (counted_bounds per_term 1 highValueTerms Ht
                  (fold_left per_keyword keywords 0)) as H2.
    change (Z.of_nat (length highValueTerms)) with 5 in H2. lia.
  - rewrite fold_left_app.
    rewrite (Hshift _ (fold_left per_keyword keywords 0)).
    rewrite (Hshift _ (fold_left per_keyword more _)).
    pose proof (counted_bounds per_keyword 3 more Hk
                  (fold_left per_keyword keywords 0)) as H. lia.
Qed.

(** *** [categorizeRole] *)

(** X27. A title is put in the first category that matches in the order
    Operations, Customer Service, Data/Analytics, ...; since ["analyst"]
    is a keyword of Operations, a title that contains it is always filed
    under Operations, never under Data/Analytics, and the category of
    any title is one of the nine labels. *)
Theorem categorizeRole_first_match (title : string) :
  categorizeRole title
  ∈ ["Operations"; "Customer Service"; "Data/Analytics"; "Administrative";
     "Sales"; "Technical"; "Finance"; "HR"; "Other"] /\
  (JSString.includes title "analyst" = true ->
   categorizeRole title = "Operations") /\
  (categorizeRole title = "Data/Analytics" ->
   JSString.includes title "analyst" = false /\
   (JSString.includes title "data" || JSString.includes title "analytics"
    || JSString.includes title "reporting"
    || JSString.includes title "insights") = true).
Proof.
  unfold categorizeRole, first_category, role_categories.
  cbn [List.find snd fst].
  split; [|split].
  - repeat (match goal with
            | |- context [if ?c then _ else _] => destruct c
            end; cbn [fst fmap option_fmap option_map default];
           [set_solver|]).
    set_solver.
  - intros Hanalyst.
    assert (Hops : existsb (JSString.includes title)
                     ["operations"; "coordinator"; "specialist"; "analyst";
                      "manager"] = true).
    { cbn [existsb]. rewrite Hanalyst. by rewrite !orb_true_r. }
    by rewrite Hops.
  - destruct (existsb _ ["operations"; _; _; _; _]) eqn:Hops;
      cbn [fst fmap option_fmap option_map default]; [discriminate|].
    destruct (existsb _ ["customer"; _; _; _; _]) eqn:Hcs;
      cbn [fst fmap option_fmap option_map default]; [discriminate|].
    destruct (existsb _ ["data"; _; _; _; _]) eqn:Hdata;
      cbn [fst fmap option_fmap option_map default].
    + intros _. cbn [existsb] in Hops, Hdata.
      destruct (JSString.includes title "analyst").
      * by rewrite !orb_true_r in Hops.
      * split; [done|].
        by destruct (JSString.includes title "data"),
                    (JSString.includes title "analytics"),
                    (JSString.includes title "reporting"),
                    (JSString.includes title "insights").
    + repeat (match goal with
              | |- context [if ?c then _ else _] => destruct c
              end; cbn [fst fmap option_fmap option_map default];
             [discriminate|]).
      discriminate.
Qed.

Lemma categorizeRole_first_match_witness :
  JSString.includes "senior data analyst" "analyst" = true /\
  categorizeRole "senior data analyst" = "Operations".
Proof.
  assert (H : JSString.includes "senior data analyst" "analyst" = true)
    by reflexivity.
  split; [exact H|].
  exact (proj1 (proj2 (categorizeRole_first_match "senior data analyst")) H).
Defined.

(** *** [analyzeJobPostings] and [analyzeTechStack] *)

(** A finding that verification keeps whatever its sources are. *)
Local Abbreviation solid :=
  (fun f : Finding =>
     ((3 # 5) <= confidence f <= (9 # 10))%Q /\ uncorroborated f = false).

Lemma solid_confidence f :
  ((3 # 5) <= confidence f <= (9 # 10))%Q -> solid f.
Proof.
  intros H. split; [done|]. unfold uncorroborated, lt.
  destruct (Qle_bool (1 # 2) (confidence f)) eqn:E; [done|].
  assert (Hle : (1 # 2 <= confidence f)%Q) by lra.
  apply Qle_bool_iff in Hle. congruence.
Qed.

Lemma set_nonempty {A} key (v : A) m : OrderedMap.set key v m <> [].
Proof. destruct m as [|[k x] rest]; cbn; [done|]. by destruct (String.eqb k key). Qed.

Local Abbreviation scanned jobs :=
  (fold_left scan_job jobs
     {| scan_findings := []; automationOpportunities := []; roles := [] |}).

Lemma scan_jobs_invariant jobs : forall scan,
  let done := fold_left scan_job jobs scan in
  (length (scan_findings done)
   <= length (scan_findings scan) + length jobs)%nat /\
  (Forall (fun f => solid f /\ has_tag "automation-opportunity" f = true)
          (scan_findings scan) ->
   Forall (fun f => solid f /\ has_tag "automation-opportunity" f = true)
          (scan_findings done)) /\
  ((scan_findings scan <> [] -> automationOpportunities scan <> []) ->
   scan_findings done <> [] -> automationOpportunities done <> []) /\
  (jobs <> [] \/ roles scan <> [] -> roles done <> []).
Proof.
  induction jobs as [|job rest IH]; intros scan; cbn [fold_left].
  - cbn. split; [lia|]. split; [done|]. split; [done|]. by intros [?|?].
  - destruct (IH (scan_job scan job)) as (Hlen & Hall & Hopp & Hroles).
    split; [|split; [|split]].
    + etrans; [exact Hlen|]. unfold scan_job. cbn [scan_findings length].
      destruct (_ && _); [rewrite length_app; cbn|]; lia.
    + intros H. apply Hall. unfold scan_job. cbn [scan_findings].
      destruct (_ && _); [|done].
      apply Forall_app. split; [done|]. constructor; [|constructor].
      split; [apply solid_confidence; cbn; lra | reflexivity].
    + intros H. apply Hopp. unfold scan_job.
      cbn [scan_findings automationOpportunities].
      destruct (nonempty (List.filter _ AUTOMATION_KEYWORDS)).
      * intros _. by destruct (automationOpportunities scan).
      * by rewrite andb_false_r.
    + intros _. apply Hroles. right. unfold scan_job. cbn [roles].
      apply set_nonempty.
Qed.

(** X28. The analysis of the job postings returns nothing when there are no
    postings; otherwise its last finding is the hiring pattern, tagged
    ['growth'].  It returns at most one finding for each posting and two
    more, every finding has a confidence between 0.6 and 0.9, so that
    verification never filters one out, and a finding for a high-volume
    role never comes without the summary of the automation
    opportunities. *)
Theorem analyzeJobPostings_shape today (context : OsintContext) :
  let findings := analyzeJobPostings today context in
  (jobs context = [] -> findings = []) /\
  (jobs context <> [] ->
   exists earlier pattern,
     findings = (earlier ++ [pattern])%list /\
     title pattern = "Hiring Pattern Analysis" /\
     has_tag "growth" pattern = true) /\
  (length findings <= length (jobs context) + 2)%nat /\
  Forall solid findings /\
  (existsb (has_tag "high-impact") findings = true ->
   existsb (fun f => String.eqb (title f)
                       "Multiple Automation Opportunities in Job Postings")
           findings = true).
Proof.
  intros findings. subst findings. unfold analyzeJobPostings.
  destruct (jobs context) as [|job rest] eqn:Hjobs.
  { split; [done|]. split; [done|]. split; [cbn; lia|]. split; [constructor|].
    done. }
  rewrite <- Hjobs.
  assert (Hne : jobs context <> []) by (rewrite Hjobs; done).
  clear Hjobs job rest.
  destruct (scan_jobs_invariant (jobs context)
              {| scan_findings := []; automationOpportunities := [];
                 roles := [] |}) as (Hlen & Hall & Hopp & Hroles).
  cbn zeta in Hlen, Hall, Hopp, Hroles. cbn [scan_findings length] in *.
  set (scan := scanned (jobs context)) in *.
  specialize (Hall ltac:(constructor)).
  specialize (Hopp ltac:(done)).
  specialize (Hroles (or_introl Hne)).
  assert (Htop : nonempty
            (take 3 (JSArray.sort (fun a b => inject_Z (b.2 - a.2))
                       (OrderedMap.entries (roles scan)))) = true).
  { pose proof (HorsemenFacts.sort_perm (fun a b : string * Z => inject_Z (b.2 - a.2))
                  (OrderedMap.entries (roles scan))) as Hperm.
    unfold OrderedMap.entries in *.
    destruct (JSArray.sort _ (roles scan)) as [|e l]; [|done].
    apply Permutation_nil in Hperm. done. }
  rewrite Htop.
  set (summarised := if nonempty (automationOpportunities scan) then _ else _).
  assert (Hsum : (length summarised <= length (jobs context) + 1)%nat /\
                 Forall solid summarised /\
                 (existsb (has_tag "high-impact") summarised = true ->
                  existsb (fun f => String.eqb (title f)
                      "Multiple Automation Opportunities in Job Postings")
                    summarised = true)).
  { subst summarised.
    destruct (nonempty (automationOpportunities scan)) eqn:Hn.
    - split; [rewrite length_app; cbn; lia|]. split.
      + apply Forall_app. split.
        * eapply Forall_impl; [exact Hall|]. by intros f [Hf _].
        * constructor; [|constructor]. apply solid_confidence. cbn. lra.
      + intros _. rewrite existsb_app. cbn. by rewrite orb_true_r.
    - split; [lia|]. split.
      + eapply Forall_impl; [exact Hall|]. by intros f [Hf _].
      + destruct (scan_findings scan) as [|f l] eqn:Hf; [done|].
        assert (Hfind : f :: l <> []) by done.
        apply Hopp in Hfind.
        by destruct (automationOpportunities scan). }
  destruct Hsum as (Hslen & Hsolid & Himpact).
  split; [done|]. split; [|split; [|split]].
  - intros _. eexists _, _. split; [reflexivity|]. split; reflexivity.
  - rewrite length_app. cbn. lia.
  - apply Forall_app. split; [done|].
    constructor; [|constructor]. apply solid_confidence. cbn. lra.
  - rewrite !existsb_app. cbn. rewrite !orb_false_r. exact Himpact.
Qed.

Ltac not_listed H :=
  repeat (apply elem_of_cons in H as [H|H]; [discriminate H|]);
  apply elem_of_nil in H.

Lemma file_tech_keys techs : forall techByCategory,
  (forall key, key ∈ techByCategory.*1 -> key ∈ tech_categories.*1) ->
  forall key, key ∈ (fold_left file_tech techs techByCategory).*1 ->
              key ∈ tech_categories.*1.
Proof.
  induction techs as [|t rest IH]; intros m Hm; cbn [fold_left]; [done|].
  apply IH. intros key. unfold file_tech, first_category.
  destruct (List.find _ tech_categories) as [[category keywords]|] eqn:Hfind;
    cbn [fmap option_fmap option_map fst]; [|apply Hm].
  rewrite SearchFacts.set_keys.
  apply find_some in Hfind as [Hin _].
  assert (Hcat : category ∈ tech_categories.*1).
  { change category with (fst (category, keywords)).
    apply list_elem_of_fmap_2. by apply list_elem_of_In. }
  destruct (OrderedMap.get category m); [apply Hm|].
  intros Hkey. apply elem_of_app in Hkey as [Hkey|Hkey]; [by apply Hm|].
  apply list_elem_of_singleton in Hkey. by subst key.
Qed.

(** X29. The analysis of the tech stack always reports a technology gap as an
    automation opportunity, whatever the stack is: with no technology it
    is the one finding returned, and with technologies the capabilities
    ["Automation"] and ["Integration"] always count as missing, since no
    technology is ever filed under them.  Legacy and modern stack are
    never reported together, there are at most three findings, and every
    finding has a confidence between 0.6 and 0.9, so that verification
    never filters one out. *)
Theorem analyzeTechStack_reports_gap today (context : OsintContext) :
  let findings := analyzeTechStack today context in
  (exists gap, gap ∈ findings /\
               tags gap = ["tech-gap"; "automation-opportunity"]) /\
  (1 <= length findings <= 3)%nat /\
  Forall solid findings /\
  (existsb (has_tag "legacy-tech") findings
   && existsb (has_tag "modern-tech") findings) = false.
Proof.
  intros findings. subst findings. unfold analyzeTechStack.
  destruct (tech context) as [|t rest] eqn:Htech.
  { split; [eexists; split; [by left | done]|].
    split; [cbn; lia|]. split; [|done].
    constructor; [|constructor]. apply solid_confidence. cbn. lra. }
  rewrite <- Htech. clear Htech t rest.
  set (techByCategory := fold_left file_tech (tech context) []).
  assert (Hmissing : has_category techByCategory "Automation" = false /\
                     has_category techByCategory "Integration" = false).
  { assert (Hkeys : forall key, key ∈ techByCategory.*1 ->
                                key ∈ tech_categories.*1).
    { apply file_tech_keys. intros key Hkey. by apply elem_of_nil in Hkey. }
    split; unfold has_category.
    - destruct (OrderedMap.get "Automation" techByCategory) eqn:E; [|done].
      apply SearchFacts.get_Some_elem in E.
      apply (list_elem_of_fmap_2 fst) in E. apply Hkeys in E.
      cbn in E. by not_listed E.
    - destruct (OrderedMap.get "Integration" techByCategory) eqn:E; [|done].
      apply SearchFacts.get_Some_elem in E.
      apply (list_elem_of_fmap_2 fst) in E. apply Hkeys in E.
      cbn in E. by not_listed E. }
  destruct Hmissing as [Hauto Hint].
  cbn [List.filter]. rewrite Hauto, Hint. cbn [negb].
  assert (Hne : forall l : list string,
            nonempty (l ++ ["Automation"; "Integration"])%list = true)
    by (by intros [|? ?]).
  set (hasModernTools := existsb (fun t => existsb _ MODERN_INDICATORS) _).
  set (hasLegacyTools := existsb (fun t => existsb _ LEGACY_INDICATORS) _).
  destruct (negb (has_category techByCategory "Analytics"));
    cbn [nonempty];
    destruct hasLegacyTools, hasModernTools;
    cbn [negb andb app];
    destruct (4 <=? length techByCategory)%nat; cbn [app].
  all: split;
    [first [ eexists; split; [apply list_elem_of_here | reflexivity]
           | eexists; split;
             [apply list_elem_of_further, list_elem_of_here | reflexivity]
           | eexists; split;
             [apply list_elem_of_further, list_elem_of_further,
                list_elem_of_here | reflexivity] ]|].
  all: split; [cbn; lia|].
  all: split; [repeat constructor; try (apply solid_confidence; cbn; lra)|done].
Qed.

End CollectionFacts.

(* ===================================================================== *)
(** ** Housekeeping of the in-process cache *)
(* ===================================================================== *)

Module HousekeepingFacts.
Import Cache CacheDecorator.

(** X30. As long as every write has a time to live whose milliseconds are
    in the range of [setTimeout], the in-process cache keeps a cleanup
    timer for every entry, due at the expiry of the entry: a write in the
    range, a read, a delete, a flush and the passing of time preserve
    this.  So once the timers that are due have run, the cache holds live
    entries only, and a read finds nothing to evict and leaves the cache
    as it is.  A write outside the range is different: whatever its time
    to live, the entry is gone once its timer, which then waits one
    millisecond, has fired. *)
Theorem memory_cache_timers {V} `{!JSValue V} (m : MemoryCache V)
    key value ms :
  well_timed m ->
  (forall seconds, timer_range seconds ->
                   well_timed (mc_set key value (Some seconds) m).2) /\
  well_timed (mc_get key m).2 /\
  well_timed (mc_del key m).2 /\
  well_timed (mc_flushAll m).2 /\
  well_timed (elapse ms m) /\
  (forall k v expiry,
     cache (elapse ms m) !! k = Some (v, expiry) ->
     exists due, expiry = Some due /\ now (elapse ms m) < due) /\
  (mc_get key (elapse ms m)).2 = elapse ms m /\
  (forall ttlSeconds,
     timer_delay (times ttlSeconds (Some 1000)) <= ms ->
     cache (elapse ms (mc_set key value ttlSeconds m).2) !! key = None).
Proof.
  intros Hm.
  assert (Hlive : forall k v expiry,
            cache (elapse ms m) !! k = Some (v, expiry) ->
            exists due, expiry = Some due /\ timers m !! k = Some due /\
                        now m + ms < due).
  { intros k v expiry Hk. cbn in Hk.
    apply map_lookup_filter_Some in Hk as [Hk Hdue]. cbn in Hdue.
    destruct (Hm _ _ _ Hk) as (due & -> & Ht).
    exists due. split; [done|]. split; [done|].
    apply map_lookup_filter_None in Hdue as [Hdue|Hdue]; [congruence|].
    specialize (Hdue due Ht). cbn in Hdue. lia. }
  split; [|split; [|split; [|split; [|split; [|split; [|split]]]]]].
  - intros seconds Hrange k v e. cbn [mc_set snd cache timers].
    rewrite CacheFacts.timer_delay_range by done.
    destruct (decide (k = key)) as [->|Hne].
    + rewrite !lookup_insert_eq. intros [= _ <-]. by eexists.
    + rewrite !lookup_insert_ne by done. apply Hm.
  - unfold mc_get. destruct (cache m !! key) as [[v e]|]; [|done].
    destruct (JS.gt _ e); [|done].
    intros k v' e'. cbn. destruct (decide (k = key)) as [->|Hne].
    + by rewrite lookup_delete_eq.
    + rewrite lookup_delete_ne by done. apply Hm.
  - intros k v e. cbn. destruct (decide (k = key)) as [->|Hne].
    + by rewrite lookup_delete_eq.
    + rewrite !lookup_delete_ne by done. apply Hm.
  - intros k v e. cbn. by rewrite lookup_empty.
  - intros k v e Hk. destruct (Hlive _ _ _ Hk) as (due & -> & Ht & Hlt).
    exists due. split; [done|].
    cbn. apply map_lookup_filter_Some. split; [done|]. cbn. lia.
  - intros k v e Hk. destruct (Hlive _ _ _ Hk) as (due & -> & _ & Hlt).
    by exists due.
  - unfold mc_get.
    destruct (cache (elapse ms m) !! key) as [[v e]|] eqn:Hk; [|done].
    destruct (Hlive _ _ _ Hk) as (due & -> & _ & Hlt).
    change (now (elapse ms m)) with (now m + ms). cbn [JS.gt].
    by destruct (Z.ltb_spec due (now m + ms)); [lia|].
  - intros ttlSeconds Hdue.
    apply (CacheServiceFacts.elapse_lookup_due _ key
             (now m + timer_delay (times ttlSeconds (Some 1000)))).
    + cbn. by rewrite lookup_insert_eq.
    + cbn. lia.
Qed.

Lemma memory_cache_timers_witness :
  well_timed (empty_cache (V := Z) 0) /\
  well_timed (mc_set "k" 7 (Some 60) (empty_cache 0)).2.
Proof.
  assert (H : well_timed (empty_cache (V := Z) 0)).
  { intros k v e Hk. cbn in Hk. by rewrite lookup_empty in Hk. }
  split; [exact H|].
  apply (proj1 (memory_cache_timers (empty_cache 0) "k" 7 0 H) 60).
  unfold timer_range. lia.
Defined.

End HousekeepingFacts.
